(** * Local_LLM: the training and search scripts, embedded and verified

    Two scripts are modelled, each in a module of its own:
    - [AutoTune]  : [Auto_Tune.py], the character-level grid search;
    - [Subword]   : [GPT_Trainer-subword.py], the subword trainer.

    Python values are modelled as follows.  Integers are [Z] (or [nat] where
    the source only counts), strings are lists of code points, floats are
    the value they denote together with the IEEE special values, dicts are
    [gmap]s.  A function that can raise returns a [result]; a function with
    effects is a state transformer that keeps its state when it raises, as
    a Python object keeps its fields when an exception unwinds the stack.
    The tensor engine, the tokenizer, the codec, the random generators and
    the files are collaborators outside the scripts: they are read from a
    [world] record of oracles. *)

From Stdlib Require Import ZArith QArith Lia Lqa String.
From Stdlib Require Import Strings.Byte.
From stdpp Require Import base tactics option list list_numbers gmap sorting.

Local Open Scope Z_scope.

(** ** Python exceptions and results *)

Inductive exn : Type :=
| ValueError (msg : string)
| TypeError (msg : string)
| KeyError (msg : string)
| RuntimeError (msg : string)
| RecursionError (msg : string)
| UnboundLocalError (msg : string)
| ExternalError (cls msg : string).

(** The class name Python reports for an exception. *)
Definition exn_class (e : exn) : string :=
  match e with
  | ValueError _ => "ValueError"
  | TypeError _ => "TypeError"
  | KeyError _ => "KeyError"
  | RuntimeError _ => "RuntimeError"
  | RecursionError _ => "RecursionError"
  | UnboundLocalError _ => "UnboundLocalError"
  | ExternalError cls _ => cls
  end.

Inductive result (A : Type) : Type :=
| Ok (a : A)
| Raise (e : exn).
Arguments Ok {A} a.
Arguments Raise {A} e.

Definition is_ok {A} (r : result A) : bool :=
  match r with Ok _ => true | Raise _ => false end.

(** Pure code that can raise. *)
Definition rbind {A B} (r : result A) (k : A -> result B) : result B :=
  match r with
  | Ok a => k a
  | Raise e => Raise e
  end.

(** A list comprehension whose element expression can raise. *)
Fixpoint rmap {A B} (f : A -> result B) (l : list A) : result (list B) :=
  match l with
  | [] => Ok []
  | x :: l' => rbind (f x) (fun y => rbind (rmap f l') (fun ys => Ok (y :: ys)))
  end.

(** ** Code with effects: state that survives an exception *)

Definition M (S A : Type) : Type := S -> result A * S.

Definition ret {S A} (a : A) : M S A := fun s => (Ok a, s).
Definition raise {S A} (e : exn) : M S A := fun s => (Raise e, s).
Definition bind {S A B} (m : M S A) (k : A -> M S B) : M S B :=
  fun s => match m s with
           | (Ok a, s') => k a s'
           | (Raise e, s') => (Raise e, s')
           end.
Definition gets {S A} (f : S -> A) : M S A := fun s => (Ok (f s), s).
Definition modify {S} (f : S -> S) : M S unit := fun s => (Ok tt, f s).
Definition lift {S A} (r : result A) : M S A := fun s => (r, s).

Declare Scope py_scope.
Delimit Scope py_scope with py.
Notation "x <- m ;; k" := (bind m (fun x => k))
  (at level 20, m at level 99, k at level 200, only parsing) : py_scope.
Notation "' pat <- m ;; k" := (bind m (fun x => match x with pat => k end))
  (at level 20, pat pattern, m at level 99, k at level 200, only parsing) : py_scope.
Notation "m ;; k" := (bind m (fun _ => k))
  (at level 100, k at level 200, right associativity, only parsing) : py_scope.

(** Loop control: what the body of a [for] tells the loop. *)
Inductive ctl : Type := Continue | Break.

(** [for x in xs: body], where the body may [break], [continue] or raise. *)
Fixpoint for_each {S X} (xs : list X) (body : X -> M S ctl) : M S unit :=
  match xs with
  | [] => ret tt
  | x :: xs' =>
      fun s => match body x s with
               | (Ok Continue, s') => for_each xs' body s'
               | (Ok Break, s') => (Ok tt, s')
               | (Raise e, s') => (Raise e, s')
               end
  end.

(** A loop that runs [m] [n] times and fills a list with the results. *)
Fixpoint collect {S A} (n : nat) (m : M S A) : M S (list A) :=
  match n with
  | O => ret []
  | S n' => bind m (fun a => bind (collect n' m) (fun l => ret (a :: l)))
  end.

(** [range(n)] and [range(1, n + 1)]. *)
Definition range (n : Z) : list Z := seqZ 0 n.
Definition range1 (n : Z) : list Z := seqZ 1 n.

(** ** Python floats

    A float is modelled by the number it denotes, or one of the special
    values; rounding is not modelled.  Comparison follows IEEE 754 as
    Python implements it: every comparison with NaN is false. *)

Inductive float : Type :=
| NaN
| NegInf
| Fin (q : Q)
| PosInf.

Definition Qltb (x y : Q) : bool := negb (Qle_bool y x).

(** [x < y] on Python floats. *)
Definition flt (x y : float) : bool :=
  match x, y with
  | NaN, _ | _, NaN => false
  | NegInf, NegInf => false
  | NegInf, _ => true
  | _, NegInf => false
  | PosInf, _ => false
  | Fin _, PosInf => true
  | Fin a, Fin b => Qltb a b
  end.

(** [x <= y] on Python floats. *)
Definition fle (x y : float) : bool :=
  match x, y with
  | NaN, _ | _, NaN => false
  | NegInf, _ => true
  | _, PosInf => true
  | PosInf, _ => false
  | _, NegInf => false
  | Fin a, Fin b => Qle_bool a b
  end.

Definition is_finite (x : float) : bool :=
  match x with Fin _ => true | _ => false end.

(** [x + y] on Python floats. *)
Definition fadd (x y : float) : float :=
  match x, y with
  | NaN, _ | _, NaN => NaN
  | PosInf, NegInf | NegInf, PosInf => NaN
  | PosInf, _ | _, PosInf => PosInf
  | NegInf, _ | _, NegInf => NegInf
  | Fin a, Fin b => Fin (a + b)
  end.

(** [x / n] for a float [x] and a positive integer [n]. *)
Definition fdiv_pos (x : float) (n : Z) : float :=
  match x with
  | Fin a => Fin (a / inject_Z n)
  | other => other
  end.

(** The mean of a tensor of losses. *)
Definition fmean (l : list float) : float :=
  fdiv_pos (foldl fadd (Fin 0) l) (Z.of_nat (length l)).

(** ** Sequences: slices and the random generators *)

(** [l[lo:hi]] for a list or a one-dimensional tensor, negative bounds
    counting from the end and all bounds clipped to the length. *)
Definition clip_index {A} (l : list A) (k : Z) : nat :=
  let n := Z.of_nat (length l) in
  Z.to_nat (if k <? 0 then Z.max 0 (n + k) else Z.min k n).

Definition slice {A} (l : list A) (lo hi : Z) : list A :=
  take (clip_index l hi - clip_index l lo)%nat (drop (clip_index l lo) l).

(** [random.randint(a, b)]: both ends included, [ValueError] on an empty
    range.  [r] is the raw draw of the generator. *)
Definition random_randint (a b : Z) (r : nat) : result Z :=
  if b <? a then Raise (ValueError "empty range for randrange()")
  else Ok (a + Z.of_nat r mod (b - a + 1)).

(** [torch.randint(low, high, (n,))]: [high] excluded; [RuntimeError] for a
    negative size and unless [low < high].  [rs] are the raw draws. *)
Definition torch_randint (low high n : Z) (rs : list nat) : result (list Z) :=
  if n <? 0 then
    Raise (RuntimeError "Trying to create tensor with negative dimension")
  else if high <=? low then
    Raise (RuntimeError "random_ expects 'from' to be less than 'to'")
  else Ok (map (fun r => low + Z.of_nat r mod (high - low)) (take (Z.to_nat n) rs)).

(** [torch.nn.utils.clip_grad_norm_(parameters, max_norm)]: every gradient
    is multiplied by [max_norm / (total_norm + 1e-6)], clamped to 1, where
    [total_norm] is the 2-norm of all the gradients together. *)
Definition clip_coef (max_norm total_norm : Q) : Q :=
  let c := (max_norm / (total_norm + (1 # 1000000)))%Q in
  if Qle_bool 1 c then 1%Q else c.

Definition clip_grad_norm (max_norm total_norm : Q) (grads : list Q) : list Q :=
  map (Qmult (clip_coef max_norm total_norm)) grads.

(** [torch.stack(rows)] for one-dimensional rows: the rows must be there and
    must have one length. *)
Definition torch_stack {A} (rows : list (list A)) : result (list (list A)) :=
  match rows with
  | [] => Raise (RuntimeError "stack expects a non-empty TensorList")
  | r :: rest =>
      if forallb (fun r' => Nat.eqb (length r') (length r)) rest then Ok rows
      else Raise (RuntimeError "stack expects each tensor to be equal size")
  end.

(** A string is a list of code points. *)
Definition char : Type := N.
Definition pystr : Type := list char.

Definition str (s : string) : pystr :=
  map (fun a => N.of_nat (Ascii.nat_of_ascii a)) (String.list_ascii_of_string s).

Inductive split : Type := train | val.

Definition batch : Type := (list (list nat) * list (list nat))%type.

(** [mmap.read(n)] at position [pos]: up to [n] bytes, all the rest when
    [n] is negative. *)
Definition mm_read (file : list byte) (pos n : Z) : list byte :=
  if n <? 0 then drop (Z.to_nat pos) file
  else take (Z.to_nat n) (drop (Z.to_nat pos) file).

(** [s.replace('\r', '')]. *)
Definition strip_cr (s : pystr) : pystr :=
  filter (fun c => c ≠ 13%N) s.

(** ** What a run does to its collaborators and prints, in order

    [C] is the script's type of configurations. *)

Inductive event (C : Type) : Type :=
| Seek (sp : split) (pos : Z)        (* mm.seek(start_pos) *)
| PrintRetry                         (* "Encoded block is too small, retrying..." *)
| ModelEval                          (* model.eval() *)
| ModelTrain                         (* model.train() *)
| PrintTrial (c : C)                 (* "Evaluating combination" / "Training with optimizer" *)
| PrintSkipping                      (* "Skipping current iteration ..." *)
| ZeroGrad                           (* optimizer.zero_grad(...) *)
| Backward                           (* scaler.scale(loss).backward() *)
| ClipGradNorm (max_norm : Q)        (* torch.nn.utils.clip_grad_norm_(..., max_norm) *)
| ScalerStep                         (* scaler.step(optimizer) *)
| ScalerUpdate                       (* scaler.update() *)
| SchedulerStep (metric : option float)  (* scheduler.step() / scheduler.step(val_loss) *)
| PrintEval (epoch iteration : Z) (train_loss val_loss : float)
                                     (* "step: ..., val loss: ..." / "Epoch [..], ... Val Loss" *)
| SaveBest (c : C) (iteration : Z)   (* torch.save(model.state_dict(), "best_model.pt") *)
| PrintNewBest (c : C) (val_loss : float)  (* "Found new best configuration" *)
| PrintPlateaued                     (* "Validation loss plateaued ..." *)
| PrintLR                            (* "Current learning rate" *)
| SaveCheckpoint (epoch : Z) (val_loss : float)  (* save_checkpoint(...) *)
| PrintFinished (c : C) (val_loss : float)   (* "Finished combination" *)
| PrintBest (c : C) (best : float).  (* "Best hyperparameters found" / "Best configuration found" *)

Arguments Seek {C} sp pos.
Arguments PrintRetry {C}.
Arguments ModelEval {C}.
Arguments ModelTrain {C}.
Arguments PrintTrial {C} c.
Arguments PrintSkipping {C}.
Arguments ZeroGrad {C}.
Arguments Backward {C}.
Arguments ClipGradNorm {C} max_norm.
Arguments ScalerStep {C}.
Arguments ScalerUpdate {C}.
Arguments SchedulerStep {C} metric.
Arguments PrintEval {C} epoch iteration train_loss val_loss.
Arguments SaveBest {C} c iteration.
Arguments PrintNewBest {C} c val_loss.
Arguments PrintPlateaued {C}.
Arguments PrintLR {C}.
Arguments SaveCheckpoint {C} epoch val_loss.
Arguments PrintFinished {C} c val_loss.
Arguments PrintBest {C} c best.

(** ** Auto_Tune.py *)

Module AutoTune.

Definition block_size : Z := 128.
Definition max_iters : Z := 3000.
Definition eval_interval : Z := 500.
Definition eval_iters : Z := 250.

(** *** The vocabulary (lines 26-36) *)

(** [sorted(list(set(text)))]. *)
Definition chars_of (text : pystr) : list char :=
  merge_sort N.le (remove_dups text).

(** [{ch: i for i, ch in enumerate(chars)}]: a later pair replaces an
    earlier one with the same key. *)
Definition string_to_int_of (chars : list char) : gmap char nat :=
  foldl (fun m p => <[p.2 := p.1]> m) ∅ (imap pair chars).

(** [{i: ch for i, ch in enumerate(chars)}]. *)
Definition int_to_string_of (chars : list char) : gmap nat char :=
  foldl (fun m p => <[p.1 := p.2]> m) ∅ (imap pair chars).

(** [d[k]], which raises [KeyError] for a missing key. *)
Definition getitem `{Countable K} {V} (d : gmap K V) (k : K) : result V :=
  match d !! k with
  | Some v => Ok v
  | None => Raise (KeyError "key not in dict")
  end.

Section Vocabulary.
(** The contents of [training_data/vocab.txt]. *)
Variable text : pystr.

Definition chars : list char := chars_of text.
Definition vocab_size : nat := length chars.
Definition string_to_int : gmap char nat := string_to_int_of chars.
Definition int_to_string : gmap nat char := int_to_string_of chars.

Definition encode (s : pystr) : result (list nat) :=
  rmap (getitem string_to_int) s.
Definition decode (l : list nat) : result pystr :=
  rmap (getitem int_to_string) l.
End Vocabulary.

(** *** The world outside the script and the state of a run *)

(** One point of the search grid: [(lr, bs, dr, embd, layer, head)]. *)
Record config : Type := Config {
  cfg_lr : Q;
  cfg_bs : Z;
  cfg_dr : Q;
  cfg_embd : Z;
  cfg_layer : Z;
  cfg_head : Z
}.

Record world : Type := World {
  (** contents of [training_data/vocab.txt] *)
  vocab_text : pystr;
  (** contents of [training_data/train_split.txt] and [val_split.txt] *)
  train_file : list byte;
  val_file : list byte;
  (** [bytes.decode('utf-8', errors='ignore')] *)
  utf8_ignore : list byte -> pystr;
  (** the raw draws of the random generators, in the order they are made *)
  raw : nat -> nat;
  (** the loss of the [k]-th call of the model, or what that call raises *)
  forward : nat -> batch -> result float;
  (** what the [k]-th call of [torch.cuda.memory_allocated()] returns *)
  memory_allocated : nat -> Z
}.

Record state : Type := State {
  (** the module-level [batch_size], reassigned by the search *)
  batch_size : Z;
  (** raw draws, model calls and memory queries made so far *)
  draws : nat;
  calls : nat;
  queries : nat;
  (** [model.training] of the current model *)
  training : bool;
  (** the locals of [hyperparameter_search]; [val_loss] is unbound at first *)
  best_val_loss : float;
  best_hyperparams : option config;
  val_loss : option float;
  (** everything done so far, newest first *)
  trace : list (event config)
}.

Definition initial : state :=
  {| batch_size := 64; draws := 0; calls := 0; queries := 0; training := true;
     best_val_loss := PosInf; best_hyperparams := None; val_loss := None;
     trace := [] |}.

Definition set_batch_size (b : Z) (s : state) : state :=
  State b (draws s) (calls s) (queries s) (training s)
        (best_val_loss s) (best_hyperparams s) (val_loss s) (trace s).
Definition set_draws (n : nat) (s : state) : state :=
  State (batch_size s) n (calls s) (queries s) (training s)
        (best_val_loss s) (best_hyperparams s) (val_loss s) (trace s).
Definition set_calls (n : nat) (s : state) : state :=
  State (batch_size s) (draws s) n (queries s) (training s)
        (best_val_loss s) (best_hyperparams s) (val_loss s) (trace s).
Definition set_queries (n : nat) (s : state) : state :=
  State (batch_size s) (draws s) (calls s) n (training s)
        (best_val_loss s) (best_hyperparams s) (val_loss s) (trace s).
Definition set_training (b : bool) (s : state) : state :=
  State (batch_size s) (draws s) (calls s) (queries s) b
        (best_val_loss s) (best_hyperparams s) (val_loss s) (trace s).
Definition set_best (v : float) (c : config) (s : state) : state :=
  State (batch_size s) (draws s) (calls s) (queries s) (training s)
        v (Some c) (val_loss s) (trace s).
Definition set_val_loss (v : float) (s : state) : state :=
  State (batch_size s) (draws s) (calls s) (queries s) (training s)
        (best_val_loss s) (best_hyperparams s) (Some v) (trace s).
(** Lines 196-197, on entry to [hyperparameter_search]. *)
Definition enter (s : state) : state :=
  State (batch_size s) (draws s) (calls s) (queries s) (training s)
        PosInf None None (trace s).
Definition log (e : event config) (s : state) : state :=
  State (batch_size s) (draws s) (calls s) (queries s) (training s)
        (best_val_loss s) (best_hyperparams s) (val_loss s) (e :: trace s).

Local Open Scope py_scope.

Section Run.
Variable w : world.

(** The next [n] raw draws. *)
Definition next_draws (n : nat) : M state (list nat) :=
  fun s => (Ok (map (raw w) (seq (draws s) n)), set_draws (draws s + n) s).

(** *** The corpus sampler (lines 39-58) *)

Definition file_of (sp : split) : list byte :=
  match sp with train => train_file w | val => val_file w end.

Definition get_random_chunk (sp : split) : M state (list nat) :=
  let file := file_of sp in
  (* mmap.mmap(f.fileno(), 0, ...) refuses an empty file *)
  if decide (file = []) then raise (ValueError "cannot mmap an empty file")
  else
    let file_size := Z.of_nat (length file) in
    bs <- gets batch_size ;;
    rs <- next_draws 1 ;;
    start_pos <- lift (random_randint 0 (file_size - block_size * bs)
                                      (hd 0%nat rs)) ;;
    modify (log (Seek sp start_pos)) ;;
    if (start_pos <? 0) || (file_size <? start_pos)
    then raise (ValueError "seek out of range")
    else
      let block := mm_read file start_pos (block_size * bs - 1) in
      let decoded_block := strip_cr (utf8_ignore w block) in
      lift (encode (vocab_text w) decoded_block).

(** Lines 54-58: the batch built from the sampled chunk [data]. *)
Definition batch_of_chunk (data : list nat) : M state batch :=
  bs <- gets batch_size ;;
  let high := Z.of_nat (length data) - block_size in
  rs <- next_draws (Z.to_nat bs) ;;
  ix <- lift (torch_randint 0 high bs rs) ;;
  x <- lift (torch_stack (map (fun i => slice data i (i + block_size)) ix)) ;;
  y <- lift (torch_stack
               (map (fun i => slice data (i + 1) (i + block_size + 1)) ix)) ;;
  ret (x, y).

Definition get_batch (sp : split) : M state batch :=
  data <- get_random_chunk sp ;;
  batch_of_chunk data.

(** *** The loss estimator (lines 172-184) *)

(** [model(X, Y)] followed by [loss.item()]. *)
Definition call_model (b : batch) : M state float :=
  fun s => (forward w (calls s) b, set_calls (S (calls s)) s).

(** The inner loop of [estimate_loss] and the mean it leaves in
    [out[split]]. *)
Definition estimate_split (sp : split) : M state float :=
  losses <- collect (Z.to_nat eval_iters)
              (b <- get_batch sp ;; call_model b) ;;
  ret (fmean losses).

(** The result is the dict [out], as the pair [(out['train'], out['val'])]. *)
Definition estimate_loss : M state (float * float) :=
  modify (set_training false) ;;
  modify (log ModelEval) ;;
  out_train <- estimate_split train ;;
  out_val <- estimate_split val ;;
  modify (set_training true) ;;
  modify (log ModelTrain) ;;
  ret (out_train, out_val).

(** *** The search loop (lines 187-245) *)

Definition learning_rates : list Q :=
  [1 # 100000; 1 # 10000; 3 # 10000; 1 # 1000; 5 # 1000]%Q.
Definition batch_sizes : list Z := [16; 32; 64; 128; 256].
Definition dropouts : list Q := [1 # 10; 15 # 100; 25 # 100; 4 # 10; 5 # 10]%Q.
Definition n_embds : list Z := [128; 192; 256; 320; 384; 448; 512].
Definition n_layers : list Z := [6; 8; 10].
Definition n_heads : list Z := [4; 8; 12].

(** [itertools.product(...)]: the last list varies fastest. *)
Definition grid : list config :=
  lr ← learning_rates; bs ← batch_sizes; dr ← dropouts;
  embd ← n_embds; layer ← n_layers; head ← n_heads;
  [Config lr bs dr embd layer head].

(** Lines 221-229: the evaluation every [eval_interval] iterations. *)
Definition evaluation (c : config) (iter : Z) : M state unit :=
  losses <- estimate_loss ;;
  let v := losses.2 in
  modify (set_val_loss v) ;;
  modify (log (PrintEval 0 iter losses.1 v)) ;;
  best <- gets best_val_loss ;;
  if flt v best then
    modify (set_best v c) ;;
    modify (log (SaveBest c iter))
  else ret tt.

(** Lines 231-241: one optimization step. *)
Definition optimization_step : M state unit :=
  b <- get_batch train ;;
  _ <- call_model b ;;
  modify (log ZeroGrad) ;;
  modify (log Backward) ;;
  modify (log (ClipGradNorm 1)) ;;
  modify (log ScalerStep) ;;
  modify (log ScalerUpdate) ;;
  modify (log (SchedulerStep None)).

Definition iteration (c : config) (iter : Z) : M state ctl :=
  (if decide (iter `mod` eval_interval = 0) then evaluation c iter
   else ret tt) ;;
  optimization_step ;;
  ret Continue.

(** The threshold of the memory guard, [9.5e9]. *)
Definition vram_limit : Z := 9500000000.

Definition trial (c : config) : M state ctl :=
  modify (log (PrintTrial c)) ;;
  modify (set_batch_size (cfg_bs c)) ;;
  vram_usage <- (fun s => (Ok (memory_allocated w (queries s)),
                           set_queries (S (queries s)) s)) ;;
  if vram_limit <? vram_usage then
    modify (log PrintSkipping) ;;
    ret Continue
  else
    (* a new model is in training mode *)
    modify (set_training true) ;;
    for_each (range max_iters) (iteration c) ;;
    v <- gets val_loss ;;
    match v with
    | None => raise (UnboundLocalError "val_loss")
    | Some v => modify (log (PrintFinished c v)) ;; ret Continue
    end.

Definition search (cs : list config) : M state unit :=
  modify enter ;;
  for_each cs trial ;;
  best <- gets best_hyperparams ;;
  match best with
  | None => raise (TypeError "'NoneType' object is not subscriptable")
  | Some c =>
      v <- gets best_val_loss ;;
      modify (log (PrintBest c v))
  end.

Definition hyperparameter_search : M state unit := search grid.

End Run.

End AutoTune.

(** ** GPT_Trainer-subword.py *)

Module Subword.

Definition block_size : Z := 128.
Definition batch_size : Z := 32.
Definition max_iters : Z := 20100.
Definition eval_interval : Z := 500.
Definition eval_iters : Z := 576.

Definition learning_rates : list Q := [35 # 100000; 1 # 10000; 5 # 10000]%Q.

(** The keys of [optimizer_dict], in the order of the dict. *)
Inductive optimizer_name : Type := AdamW | LAMB.
Definition optimizer_dict : list optimizer_name := [AdamW; LAMB].

(** [(optimizer_name, lr)] *)
Definition config : Type := (optimizer_name * Q)%type.

(** The [patience] handed to [ReduceLROnPlateau] and read back as
    [scheduler.patience]: [5 * eval_interval // eval_iters]. *)
Definition patience : Z := (5 * eval_interval) `div` eval_iters.

Record world : Type := World {
  (** contents of [training_data/train_split.txt] and [val_split.txt] *)
  train_file : list byte;
  val_file : list byte;
  (** [bytes.decode('utf-8', errors='ignore')] *)
  utf8_ignore : list byte -> pystr;
  (** [tokenizer.encode(text, return_tensors='pt').squeeze(0)] *)
  tokenize : pystr -> list nat;
  (** the raw draws of the random generators, in the order they are made *)
  raw : nat -> nat;
  (** the loss of the [k]-th call of the model, or what that call raises *)
  forward : nat -> batch -> result float;
  (** how many times [get_random_chunk] can call itself before the
      interpreter's stack is full *)
  recursion_limit : nat
}.

Record state : Type := State {
  (** raw draws and model calls made so far *)
  draws : nat;
  calls : nat;
  (** [model.training] of the current model *)
  training : bool;
  (** the locals of [train_model]; [val_loss] is unbound at first *)
  best_val_loss : float;
  best_config : option config;
  plateau_count : Z;
  total_loss : float;
  val_loss : option float;
  (** everything done so far, newest first *)
  trace : list (event config)
}.

Definition initial : state :=
  {| draws := 0; calls := 0; training := true;
     best_val_loss := PosInf; best_config := None; plateau_count := 0;
     total_loss := Fin 0; val_loss := None; trace := [] |}.

Definition set_draws (n : nat) (s : state) : state :=
  State n (calls s) (training s) (best_val_loss s) (best_config s)
        (plateau_count s) (total_loss s) (val_loss s) (trace s).
Definition set_calls (n : nat) (s : state) : state :=
  State (draws s) n (training s) (best_val_loss s) (best_config s)
        (plateau_count s) (total_loss s) (val_loss s) (trace s).
Definition set_training (b : bool) (s : state) : state :=
  State (draws s) (calls s) b (best_val_loss s) (best_config s)
        (plateau_count s) (total_loss s) (val_loss s) (trace s).
Definition set_best (v : float) (c : config) (s : state) : state :=
  State (draws s) (calls s) (training s) v (Some c)
        (plateau_count s) (total_loss s) (val_loss s) (trace s).
Definition set_plateau_count (n : Z) (s : state) : state :=
  State (draws s) (calls s) (training s) (best_val_loss s) (best_config s)
        n (total_loss s) (val_loss s) (trace s).
Definition set_total_loss (v : float) (s : state) : state :=
  State (draws s) (calls s) (training s) (best_val_loss s) (best_config s)
        (plateau_count s) v (val_loss s) (trace s).
Definition set_val_loss (v : float) (s : state) : state :=
  State (draws s) (calls s) (training s) (best_val_loss s) (best_config s)
        (plateau_count s) (total_loss s) (Some v) (trace s).
(** Lines 209-210, on entry to [train_model]. *)
Definition enter (s : state) : state :=
  State (draws s) (calls s) (training s) PosInf None
        (plateau_count s) (total_loss s) None (trace s).
Definition log (e : event config) (s : state) : state :=
  State (draws s) (calls s) (training s) (best_val_loss s) (best_config s)
        (plateau_count s) (total_loss s) (val_loss s) (e :: trace s).

Local Open Scope py_scope.

Section Run.
Variable w : world.

(** The next [n] raw draws. *)
Definition next_draws (n : nat) : M state (list nat) :=
  fun s => (Ok (map (raw w) (seq (draws s) n)), set_draws (draws s + n) s).

(** *** The corpus sampler (lines 48-78) *)

Definition file_of (sp : split) : list byte :=
  match sp with train => train_file w | val => val_file w end.

(** [get_random_chunk] calls itself until the encoded block is long
    enough; [depth] is the number of its frames the stack still holds. *)
Fixpoint get_random_chunk_rec (depth : nat) (sp : split) : M state (list nat) :=
  match depth with
  | O => raise (RecursionError "maximum recursion depth exceeded")
  | S depth' =>
      let file := file_of sp in
      (* mmap.mmap(f.fileno(), 0, ...) refuses an empty file *)
      if decide (file = []) then raise (ValueError "cannot mmap an empty file")
      else
        let file_size := Z.of_nat (length file) in
        rs <- next_draws 1 ;;
        start_pos <- lift (random_randint 0 (file_size - block_size * batch_size)
                                          (hd 0%nat rs)) ;;
        modify (log (Seek sp start_pos)) ;;
        if (start_pos <? 0) || (file_size <? start_pos)
        then raise (ValueError "seek out of range")
        else
          let block := mm_read file start_pos (block_size * batch_size - 1) in
          let decoded_block := strip_cr (utf8_ignore w block) in
          let encoded_block := tokenize w (take 1024 decoded_block) in
          if block_size <? Z.of_nat (length encoded_block) then ret encoded_block
          else
            modify (log PrintRetry) ;;
            get_random_chunk_rec depth' sp
  end.

Definition get_random_chunk (sp : split) : M state (list nat) :=
  get_random_chunk_rec (S (recursion_limit w)) sp.

(** Lines 71-78: the batch built from the sampled chunk [data]. *)
Definition batch_of_chunk (data : list nat) : M state batch :=
  if Z.of_nat (length data) <=? block_size then
    raise (ValueError
      "Data length is less than or equal to block_size, cannot generate batch.")
  else
    let high := Z.of_nat (length data) - block_size in
    rs <- next_draws (Z.to_nat batch_size) ;;
    ix <- lift (torch_randint 0 high batch_size rs) ;;
    x <- lift (torch_stack (map (fun i => slice data i (i + block_size)) ix)) ;;
    y <- lift (torch_stack
                 (map (fun i => slice data (i + 1) (i + block_size + 1)) ix)) ;;
    ret (x, y).

Definition get_batch (sp : split) : M state batch :=
  data <- get_random_chunk sp ;;
  batch_of_chunk data.

(** *** The loss estimator (lines 280-290) *)

(** [model(inputs, targets)] followed by [loss.item()]. *)
Definition call_model (b : batch) : M state float :=
  fun s => (forward w (calls s) b, set_calls (S (calls s)) s).

Definition evaluate_model : M state float :=
  modify (set_training false) ;;
  modify (log ModelEval) ;;
  losses <- collect (Z.to_nat eval_iters)
              (b <- get_batch val ;; call_model b) ;;
  let total := foldl fadd (Fin 0) losses in
  ret (fdiv_pos total eval_iters).

(** *** The training loop (lines 207-277) *)

(** Lines 243-262: the evaluation every [eval_interval] iterations, and
    whether it breaks out of the loop over the iterations. *)
Definition evaluation (c : config) (epoch iteration : Z) : M state ctl :=
  v <- evaluate_model ;;
  modify (set_val_loss v) ;;
  total <- gets total_loss ;;
  modify (log (PrintEval epoch iteration (fdiv_pos total eval_interval) v)) ;;
  modify (set_total_loss (Fin 0)) ;;
  best <- gets best_val_loss ;;
  if flt v best then
    modify (set_best v c) ;;
    modify (log (PrintNewBest c v)) ;;
    modify (set_plateau_count 0) ;;
    ret Continue
  else
    n <- gets plateau_count ;;
    modify (set_plateau_count (n + 1)) ;;
    if patience <=? n + 1 then
      modify (log PrintPlateaued) ;;
      ret Break
    else ret Continue.

(** Lines 230-239: one optimization step. *)
Definition optimization_step : M state unit :=
  modify (log ZeroGrad) ;;
  b <- get_batch train ;;
  loss <- call_model b ;;
  modify (log Backward) ;;
  modify (log ScalerStep) ;;
  modify (log ScalerUpdate) ;;
  total <- gets total_loss ;;
  modify (set_total_loss (fadd total loss)).

Definition iteration (c : config) (epoch iteration : Z) : M state ctl :=
  optimization_step ;;
  if decide (iteration `mod` eval_interval = 0) then evaluation c epoch iteration
  else ret Continue.

(** Lines 226-274: one epoch, and whether it breaks out of the loop over
    the epochs. *)
Definition run_epoch (c : config) (epoch : Z) : M state ctl :=
  modify (set_training true) ;;
  modify (log ModelTrain) ;;
  modify (set_total_loss (Fin 0)) ;;
  for_each (range1 max_iters) (iteration c epoch) ;;
  v <- gets val_loss ;;
  match v with
  | None => raise (UnboundLocalError "val_loss")
  | Some v =>
      modify (log (SchedulerStep (Some v))) ;;
      modify (log PrintLR) ;;
      modify (log (SaveCheckpoint epoch v)) ;;
      n <- gets plateau_count ;;
      if patience <=? n then ret Break else ret Continue
  end.

(** Lines 214-274: one optimizer and learning rate. *)
Definition trial (epochs : Z) (c : config) : M state ctl :=
  (* a new model is in training mode *)
  modify (set_training true) ;;
  modify (log (PrintTrial c)) ;;
  modify (set_plateau_count 0) ;;
  for_each (range1 epochs) (run_epoch c) ;;
  ret Continue.

(** The nested loops over [learning_rates] and [optimizer_dict]. *)
Definition configs : list config :=
  lr ← learning_rates; name ← optimizer_dict; [(name, lr)].

Definition train (cs : list config) (epochs : Z) : M state unit :=
  modify enter ;;
  for_each cs (trial epochs) ;;
  best <- gets best_config ;;
  match best with
  | None => raise (TypeError "'NoneType' object is not subscriptable")
  | Some c =>
      v <- gets best_val_loss ;;
      modify (log (PrintBest c v))
  end.

Definition train_model (epochs : Z) : M state unit := train configs epochs.

End Run.

End Subword.

(** * Properties and test worlds

    The predicates the theorems are stated with, and small worlds to run
    the scripts in. *)

Section Triples.
Context {S : Type}.

(** A triple: from a state in [P], the action ends in a result and a
    state in [Q], whether it returns or raises. *)
Definition hoare {A} (P : S -> Prop) (m : M S A)
           (Q : result A -> S -> Prop) : Prop :=
  forall s, P s -> Q (m s).1 (m s).2.

(** An invariant, kept by the action also when it raises. *)
Definition preserves (I : S -> Prop) {A} (m : M S A) : Prop :=
  hoare I m (fun _ => I).

End Triples.

(** The rows of a batch: [x] is a window of [n] tokens of [data] and [y]
    the window one position further. *)
Definition window_pair (data : list nat) (n : nat) (x y : list nat) : Prop :=
  exists start : nat,
    (start + n < length data)%nat /\
    x = take n (drop start data) /\
    y = take n (drop (S start) data) /\
    length x = n /\ length y = n /\
    (forall t, (S t < n)%nat -> y !! t = x !! S t) /\
    y !! (n - 1)%nat = data !! (start + n)%nat /\
    is_Some (data !! (start + n)%nat).


(** A codec for files of ASCII text. *)
Definition ascii_codec (bs : list byte) : pystr :=
  map Byte.to_N bs.

(** A file of [n] bytes, all the letter a. *)
Definition file_of_a (n : Z) : list byte :=
  replicate (Z.to_nat n) "a"%byte.

(** What the sampler may log on a split whose legal offsets are [lo..hi]:
    a retry message or a seek to an offset in that range. *)
Definition seek_within {C} (sp : split) (lo hi : Z) (e : event C) : Prop :=
  e = PrintRetry \/ exists pos, e = Seek sp pos /\ lo <= pos <= hi.

(** A world for Auto_Tune.py: the vocabulary a, b; ASCII files; the raw draw
    [k] at position [k]; a model whose loss is always 1; no memory in use. *)
Definition at_world (train_f val_f : list byte) : AutoTune.world :=
  AutoTune.World (str "ab") train_f val_f ascii_codec (fun k => k)
                 (fun _ _ => Ok (Fin 1)) (fun _ => 0).

(** The same world with a codec that drops every byte as malformed. *)
Definition at_world_garbled (train_f val_f : list byte) : AutoTune.world :=
  AutoTune.World (str "ab") train_f val_f (fun _ => []) (fun k => k)
                 (fun _ _ => Ok (Fin 1)) (fun _ => 0).

(** A world for GPT_Trainer-subword.py: ASCII files, a tokenizer with one
    token per character, a model whose [k]-th loss is [loss k]. *)
Definition sw_world (train_f val_f : list byte) (loss : nat -> result float)
  : Subword.world :=
  Subword.World train_f val_f ascii_codec (map N.to_nat) (fun k => k)
                (fun k _ => loss k) 1000.

Definition is_seek {C} (e : event C) : Prop :=
  exists sp pos, e = Seek sp pos.

(** The events of the loss estimator: seeks between the two mode switches. *)
Definition is_estimator_event {C} (e : event C) : Prop :=
  is_seek e \/ e = ModelEval \/ e = ModelTrain.

(** What a piece of Auto_Tune.py leaves alone: between [s0] and [s] the
    search's variables are unchanged and every logged event is in [P]. *)
Definition at_frame (P : event AutoTune.config -> Prop)
           (s0 s : AutoTune.state) : Prop :=
  AutoTune.batch_size s = AutoTune.batch_size s0 /\
  AutoTune.best_val_loss s = AutoTune.best_val_loss s0 /\
  AutoTune.best_hyperparams s = AutoTune.best_hyperparams s0 /\
  AutoTune.val_loss s = AutoTune.val_loss s0 /\
  exists new, Forall P new /\ AutoTune.trace s = new ++ AutoTune.trace s0.

(** The same for GPT_Trainer-subword.py. *)
Definition sw_frame (P : event Subword.config -> Prop)
           (s0 s : Subword.state) : Prop :=
  Subword.best_val_loss s = Subword.best_val_loss s0 /\
  Subword.best_config s = Subword.best_config s0 /\
  Subword.plateau_count s = Subword.plateau_count s0 /\
  Subword.val_loss s = Subword.val_loss s0 /\
  exists new, Forall P new /\ Subword.trace s = new ++ Subword.trace s0.

(** A model that fails with an out-of-memory error at its third call. *)
Definition at_world_oom (train_f val_f : list byte) : AutoTune.world :=
  AutoTune.World (str "ab") train_f val_f ascii_codec (fun k => k)
    (fun k _ => if (k =? 2)%nat
                then Raise (ExternalError "OutOfMemoryError" "CUDA out of memory")
                else Ok (Fin 1))
    (fun _ => 0).

(** In a trace, newest event first: every optimizer update comes right
    after a clipping of the gradients to norm 1, itself right after the
    backward pass. *)
Definition clip_precedes_step {C} (t : list (event C)) : Prop :=
  forall later earlier,
    t = later ++ ScalerStep :: earlier ->
    exists rest, earlier = ClipGradNorm 1 :: Backward :: rest.

(** [n] is the 2-norm of the vector [g]. *)
Definition sum_squares (g : list Q) : Q :=
  foldr (fun x acc => x * x + acc)%Q 0%Q g.
Definition is_norm (n : Q) (g : list Q) : Prop :=
  (0 <= n)%Q /\ (n * n == sum_squares g)%Q.

(** Since the trace was [t0], Auto_Tune.py has clipped before every update. *)
Definition at_clip_inv (t0 : list (event AutoTune.config))
           (s : AutoTune.state) : Prop :=
  exists new, AutoTune.trace s = new ++ t0 /\ clip_precedes_step new.

(** A world whose memory guard skips every combination. *)
Definition at_world_full_memory : AutoTune.world :=
  AutoTune.World (str "ab") (file_of_a 10000) (file_of_a 10000) ascii_codec
                 (fun k => k) (fun _ _ => Ok (Fin 1)) (fun _ => 10000000000).

(** ** The best-result record, read off a trace (newest event first) *)

Section RecordTraces.
Context {C : Type}.

(** The validation losses printed, newest first. *)
Definition losses (t : list (event C)) : list float :=
  omap (fun e => match e with
                 | PrintEval _ _ _ v => Some v
                 | _ => None
                 end) t.

Definition is_print_eval (e : event C) : Prop :=
  exists ep it tl v, e = PrintEval ep it tl v.

(** The record is overwritten: Auto_Tune.py saves [best_model.pt],
    GPT_Trainer-subword.py announces a new best configuration. *)
Definition is_overwrite (e : event C) : Prop :=
  (exists c i, e = SaveBest c i) \/ (exists c v, e = PrintNewBest c v).

(** The lowest loss so far as the scripts compute it: a loss replaces the
    record when it is below it, starting from [float('inf')]. *)
Fixpoint running_best (l : list float) : float :=
  match l with
  | [] => PosInf
  | v :: older => if flt v (running_best older) then v else running_best older
  end.

(** The newest event is an evaluation whose loss is below the record. *)
Definition improving (t : list (event C)) : Prop :=
  exists ep it tl v earlier,
    t = PrintEval ep it tl v :: earlier /\
    flt v (running_best (losses earlier)) = true.

(** Every event is an overwrite exactly when it follows an improving
    evaluation. *)
Fixpoint record_ok (t : list (event C)) : Prop :=
  match t with
  | [] => True
  | e :: earlier => record_ok earlier /\ (is_overwrite e <-> improving earlier)
  end.

Definition record_inv (new : list (event C)) (best : float) : Prop :=
  best = running_best (losses new) /\ record_ok new /\ ~ improving new.

(** The overwrite [e] is for the configuration [c]. *)
Definition names_config (c : C) (e : event C) : Prop :=
  (exists i, e = SaveBest c i) \/ (exists v, e = PrintNewBest c v).

(** The record [(best, cfg)] is the one of the latest overwrite: nothing
    recorded and no overwrite yet, or the loss printed by the evaluation
    right before the latest overwrite, which is for [cfg]. *)
Definition record_matches (new : list (event C)) (best : float)
           (cfg : option C) : Prop :=
  match cfg with
  | None => best = PosInf /\ Forall (fun e => ~ is_overwrite e) new
  | Some c =>
      exists later e ep it tl earlier,
        new = later ++ e :: PrintEval ep it tl best :: earlier /\
        names_config c e /\
        Forall (fun e => ~ is_overwrite e) later
  end.

(** Events that neither print a validation loss nor overwrite the record. *)
Definition benign (e : event C) : Prop :=
  ~ is_print_eval e /\ ~ is_overwrite e.

End RecordTraces.

(** Since the trace was [t0], the record of Auto_Tune.py is the one read
    off the events logged since. *)
Definition at_record_inv (t0 : list (event AutoTune.config))
           (s : AutoTune.state) : Prop :=
  exists new, AutoTune.trace s = new ++ t0 /\
              record_inv new (AutoTune.best_val_loss s) /\
              record_matches new (AutoTune.best_val_loss s)
                             (AutoTune.best_hyperparams s).

(** The events of one optimization step of Auto_Tune.py. *)
Definition is_at_step_event (e : event AutoTune.config) : Prop :=
  is_seek e \/ e = ZeroGrad \/ e = Backward \/ e = ClipGradNorm 1 \/
  e = ScalerStep \/ e = ScalerUpdate \/ e = SchedulerStep None.

(** The record of Auto_Tune.py is a number or infinity, and not above [b]. *)
Definition at_best_below (b : float) (s : AutoTune.state) : Prop :=
  fle (AutoTune.best_val_loss s) b = true.

(** A world for Auto_Tune.py whose model returns the loss 1 for its first
    [n] calls and then fails. *)
Definition at_world_stops (n : nat) : AutoTune.world :=
  AutoTune.World (str "ab") (file_of_a 3000) (file_of_a 3000) ascii_codec
    (fun k => k)
    (fun k _ => if (k <? n)%nat then Ok (Fin 1)
                else Raise (ExternalError "OutOfMemoryError" "CUDA out of memory"))
    (fun _ => 0).

(** The events of the sampler, the loss estimator and one optimization step
    of GPT_Trainer-subword.py. *)
Definition is_sw_sampler_event (e : event Subword.config) : Prop :=
  is_seek e \/ e = PrintRetry.
Definition is_sw_estimator_event (e : event Subword.config) : Prop :=
  is_sw_sampler_event e \/ e = ModelEval.
Definition is_sw_step_event (e : event Subword.config) : Prop :=
  is_sw_sampler_event e \/ e = ZeroGrad \/ e = Backward \/
  e = ScalerStep \/ e = ScalerUpdate.

(** Since the trace was [t0], the record of GPT_Trainer-subword.py is the
    one read off the events logged since. *)
Definition sw_record_inv (t0 : list (event Subword.config))
           (s : Subword.state) : Prop :=
  exists new, Subword.trace s = new ++ t0 /\
              record_inv new (Subword.best_val_loss s) /\
              record_matches new (Subword.best_val_loss s)
                             (Subword.best_config s).

Definition sw_best_below (b : float) (s : Subword.state) : Prop :=
  fle (Subword.best_val_loss s) b = true.

(** What ends an epoch of GPT_Trainer-subword.py: the scheduler step, the
    learning-rate message and the checkpoint. *)
Definition is_closing_event (e : event Subword.config) : Prop :=
  (exists v, e = SchedulerStep v) \/ e = PrintLR \/
  (exists ep v, e = SaveCheckpoint ep v).

(** A trial that goes on: the counter is below the patience and the
    plateau message was not printed since the trace was [t0]. *)
Definition sw_running (t0 : list (event Subword.config))
           (s : Subword.state) : Prop :=
  0 <= Subword.plateau_count s < Subword.patience /\
  exists new, Subword.trace s = new ++ t0 /\
              Forall (fun e => e <> PrintPlateaued) new.

(** A trial that is given up: the counter is the patience, the plateau
    message was printed once, and only the end of the epoch followed. *)
Definition sw_exhausted (t0 : list (event Subword.config))
           (s : Subword.state) : Prop :=
  Subword.plateau_count s = Subword.patience /\
  exists tail new,
    Subword.trace s = tail ++ PrintPlateaued :: new ++ t0 /\
    Forall (fun e => e <> PrintPlateaued) new /\
    Forall is_closing_event tail.

(** ** Worlds in which the training goes on *)

(** The sampler of GPT_Trainer-subword.py finds a chunk at its first try:
    both files hold a full window and every block that can be read from
    them encodes to more than [block_size] tokens. *)
Definition sw_healthy (w : Subword.world) : Prop :=
  forall sp,
    let file := Subword.file_of w sp in
    let need := Subword.block_size * Subword.batch_size in
    need <= Z.of_nat (length file) /\
    forall pos,
      0 <= pos <= Z.of_nat (length file) - need ->
      Subword.block_size
      < Z.of_nat (length (Subword.tokenize w
                            (take 1024
                               (strip_cr
                                  (Subword.utf8_ignore w
                                     (mm_read file pos (need - 1))))))).

(** Every call of the model returns a loss that is a number not below
    [floor]. *)
Definition sw_losses_above (floor : Q) (w : Subword.world) : Prop :=
  forall k b, exists q, Subword.forward w k b = Ok (Fin q) /\ (floor <= q)%Q.

(** The number of optimizer updates in a trace. *)
Definition updates {C} (t : list (event C)) : nat :=
  length (List.filter (fun e => match e with ScalerStep => true | _ => false end) t).

(** A healthy world whose model always returns the loss 2. *)
Definition sw_world_steady : Subword.world :=
  sw_world (file_of_a 4096) (file_of_a 4096) (fun _ => Ok (Fin 2)).

(** Since the trace was [t0], [model.train()] was not called, and the
    model is in inference mode if [model.eval()] was. *)
Definition sw_mode_inv (t0 : list (event Subword.config))
           (s : Subword.state) : Prop :=
  exists rest,
    Subword.trace s = rest ++ t0 /\
    Forall (fun e => e <> ModelTrain) rest /\
    (ModelEval ∈ rest -> Subword.training s = false).

(** The same inside the loss estimator, where the model is in inference
    mode. *)
Definition sw_inference_inv (t0 : list (event Subword.config))
           (s : Subword.state) : Prop :=
  Subword.training s = false /\
  exists rest, Subword.trace s = rest ++ t0 /\
               Forall (fun e => e <> ModelTrain) rest.

(** Before iteration [x] of an epoch that started with the trace [t0]:
    [val_loss] holds the latest validation loss printed in the epoch, and
    one was printed once [eval_interval] iterations are done. *)
Definition sw_evaluated (t0 : list (event Subword.config)) (x : Z)
           (s : Subword.state) : Prop :=
  exists rest,
    Subword.trace s = rest ++ t0 /\
    (forall v, head (losses rest) = Some v -> Subword.val_loss s = Some v) /\
    (Subword.eval_interval < x -> losses rest <> []).

(** ** Worlds in which the search of Auto_Tune.py goes on *)

(** With the batch size [bs], the sampler of Auto_Tune.py finds a chunk:
    both files hold a full window, and every block that can be read from
    them decodes to more than [block_size] symbols of the vocabulary. *)
Definition at_healthy (w : AutoTune.world) (bs : Z) : Prop :=
  1 <= bs /\
  forall sp,
    let file := AutoTune.file_of w sp in
    let need := AutoTune.block_size * bs in
    need <= Z.of_nat (length file) /\
    forall pos,
      0 <= pos <= Z.of_nat (length file) - need ->
      exists data,
        AutoTune.encode (AutoTune.vocab_text w)
          (strip_cr (AutoTune.utf8_ignore w (mm_read file pos (need - 1))))
        = Ok data /\
        AutoTune.block_size < Z.of_nat (length data).

(** Every call of the model returns a loss. *)
Definition at_model_returns (w : AutoTune.world) : Prop :=
  forall k b, is_ok (AutoTune.forward w k b) = true.

(** The number of optimizer updates since the latest validation loss was
    printed. *)
Fixpoint updates_since_eval {C} (t : list (event C)) : nat :=
  match t with
  | [] => 0
  | PrintEval _ _ _ _ :: _ => 0
  | ScalerStep :: t' => S (updates_since_eval t')
  | _ :: t' => updates_since_eval t'
  end.

(** Before iteration [x] of a trial of Auto_Tune.py that started with the
    trace [t0], [k0] calls of the model and the batch size [bs]: one
    optimizer update per iteration done, one evaluation per
    [eval_interval] iterations begun, [val_loss] the loss printed last. *)
Definition at_on_schedule (t0 : list (event AutoTune.config)) (k0 : nat)
           (bs : Z) (x : Z) (s : AutoTune.state) : Prop :=
  AutoTune.batch_size s = bs /\
  Z.of_nat (AutoTune.calls s)
  = Z.of_nat k0 + x
    + 2 * AutoTune.eval_iters
      * ((x + AutoTune.eval_interval - 1) `div` AutoTune.eval_interval) /\
  exists rest,
    AutoTune.trace s = rest ++ t0 /\
    updates rest = Z.to_nat x /\
    length (losses rest)
    = Z.to_nat ((x + AutoTune.eval_interval - 1) `div` AutoTune.eval_interval) /\
    (forall v, head (losses rest) = Some v -> AutoTune.val_loss s = Some v) /\
    (0 < x ->
     updates_since_eval rest
     = Z.to_nat ((x - 1) `mod` AutoTune.eval_interval + 1)).

(** A world for Auto_Tune.py whose memory guard skips the first
    combination only, and whose model fails at every call. *)
Definition at_world_failing : AutoTune.world :=
  AutoTune.World (str "ab") (file_of_a 3000) (file_of_a 3000) ascii_codec
    (fun k => k)
    (fun _ _ => Raise (ExternalError "OutOfMemoryError" "CUDA out of memory"))
    (fun k => if (k =? 0)%nat then 10000000000 else 0).


(** What an iteration of the training loop of GPT_Trainer-subword.py logs
    when it neither improves on the record nor gives the trial up. *)
Definition is_sw_iteration_event (e : event Subword.config) : Prop :=
  is_sw_step_event e \/ e = ModelEval \/ is_print_eval e.

(** Before iteration [x] of the first epoch of a trial that entered the
    epoch in [s0] with the counter at 0 and has not improved on the record
    since: one optimizer update per iteration done, one evaluation and one
    more on the counter per [eval_interval] iterations done. *)
Definition sw_stalling (s0 : Subword.state) (x : Z) (s : Subword.state) : Prop :=
  Subword.best_val_loss s = Subword.best_val_loss s0 /\
  Subword.best_config s = Subword.best_config s0 /\
  Subword.plateau_count s = (x - 1) `div` Subword.eval_interval /\
  exists new,
    Subword.trace s = new ++ Subword.trace s0 /\
    Forall is_sw_iteration_event new /\
    updates new = Z.to_nat (x - 1) /\
    length (losses new) = Z.to_nat ((x - 1) `div` Subword.eval_interval).

(** ** Reasoning about code with effects *)

Section Effects.
Context {S : Type}.

Lemma bind_Ok_inv {A B} (m : M S A) (k : A -> M S B) s b s' :
  bind m k s = (Ok b, s') ->
  exists a s1, m s = (Ok a, s1) /\ k a s1 = (Ok b, s').
Proof.
  unfold bind. destruct (m s) as [[a|e] s1]; [eauto|discriminate].
Qed.



Lemma lift_Ok_inv {A} (r : result A) (s : S) a s' :
  lift r s = (Ok a, s') -> r = Ok a /\ s' = s.
Proof. unfold lift. by intros [= -> ->]. Qed.

Lemma hoare_bind {A B} (P : S -> Prop) (Q1 : result A -> S -> Prop) Q
      (m : M S A) (k : A -> M S B) :
  hoare P m Q1 ->
  (forall a, hoare (Q1 (Ok a)) (k a) Q) ->
  (forall e s, Q1 (Raise e) s -> Q (Raise e) s) ->
  hoare P (bind m k) Q.
Proof.
  intros Hm Hk He s HP. specialize (Hm s HP). unfold bind.
  destruct (m s) as [[a|e] s1]; simpl in *; [by apply Hk|by apply He].
Qed.

Lemma hoare_weaken {A} (P P' : S -> Prop) (Q Q' : result A -> S -> Prop) m :
  hoare P' m Q' -> (forall s, P s -> P' s) ->
  (forall r s, Q' r s -> Q r s) -> hoare P m Q.
Proof. intros Hm HP HQ s Hs. apply HQ, Hm, HP, Hs. Qed.

Lemma preserves_ret (I : S -> Prop) {A} (a : A) : preserves I (ret a).
Proof. by intros s. Qed.
Lemma preserves_raise (I : S -> Prop) {A} e : preserves I (raise (A := A) e).
Proof. by intros s. Qed.
Lemma preserves_lift (I : S -> Prop) {A} (r : result A) : preserves I (lift r).
Proof. by intros s. Qed.
Lemma preserves_gets (I : S -> Prop) {A} (f : S -> A) : preserves I (gets f).
Proof. by intros s. Qed.
Lemma preserves_modify (I : S -> Prop) f :
  (forall s, I s -> I (f s)) -> preserves I (modify f).
Proof. intros Hf s. apply Hf. Qed.

Lemma preserves_bind (I : S -> Prop) {A B} (m : M S A) (k : A -> M S B) :
  preserves I m -> (forall a, preserves I (k a)) -> preserves I (bind m k).
Proof. intros Hm Hk. eapply hoare_bind; [apply Hm|apply Hk|done]. Qed.

Lemma preserves_for_each (I : S -> Prop) {X} (xs : list X) (body : X -> M S ctl) :
  (forall x, preserves I (body x)) -> preserves I (for_each xs body).
Proof.
  intros Hb. induction xs as [|x xs IH]; intros s Hs; [done|].
  simpl. specialize (Hb x s Hs).
  destruct (body x s) as [[[]|e] s1]; simpl in *; [by apply IH|done|done].
Qed.

Lemma preserves_collect (I : S -> Prop) {A} (n : nat) (m : M S A) :
  preserves I m -> preserves I (collect n m).
Proof.
  intros Hm. induction n as [|n IH]; [by apply preserves_ret|].
  simpl. apply preserves_bind; [done|]. intros a.
  apply preserves_bind; [done|]. intros l. apply preserves_ret.
Qed.

(** An exception raised by the body of a loop leaves the loop. *)
Lemma for_each_app {X} (xs ys : list X) (body : X -> M S ctl) s s1 :
  for_each xs body s = (Ok tt, s1) ->
  (forall x, x ∈ xs -> forall s, (body x s).1 <> Ok Break) ->
  for_each (xs ++ ys) body s = for_each ys body s1.
Proof.
  revert s. induction xs as [|x xs IH]; intros s Hrun Hnb; simpl in *.
  - by injection Hrun as ->.
  - pose proof (Hnb x ltac:(left) s) as Hx.
    destruct (body x s) as [[[]|e] s2]; simpl in *; try done.
    apply IH; [done|]. intros y Hy. apply Hnb. by right.
Qed.

End Effects.

Create HintDb preserve discriminated.
#[global] Hint Resolve preserves_ret preserves_raise preserves_lift
  preserves_gets preserves_for_each preserves_collect : preserve.

(** Splits an action into its parts, down to the primitive ones. *)
Ltac preserve_step :=
  lazymatch goal with
  | |- preserves _ (bind _ _) => apply preserves_bind; [|intros ?]
  | |- preserves _ (for_each _ _) => apply preserves_for_each; intros ?
  | |- preserves _ (collect _ _) => apply preserves_collect
  | |- preserves _ (ret _) => apply preserves_ret
  | |- preserves _ (raise _) => apply preserves_raise
  | |- preserves _ (lift _) => apply preserves_lift
  | |- preserves _ (gets _) => apply preserves_gets
  | |- preserves _ (modify _) => apply preserves_modify; intros ? ?
  | |- preserves _ (if ?b then _ else _) => destruct b
  | |- preserves _ (match ?x with _ => _ end) => destruct x
  | |- preserves _ _ => intros ? ?; simpl
  end.

(** The same, using first what is known about the parts. *)
Ltac preserve :=
  repeat first
    [ match goal with
      | H : context [preserves _ _] |- preserves _ _ => apply H
      end
    | preserve_step ].

Section Collect.
Context {S : Type}.

Lemma collect_S {A} (n : nat) (m : M S A) :
  collect (Datatypes.S n) m
  = bind m (fun a => bind (collect n m) (fun l => ret (a :: l))).
Proof. done. Qed.


End Collect.

Section Loops.
Context {S : Type}.

(** A loop whose body keeps [I] while it continues, ends in [J] when it
    breaks and in [R] when it raises. *)
Lemma hoare_for_each_break (I J R : S -> Prop) {X} (xs : list X)
      (body : X -> M S ctl) :
  (forall x, hoare I (body x)
               (fun r s => match r with
                           | Ok Continue => I s
                           | Ok Break => J s
                           | Raise _ => R s
                           end)) ->
  hoare I (for_each xs body)
        (fun r s => match r with
                    | Ok _ => I s \/ J s
                    | Raise _ => R s
                    end).
Proof.
  intros Hb. induction xs as [|x xs IH]; intros s Hs; [by left|].
  cbn [for_each]. specialize (Hb x s Hs).
  destruct (body x s) as [[[]|e] s1]; simpl in *; [by apply IH|by right|done].
Qed.

End Loops.

Section Progress.
Context {S : Type}.

(** A loop that fills a list, when every round returns. *)
Lemma collect_returns {A} (I : S -> Prop) (P : A -> Prop) (n : nat)
      (m : M S A) (s : S) :
  (forall s, I s -> exists a s', m s = (Ok a, s') /\ P a /\ I s') ->
  I s ->
  exists l s', collect n m s = (Ok l, s') /\ Forall P l /\ length l = n /\ I s'.
Proof.
  intros Hm. revert s. induction n as [|n IH]; intros s Hs.
  - exists [], s. by repeat split.
  - destruct (Hm s Hs) as (a & s1 & Ha & HP & Hs1).
    destruct (IH s1 Hs1) as (l & s2 & Hl & HPl & Hlen & Hs2).
    exists (a :: l), s2. rewrite collect_S. unfold bind, ret. rewrite Ha, Hl.
    repeat split; [by constructor|by rewrite <- Hlen|done].
Qed.

(** The iterations [m .. m + n - 1] of a loop over a range, when each of
    them continues: [I x] is what holds before iteration [x]. *)
Lemma for_each_seqZ_continue (I : Z -> S -> Prop) (n : nat) (m : Z)
      (ys : list Z) (body : Z -> M S ctl) (s : S) :
  I m s ->
  (forall x s, m <= x < m + Z.of_nat n -> I x s ->
               exists s', body x s = (Ok Continue, s') /\ I (x + 1) s') ->
  exists s1, I (m + Z.of_nat n) s1 /\
             for_each (seqZ m (Z.of_nat n) ++ ys) body s = for_each ys body s1.
Proof.
  revert m s. induction n as [|n IH]; intros m s Hs Hbody.
  - exists s. rewrite Z.add_0_r. by split.
  - destruct (Hbody m s ltac:(lia) Hs) as (s' & Hrun & Hs').
    destruct (IH (m + 1) s' Hs') as (s1 & Hs1 & Heq).
    { intros x sx Hx. apply Hbody. lia. }
    exists s1. split.
    + by replace (m + Z.of_nat (Datatypes.S n)) with (m + 1 + Z.of_nat n) by lia.
    + rewrite seqZ_cons by lia. cbn [app for_each]. rewrite Hrun.
      replace (Z.pred (Z.of_nat (Datatypes.S n))) with (Z.of_nat n) by lia.
      by replace (Z.succ m) with (m + 1) by lia.
Qed.

End Progress.
(** * Verification *)

(** ** The vocabulary *)

Section VocabularyFacts.
Import AutoTune.

Lemma int_to_string_of_snoc (l : list char) (x : char) :
  int_to_string_of (l ++ [x]) = <[length l := x]> (int_to_string_of l).
Proof.
  unfold int_to_string_of. rewrite imap_app, foldl_app. simpl.
  by rewrite Nat.add_0_r.
Qed.

Lemma string_to_int_of_snoc (l : list char) (x : char) :
  string_to_int_of (l ++ [x]) = <[x := length l]> (string_to_int_of l).
Proof.
  unfold string_to_int_of. rewrite imap_app, foldl_app. simpl.
  by rewrite Nat.add_0_r.
Qed.

(** [int_to_string] is the list [chars] read as a dict. *)
Lemma int_to_string_of_lookup (l : list char) (i : nat) :
  int_to_string_of l !! i = l !! i.
Proof.
  induction l as [|x l IH] using rev_ind.
  { done. }
  rewrite int_to_string_of_snoc.
  destruct (decide (i = length l)) as [->|Hne].
  - rewrite lookup_insert_eq. by rewrite list_lookup_middle.
  - rewrite lookup_insert_ne by done. rewrite IH.
    destruct (decide (i < length l)%nat).
    + by rewrite lookup_app_l.
    + rewrite !lookup_ge_None_2; [done| |lia].
      rewrite length_app. simpl. lia.
Qed.

(** Without repeated symbols, [string_to_int] is the inverse of it. *)
Lemma string_to_int_of_lookup (l : list char) (c : char) (i : nat) :
  NoDup l -> string_to_int_of l !! c = Some i <-> l !! i = Some c.
Proof.
  induction l as [|x l IH] using rev_ind; intros Hnd.
  - unfold string_to_int_of. simpl. by rewrite lookup_empty, lookup_nil.
  - apply NoDup_app in Hnd as (Hl & Hx & _).
    rewrite string_to_int_of_snoc, lookup_snoc_Some.
    destruct (decide (c = x)) as [->|Hne].
    + rewrite lookup_insert_eq. split.
      * intros [= <-]. by right.
      * intros [[Hlt Hi]|[-> _]]; [|done].
        exfalso. apply (Hx x); [by eapply list_elem_of_lookup_2|by left].
    + rewrite lookup_insert_ne by done. rewrite IH by done. split.
      * intros Hi. left. split; [by eapply lookup_lt_Some|done].
      * intros [[_ Hi]|[_ ?]]; [done|congruence].
Qed.

Lemma NoDup_chars (text : pystr) : NoDup (chars text).
Proof.
  unfold chars, chars_of. rewrite merge_sort_Permutation.
  apply NoDup_remove_dups.
Qed.

Lemma elem_of_chars (text : pystr) (c : char) : c ∈ chars text <-> c ∈ text.
Proof.
  unfold chars, chars_of. rewrite merge_sort_Permutation.
  apply elem_of_remove_dups.
Qed.

Lemma getitem_string_to_int (text : pystr) (c : char) (i : nat) :
  chars text !! i = Some c -> getitem (string_to_int text) c = Ok i.
Proof.
  intros Hi. unfold getitem, string_to_int.
  by rewrite (proj2 (string_to_int_of_lookup _ c i (NoDup_chars text)) Hi).
Qed.

Lemma getitem_int_to_string (text : pystr) (c : char) (i : nat) :
  chars text !! i = Some c -> getitem (int_to_string text) i = Ok c.
Proof.
  intros Hi. unfold getitem, int_to_string.
  by rewrite int_to_string_of_lookup, Hi.
Qed.

Lemma encode_decode (text s : pystr) :
  (forall c, c ∈ s -> c ∈ text) ->
  exists l, encode text s = Ok l /\ decode text l = Ok s.
Proof.
  induction s as [|c s IH]; intros Hs.
  - by exists [].
  - destruct IH as (l & He & Hd); [intros; apply Hs; by right|].
    assert (c ∈ chars text) as Hc by (apply elem_of_chars, Hs; by left).
    apply list_elem_of_lookup in Hc as [i Hi].
    exists (i :: l). unfold encode, decode in *. simpl.
    rewrite (getitem_string_to_int _ _ _ Hi), (getitem_int_to_string _ _ _ Hi).
    simpl. by rewrite He, Hd.
Qed.

(** A vocabulary file whose symbols are a, b and c gives [chars = [a; b; c]]. *)
Lemma chars_abc (text : pystr) :
  (forall c, c ∈ text <-> c ∈ str "abc") -> chars text = str "abc".
Proof.
  intros Hset. unfold chars, chars_of.
  apply (Sorted_unique N.le).
  - apply Sorted_merge_sort, _.
  - repeat constructor; vm_compute; discriminate.
  - rewrite merge_sort_Permutation. apply NoDup_Permutation.
    + apply NoDup_remove_dups.
    + by apply (bool_decide_unpack _).
    + intros c. rewrite elem_of_remove_dups. apply Hset.
Qed.

End VocabularyFacts.

Section VocabularyTheorem.
Import AutoTune.

Example encode_abc : encode (str "abc") (str "abc") = Ok [0; 1; 2]%nat.
Proof. vm_compute. reflexivity. Qed.

Example decode_abc : decode (str "abc") [0; 1; 2]%nat = Ok (str "abc").
Proof. vm_compute. reflexivity. Qed.

Example encode_unknown_symbol :
  encode (str "abc") (str "abd") = Raise (KeyError "key not in dict").
Proof. vm_compute. reflexivity. Qed.

(** C9.  For every vocabulary file [text] and every string [s] made of
    symbols of the vocabulary, [encode] returns a list of ids that
    [decode] maps back to [s].  For a vocabulary file whose set of symbols
    is a, b, c (so that [chars], sorted, is a, b, c), [encode("abc")] is
    [0, 1, 2] and [decode([0, 1, 2])] is "abc". *)
Theorem encode_decode_round_trip :
  (forall text s : pystr,
      (forall c, c ∈ s -> c ∈ text) ->
      exists l, encode text s = Ok l /\ decode text l = Ok s) /\
  (forall text : pystr,
      (forall c, c ∈ text <-> c ∈ str "abc") ->
      encode text (str "abc") = Ok [0; 1; 2]%nat /\
      decode text [0; 1; 2]%nat = Ok (str "abc")).
Proof.
  split; [apply encode_decode|].
  intros text Hset. unfold encode, decode, string_to_int, int_to_string.
  rewrite (chars_abc text Hset). split; vm_compute; reflexivity.
Qed.

Lemma encode_decode_round_trip_witness :
  (exists l, encode (str "hello world") (str "low") = Ok l /\
             decode (str "hello world") l = Ok (str "low")) /\
  (encode (str "cabbac") (str "abc") = Ok [0; 1; 2]%nat /\
   decode (str "cabbac") [0; 1; 2]%nat = Ok (str "abc")).
Proof.
  split.
  - apply (proj1 encode_decode_round_trip).
    apply Forall_forall. by apply (bool_decide_unpack _).
  - apply (proj2 encode_decode_round_trip).
    intros c. change (str "cabbac") with [99; 97; 98; 98; 97; 99]%N.
    change (str "abc") with [97; 98; 99]%N.
    rewrite !elem_of_cons, !elem_of_nil. tauto.
Defined.

End VocabularyTheorem.

(** ** The corpus sampler *)

Lemma slice_in_range {A} (data : list A) (lo hi : Z) :
  0 <= lo <= hi -> hi <= Z.of_nat (length data) ->
  slice data lo hi = take (Z.to_nat (hi - lo)) (drop (Z.to_nat lo) data).
Proof.
  intros Hlo Hhi. unfold slice, clip_index.
  rewrite !(proj2 (Z.ltb_ge _ 0)) by lia.
  rewrite !Z.min_l by lia. f_equal. lia.
Qed.

Lemma window_pair_slices (data : list nat) (n : Z) (i : Z) :
  0 < n -> 0 <= i < Z.of_nat (length data) - n ->
  window_pair data (Z.to_nat n)
              (slice data i (i + n)) (slice data (i + 1) (i + n + 1)).
Proof.
  intros Hn Hi. exists (Z.to_nat i).
  rewrite !slice_in_range by lia.
  replace (Z.to_nat (i + n - i)) with (Z.to_nat n) by lia.
  replace (Z.to_nat (i + n + 1 - (i + 1))) with (Z.to_nat n) by lia.
  replace (Z.to_nat (i + 1)) with (S (Z.to_nat i)) by lia.
  repeat split.
  - lia.
  - rewrite length_take, length_drop. lia.
  - rewrite length_take, length_drop. lia.
  - intros t Ht. rewrite !lookup_take_lt, !lookup_drop by lia.
    f_equal. lia.
  - rewrite lookup_take_lt, lookup_drop by lia. f_equal. lia.
  - apply lookup_lt_is_Some. lia.
Qed.

Lemma torch_randint_range (low high n : Z) (rs : list nat) (ix : list Z) :
  torch_randint low high n rs = Ok ix ->
  0 <= n /\ low < high /\ length ix = Nat.min (Z.to_nat n) (length rs) /\
  Forall (fun i => low <= i < high) ix.
Proof.
  unfold torch_randint. destruct (Z.ltb_spec n 0); [done|].
  destruct (Z.leb_spec high low); [done|]. intros [= <-].
  repeat split; [done|done|by rewrite length_map, length_take|].
  apply Forall_map, Forall_forall. intros r _. simpl.
  pose proof (Z.mod_pos_bound (Z.of_nat r) (high - low)). lia.
Qed.

Lemma torch_stack_Ok {A} (rows rows' : list (list A)) :
  torch_stack rows = Ok rows' -> rows' = rows.
Proof.
  unfold torch_stack. destruct rows as [|r rest]; [done|].
  destruct (forallb _ _); [|done]. by intros [= <-].
Qed.

(** What both scripts do with the indices [ix] they have drawn. *)
Lemma stacked_windows (data : list nat) (n : Z) (ix : list Z) (x y : list (list nat)) :
  0 < n ->
  Forall (fun i => 0 <= i < Z.of_nat (length data) - n) ix ->
  torch_stack (map (fun i => slice data i (i + n)) ix) = Ok x ->
  torch_stack (map (fun i => slice data (i + 1) (i + n + 1)) ix) = Ok y ->
  length x = length ix /\ length y = length ix /\
  forall i xi yi, x !! i = Some xi -> y !! i = Some yi ->
                  window_pair data (Z.to_nat n) xi yi.
Proof.
  intros Hn Hix Hx%torch_stack_Ok Hy%torch_stack_Ok. subst x y.
  rewrite !length_map. repeat split.
  intros i xi yi Hxi Hyi.
  rewrite list_lookup_fmap in Hxi, Hyi.
  destruct (ix !! i) as [k|] eqn:Hk; [|done].
  simpl in *. injection Hxi as <-. injection Hyi as <-.
  apply window_pair_slices; [done|].
  by eapply (Forall_lookup_1 _ _ _ _ Hix).
Qed.

Lemma random_randint_range (a b : Z) (r : nat) (x : Z) :
  random_randint a b r = Ok x -> a <= x <= b.
Proof.
  unfold random_randint. destruct (Z.ltb_spec b a); [done|]. intros [= <-].
  pose proof (Z.mod_pos_bound (Z.of_nat r) (b - a + 1)). lia.
Qed.

Lemma random_randint_empty (a b : Z) (r : nat) :
  b < a -> random_randint a b r = Raise (ValueError "empty range for randrange()").
Proof.
  intros Hlt. unfold random_randint. by rewrite (proj2 (Z.ltb_lt b a)).
Qed.

Section AutoTuneSampler.
Import AutoTune.
Variable w : world.

Lemma get_random_chunk_batch_size (sp : split) (b : Z) :
  preserves (fun s => batch_size s = b) (get_random_chunk w sp).
Proof.
  unfold get_random_chunk. repeat preserve_step; try done.
Qed.

Lemma batch_of_chunk_rows (data : list nat) s x y s' :
  batch_of_chunk w data s = (Ok (x, y), s') ->
  length x = Z.to_nat (batch_size s) /\ length y = length x /\
  forall i xi yi, x !! i = Some xi -> y !! i = Some yi ->
                  window_pair data (Z.to_nat block_size) xi yi.
Proof.
  unfold batch_of_chunk. intros Hrun.
  apply bind_Ok_inv in Hrun as (bs & s1 & [= <- <-] & Hrun).
  apply bind_Ok_inv in Hrun as (rs & s1 & [= <- <-] & Hrun).
  apply bind_Ok_inv in Hrun as (ix & s2 & [Hix Hs]%lift_Ok_inv & Hrun).
  apply bind_Ok_inv in Hrun as (x' & s3 & [Hx Hs']%lift_Ok_inv & Hrun).
  apply bind_Ok_inv in Hrun as (y' & s4 & [Hy Hs'']%lift_Ok_inv & Hrun).
  unfold ret in Hrun. injection Hrun as -> -> _.
  apply torch_randint_range in Hix as (Hbs & _ & Hlen & Hix).
  rewrite length_map, length_seq, Nat.min_id in Hlen.
  destruct (stacked_windows data block_size ix x y) as (Hlx & Hly & Hrows);
    [done|done|done|done|].
  rewrite Hlx, Hly. done.
Qed.

Lemma get_batch_rows (sp : split) s x y s' :
  get_batch w sp s = (Ok (x, y), s') ->
  exists data s1,
    get_random_chunk w sp s = (Ok data, s1) /\
    length x = Z.to_nat (batch_size s) /\ length y = length x /\
    forall i xi yi, x !! i = Some xi -> y !! i = Some yi ->
                    window_pair data (Z.to_nat block_size) xi yi.
Proof.
  unfold get_batch. intros (data & s1 & Hchunk & Hrows)%bind_Ok_inv.
  exists data, s1. split; [done|].
  apply batch_of_chunk_rows in Hrows.
  pose proof (get_random_chunk_batch_size sp (batch_size s) s eq_refl) as Hbs.
  rewrite Hchunk in Hbs. simpl in Hbs. by rewrite <- Hbs.
Qed.


Lemma get_random_chunk_offsets (sp : split) (s : state) :
  let file_size := Z.of_nat (length (file_of w sp)) in
  let need := block_size * batch_size s in
  (need <= file_size ->
   exists new, trace (get_random_chunk w sp s).2 = new ++ trace s /\
               Forall (seek_within sp 0 (file_size - need)) new) /\
  (file_size < need ->
   exists msg, (get_random_chunk w sp s).1 = Raise (ValueError msg) /\
               trace (get_random_chunk w sp s).2 = trace s).
Proof.
  intros file_size need. unfold get_random_chunk.
  destruct (decide (file_of w sp = [])) as [Hnil|Hne].
  { split; intros _; [by exists []|by eexists]. }
  unfold bind, gets, next_draws, lift, modify, raise. simpl.
  fold file_size. fold need.
  destruct (random_randint 0 (file_size - need) _) as [pos|e] eqn:Hpos.
  - apply random_randint_range in Hpos. split; [intros _|lia].
    exists [Seek sp pos]. split.
    + by destruct (_ || _); [|destruct (encode _ _)].
    + apply Forall_singleton. right. by exists pos.
  - split.
    + intros Hle. by exists [].
    + intros Hlt. rewrite random_randint_empty in Hpos by lia.
      injection Hpos as <-. by eexists.
Qed.

End AutoTuneSampler.

Section SubwordSampler.
Import Subword.
Variable w : world.

Lemma sw_batch_of_chunk_rows (data : list nat) s x y s' :
  batch_of_chunk w data s = (Ok (x, y), s') ->
  length x = Z.to_nat batch_size /\ length y = length x /\
  forall i xi yi, x !! i = Some xi -> y !! i = Some yi ->
                  window_pair data (Z.to_nat block_size) xi yi.
Proof.
  unfold batch_of_chunk. destruct (Z.leb_spec (Z.of_nat (length data)) block_size);
    [done|]. intros Hrun.
  apply bind_Ok_inv in Hrun as (rs & s1 & [= <- <-] & Hrun).
  apply bind_Ok_inv in Hrun as (ix & s2 & [Hix Hs]%lift_Ok_inv & Hrun).
  apply bind_Ok_inv in Hrun as (x' & s3 & [Hx Hs']%lift_Ok_inv & Hrun).
  apply bind_Ok_inv in Hrun as (y' & s4 & [Hy Hs'']%lift_Ok_inv & Hrun).
  unfold ret in Hrun. injection Hrun as -> -> _.
  apply torch_randint_range in Hix as (Hbs & _ & Hlen & Hix).
  change (length ix = Z.to_nat batch_size) in Hlen.
  destruct (stacked_windows data block_size ix x y) as (Hlx & Hly & Hrows);
    [done|done|done|done|].
  rewrite Hlx, Hly. done.
Qed.

Lemma sw_get_batch_rows (sp : split) s x y s' :
  get_batch w sp s = (Ok (x, y), s') ->
  exists data s1,
    get_random_chunk w sp s = (Ok data, s1) /\
    length x = Z.to_nat batch_size /\ length y = length x /\
    forall i xi yi, x !! i = Some xi -> y !! i = Some yi ->
                    window_pair data (Z.to_nat block_size) xi yi.
Proof.
  unfold get_batch. intros (data & s1 & Hchunk & Hrows)%bind_Ok_inv.
  exists data, s1. split; [done|]. by apply sw_batch_of_chunk_rows in Hrows.
Qed.



Lemma sw_get_random_chunk_rec_offsets (depth : nat) (sp : split) (s : state) :
  let file_size := Z.of_nat (length (file_of w sp)) in
  let need := block_size * batch_size in
  need <= file_size ->
  exists new, trace (get_random_chunk_rec w depth sp s).2 = new ++ trace s /\
              Forall (seek_within sp 0 (file_size - need)) new.
Proof.
  intros file_size need Hle. revert s.
  induction depth as [|depth IH]; intros s; simpl; [by exists []|].
  destruct (decide (file_of w sp = [])); [by exists []|].
  unfold bind, next_draws, lift, modify, raise. simpl.
  fold file_size. fold need.
  destruct (random_randint 0 (file_size - need) _) as [pos|e] eqn:Hpos;
    [|by exists []].
  apply random_randint_range in Hpos.
  assert (seek_within (C := config) sp 0 (file_size - need) (Seek sp pos)) as Hseek
      by (right; by exists pos).
  destruct (_ || _).
  { exists [Seek sp pos]. split; [done|]. by apply Forall_singleton. }
  destruct (_ <? _).
  { exists [Seek sp pos]. split; [done|]. by apply Forall_singleton. }
  destruct (IH (log PrintRetry (log (Seek sp pos) (set_draws (draws s + 1) s))))
    as (new & -> & Hnew).
  exists (new ++ [PrintRetry; Seek sp pos]). split.
  - by rewrite <- app_assoc.
  - apply Forall_app. split; [done|].
    apply Forall_cons_2; [by left|]. by apply Forall_singleton.
Qed.

Lemma sw_get_random_chunk_small_file (sp : split) (s : state) :
  Z.of_nat (length (file_of w sp)) < block_size * batch_size ->
  exists msg, (get_random_chunk w sp s).1 = Raise (ValueError msg) /\
              trace (get_random_chunk w sp s).2 = trace s.
Proof.
  intros Hlt. unfold get_random_chunk. simpl.
  destruct (decide (file_of w sp = [])); [by eexists|].
  unfold bind, next_draws, lift. simpl.
  rewrite random_randint_empty by lia. by eexists.
Qed.

End SubwordSampler.

(** *** The claims about the sampler *)

Example at_get_batch_runs :
  is_ok (AutoTune.get_batch (at_world (file_of_a 10000) []) train
                            AutoTune.initial).1 = true.
Proof. vm_compute. reflexivity. Qed.

Example sw_get_batch_runs :
  is_ok (Subword.get_batch (sw_world (file_of_a 5000) [] (fun _ => Ok (Fin 1)))
                           train Subword.initial).1 = true.
Proof. vm_compute. reflexivity. Qed.

(** C1.  Whenever [get_batch] returns a batch [(x, y)], in either script,
    the chunk [data] it sampled is such that every row [x[i]] is a window
    [data[start : start + block_size]] and [y[i]] is
    [data[start + 1 : start + block_size + 1]]: both have [block_size]
    elements, [y[i][t] = x[i][t + 1]] for [t < block_size - 1], and
    [y[i][block_size - 1]] is [data[start + block_size]], the token right
    after the input window.  There are [batch_size] rows. *)
Theorem batch_targets_follow_inputs :
  (forall (w : AutoTune.world) sp s x y s',
      AutoTune.get_batch w sp s = (Ok (x, y), s') ->
      exists data s1,
        AutoTune.get_random_chunk w sp s = (Ok data, s1) /\
        length x = Z.to_nat (AutoTune.batch_size s) /\ length y = length x /\
        forall i xi yi, x !! i = Some xi -> y !! i = Some yi ->
          window_pair data (Z.to_nat AutoTune.block_size) xi yi) /\
  (forall (w : Subword.world) sp s x y s',
      Subword.get_batch w sp s = (Ok (x, y), s') ->
      exists data s1,
        Subword.get_random_chunk w sp s = (Ok data, s1) /\
        length x = Z.to_nat Subword.batch_size /\ length y = length x /\
        forall i xi yi, x !! i = Some xi -> y !! i = Some yi ->
          window_pair data (Z.to_nat Subword.block_size) xi yi).
Proof.
  split; intros w sp s x y s'.
  - apply get_batch_rows.
  - apply sw_get_batch_rows.
Qed.

Lemma batch_targets_follow_inputs_witness :
  (exists x y s',
      AutoTune.get_batch (at_world (file_of_a 10000) []) train AutoTune.initial
      = (Ok (x, y), s') /\
      exists data s1,
        AutoTune.get_random_chunk (at_world (file_of_a 10000) []) train
                                  AutoTune.initial = (Ok data, s1) /\
        length x = Z.to_nat (AutoTune.batch_size AutoTune.initial) /\
        length y = length x /\
        forall i xi yi, x !! i = Some xi -> y !! i = Some yi ->
          window_pair data (Z.to_nat AutoTune.block_size) xi yi) /\
  (exists x y s',
      Subword.get_batch (sw_world (file_of_a 5000) [] (fun _ => Ok (Fin 1)))
                        train Subword.initial = (Ok (x, y), s') /\
      exists data s1,
        Subword.get_random_chunk
          (sw_world (file_of_a 5000) [] (fun _ => Ok (Fin 1)))
          train Subword.initial = (Ok data, s1) /\
        length x = Z.to_nat Subword.batch_size /\ length y = length x /\
        forall i xi yi, x !! i = Some xi -> y !! i = Some yi ->
          window_pair data (Z.to_nat Subword.block_size) xi yi).
Proof.
  split.
  - pose proof at_get_batch_runs as Hok.
    destruct (AutoTune.get_batch _ train AutoTune.initial)
      as [[[x y]|e] s'] eqn:Hrun; [|discriminate Hok].
    exists x, y, s'. split; [reflexivity|].
    exact (proj1 batch_targets_follow_inputs _ _ _ _ _ _ Hrun).
  - pose proof sw_get_batch_runs as Hok.
    destruct (Subword.get_batch _ train Subword.initial)
      as [[[x y]|e] s'] eqn:Hrun; [|discriminate Hok].
    exists x, y, s'. split; [reflexivity|].
    exact (proj2 batch_targets_follow_inputs _ _ _ _ _ _ Hrun).
Defined.

(** C4, as the code has it.  In either script, one call of
    [get_random_chunk] on a split whose file has at least
    [block_size * batch_size] bytes logs nothing but seeks to offsets in
    [0 .. file_size - block_size * batch_size] (and, in the subword
    script, retry messages).  On a smaller file the call raises before it
    seeks, and what it raises is a [ValueError]: the one of
    [random.randint] for the empty range, or the one of [mmap] for an
    empty file. *)
Theorem sampler_start_offset_in_range :
  (forall (w : AutoTune.world) sp s,
      let file_size := Z.of_nat (length (AutoTune.file_of w sp)) in
      let need := AutoTune.block_size * AutoTune.batch_size s in
      (need <= file_size ->
       exists new,
         AutoTune.trace (AutoTune.get_random_chunk w sp s).2
         = new ++ AutoTune.trace s /\
         Forall (seek_within sp 0 (file_size - need)) new) /\
      (file_size < need ->
       exists msg,
         (AutoTune.get_random_chunk w sp s).1 = Raise (ValueError msg) /\
         AutoTune.trace (AutoTune.get_random_chunk w sp s).2 = AutoTune.trace s)) /\
  (forall (w : Subword.world) sp s,
      let file_size := Z.of_nat (length (Subword.file_of w sp)) in
      let need := Subword.block_size * Subword.batch_size in
      (need <= file_size ->
       exists new,
         Subword.trace (Subword.get_random_chunk w sp s).2
         = new ++ Subword.trace s /\
         Forall (seek_within sp 0 (file_size - need)) new) /\
      (file_size < need ->
       exists msg,
         (Subword.get_random_chunk w sp s).1 = Raise (ValueError msg) /\
         Subword.trace (Subword.get_random_chunk w sp s).2 = Subword.trace s)).
Proof.
  split; intros w sp s.
  - apply get_random_chunk_offsets.
  - split.
    + apply sw_get_random_chunk_rec_offsets.
    + apply sw_get_random_chunk_small_file.
Qed.

Example at_seek_10000 :
  AutoTune.trace (AutoTune.get_random_chunk
                    (at_world (file_of_a 10000) []) train AutoTune.initial).2
  = [Seek train 0].
Proof. vm_compute. reflexivity. Qed.

Lemma sampler_start_offset_in_range_witness :
  (exists new,
      AutoTune.trace (AutoTune.get_random_chunk
                        (at_world (file_of_a 10000) (file_of_a 8000))
                        train AutoTune.initial).2
      = new ++ [] /\
      Forall (seek_within train 0 (10000 - 128 * 64)) new) /\
  (exists msg,
      (AutoTune.get_random_chunk (at_world (file_of_a 10000) (file_of_a 8000))
                                 val AutoTune.initial).1
      = Raise (ValueError msg) /\
      AutoTune.trace (AutoTune.get_random_chunk
                        (at_world (file_of_a 10000) (file_of_a 8000))
                        val AutoTune.initial).2 = []) /\
  (exists new,
      Subword.trace (Subword.get_random_chunk
                       (sw_world (file_of_a 10000) (file_of_a 4000)
                                 (fun _ => Ok (Fin 1)))
                       train Subword.initial).2
      = new ++ [] /\
      Forall (seek_within train 0 (10000 - 128 * 32)) new) /\
  (exists msg,
      (Subword.get_random_chunk
         (sw_world (file_of_a 10000) (file_of_a 4000) (fun _ => Ok (Fin 1)))
         val Subword.initial).1
      = Raise (ValueError msg) /\
      Subword.trace (Subword.get_random_chunk
                       (sw_world (file_of_a 10000) (file_of_a 4000)
                                 (fun _ => Ok (Fin 1)))
                       val Subword.initial).2 = []).
Proof.
  split; [|split; [|split]].
  - apply (proj1 (proj1 sampler_start_offset_in_range
                    (at_world (file_of_a 10000) (file_of_a 8000))
                    train AutoTune.initial)).
    vm_compute. discriminate.
  - apply (proj2 (proj1 sampler_start_offset_in_range
                    (at_world (file_of_a 10000) (file_of_a 8000))
                    val AutoTune.initial)).
    vm_compute. reflexivity.
  - apply (proj1 (proj2 sampler_start_offset_in_range
                    (sw_world (file_of_a 10000) (file_of_a 4000)
                              (fun _ => Ok (Fin 1)))
                    train Subword.initial)).
    vm_compute. discriminate.
  - apply (proj2 (proj2 sampler_start_offset_in_range
                    (sw_world (file_of_a 10000) (file_of_a 4000)
                              (fun _ => Ok (Fin 1)))
                    val Subword.initial)).
    vm_compute. reflexivity.
Defined.

(** C4 fails as stated: on a file smaller than [block_size * batch_size]
    the sampler raises the [ValueError] of [random.randint], in both
    scripts, and no error of the class the claim names. *)
Lemma small_file_raises_value_error :
  let r := AutoTune.get_random_chunk
             (at_world (file_of_a 10000) (file_of_a 8000)) val
             AutoTune.initial in
  let r' := Subword.get_random_chunk
              (sw_world (file_of_a 10000) (file_of_a 4000)
                        (fun _ => Ok (Fin 1)))
              val Subword.initial in
  Z.of_nat (length (file_of_a 8000))
  < AutoTune.block_size * AutoTune.batch_size AutoTune.initial /\
  r.1 = Raise (ValueError "empty range for randrange()") /\
  (forall e, r.1 = Raise e -> exn_class e <> "InsufficientDataError"%string) /\
  Z.of_nat (length (file_of_a 4000))
  < Subword.block_size * Subword.batch_size /\
  r'.1 = Raise (ValueError "empty range for randrange()") /\
  (forall e, r'.1 = Raise e -> exn_class e <> "InsufficientDataError"%string).
Proof.
  assert ((AutoTune.get_random_chunk
             (at_world (file_of_a 10000) (file_of_a 8000)) val
             AutoTune.initial).1
          = Raise (ValueError "empty range for randrange()")) as Hr
      by (vm_compute; reflexivity).
  assert ((Subword.get_random_chunk
             (sw_world (file_of_a 10000) (file_of_a 4000)
                       (fun _ => Ok (Fin 1)))
             val Subword.initial).1
          = Raise (ValueError "empty range for randrange()")) as Hr'
      by (vm_compute; reflexivity).
  cbv zeta. rewrite Hr, Hr'.
  split; [by vm_compute|]. split; [done|].
  split; [intros e [= <-]; discriminate|].
  split; [by vm_compute|]. split; [done|].
  intros e [= <-]. discriminate.
Qed.



Example at_garbled_chunk_is_empty :
  (AutoTune.get_random_chunk (at_world_garbled (file_of_a 10000) []) train
                             AutoTune.initial).1 = Ok [].
Proof. vm_compute. reflexivity. Qed.


(** ** Auto_Tune.py: what each piece of the search touches *)

Section AutoTuneFrames.
Import AutoTune.
Variable w : world.

Lemma at_frame_refl P s : at_frame P s s.
Proof. repeat split. by exists []. Qed.

Lemma at_frame_log (P : event config -> Prop) s0 s e :
  P e -> at_frame P s0 s -> at_frame P s0 (log e s).
Proof.
  intros He (? & ? & ? & ? & new & Hnew & Htr). repeat split; try done.
  exists (e :: new). split; [by constructor|]. simpl. by rewrite Htr.
Qed.

Lemma at_frame_weaken (P Q : event config -> Prop) s0 s :
  (forall e, P e -> Q e) -> at_frame P s0 s -> at_frame Q s0 s.
Proof.
  intros HPQ (? & ? & ? & ? & new & Hnew & Htr). repeat split; try done.
  exists new. split; [|done]. eapply Forall_impl; eauto.
Qed.

Lemma at_frame_trans (P : event config -> Prop) s0 s1 s2 :
  at_frame P s0 s1 -> at_frame P s1 s2 -> at_frame P s0 s2.
Proof.
  intros (? & ? & ? & ? & new1 & Hnew1 & Htr1) (? & ? & ? & ? & new2 & Hnew2 & Htr2).
  repeat split; try congruence.
  exists (new2 ++ new1). split; [by apply Forall_app|].
  by rewrite Htr2, Htr1, app_assoc.
Qed.

Lemma get_random_chunk_frame (sp : split) s0 :
  preserves (at_frame is_seek s0) (get_random_chunk w sp).
Proof.
  unfold get_random_chunk. repeat preserve_step; try done.
  apply at_frame_log; [by eexists _, _|done].
Qed.

Lemma get_batch_frame (sp : split) s0 :
  preserves (at_frame is_seek s0) (get_batch w sp).
Proof.
  unfold get_batch, batch_of_chunk.
  apply preserves_bind; [apply get_random_chunk_frame|intros data].
  repeat preserve_step; done.
Qed.

Lemma call_model_frame P (b : batch) s0 :
  preserves (at_frame P s0) (call_model w b).
Proof. by intros s Hs. Qed.

Lemma estimate_split_frame (sp : split) s0 :
  preserves (at_frame is_seek s0) (estimate_split w sp).
Proof.
  unfold estimate_split. apply preserves_bind; [|intros; apply preserves_ret].
  apply preserves_collect, preserves_bind; [apply get_batch_frame|].
  intros b. apply call_model_frame.
Qed.

Lemma get_batch_training (sp : split) (b : bool) :
  preserves (fun s => training s = b) (get_batch w sp).
Proof.
  unfold get_batch, batch_of_chunk, get_random_chunk.
  repeat preserve_step; done.
Qed.

Lemma estimate_split_training (sp : split) (b : bool) :
  preserves (fun s => training s = b) (estimate_split w sp).
Proof.
  unfold estimate_split. apply preserves_bind; [|intros; apply preserves_ret].
  apply preserves_collect, preserves_bind; [apply get_batch_training|].
  by intros ? ? ?.
Qed.

Lemma estimate_loss_run (s : state) :
  estimate_loss w s =
  match estimate_split w train (log ModelEval (set_training false s)) with
  | (Ok a, s1) =>
      match estimate_split w val s1 with
      | (Ok b, s2) => (Ok (a, b), log ModelTrain (set_training true s2))
      | (Raise e, s2) => (Raise e, s2)
      end
  | (Raise e, s1) => (Raise e, s1)
  end.
Proof.
  unfold estimate_loss, bind, modify, ret.
  destruct (estimate_split w train _) as [[a|e] s1]; [|done].
  by destruct (estimate_split w val s1) as [[b|e] s2].
Qed.

(** The loss estimator: the model is switched to inference mode first; it
    is switched back before a normal return and not when an exception
    leaves the call. *)
Lemma estimate_loss_modes (s : state) :
  exists mid,
    Forall is_seek mid /\
    match (estimate_loss w s).1 with
    | Ok _ =>
        training (estimate_loss w s).2 = true /\
        trace (estimate_loss w s).2 = ModelTrain :: mid ++ ModelEval :: trace s
    | Raise _ =>
        training (estimate_loss w s).2 = false /\
        trace (estimate_loss w s).2 = mid ++ ModelEval :: trace s
    end.
Proof.
  rewrite estimate_loss_run.
  set (s0 := log ModelEval (set_training false s)).
  pose proof (estimate_split_frame train s0 s0 (at_frame_refl _ _)) as Hf1.
  pose proof (estimate_split_training train false s0 eq_refl) as Ht1.
  destruct (estimate_split w train s0) as [[a|e] s1]; simpl in *.
  2:{ destruct Hf1 as (_ & _ & _ & _ & mid & Hmid & Htr). by exists mid. }
  pose proof (estimate_split_frame val s0 s1 Hf1) as Hf2.
  pose proof (estimate_split_training val false s1 Ht1) as Ht2.
  destruct (estimate_split w val s1) as [[b|e] s2]; simpl in *.
  2:{ destruct Hf2 as (_ & _ & _ & _ & mid & Hmid & Htr). by exists mid. }
  destruct Hf2 as (_ & _ & _ & _ & mid & Hmid & Htr). exists mid.
  split; [done|]. split; [done|]. by rewrite Htr.
Qed.

End AutoTuneFrames.

Example at_estimate_loss_oom :
  let r := AutoTune.estimate_loss (at_world_oom (file_of_a 10000) (file_of_a 10000))
                                  AutoTune.initial in
  r.1 = Raise (ExternalError "OutOfMemoryError" "CUDA out of memory") /\
  AutoTune.training r.2 = false /\
  AutoTune.trace r.2 = [Seek train 130; Seek train 65; Seek train 0; ModelEval].
Proof. vm_compute. auto. Qed.

(** C6, as the code has it.  In Auto_Tune.py, [estimate_loss] switches the
    model to inference mode before anything else and logs nothing but
    seeks until it is done; when every batch draw and forward pass
    returns, it switches the model back to training mode and returns;
    when one of them raises, the exception leaves [estimate_loss] with the
    model still in inference mode. *)
Theorem estimate_loss_restores_mode_on_return_only :
  forall (w : AutoTune.world) (s : AutoTune.state),
  exists mid,
    Forall is_seek mid /\
    match (AutoTune.estimate_loss w s).1 with
    | Ok _ =>
        AutoTune.training (AutoTune.estimate_loss w s).2 = true /\
        AutoTune.trace (AutoTune.estimate_loss w s).2
        = ModelTrain :: mid ++ ModelEval :: AutoTune.trace s
    | Raise _ =>
        AutoTune.training (AutoTune.estimate_loss w s).2 = false /\
        AutoTune.trace (AutoTune.estimate_loss w s).2
        = mid ++ ModelEval :: AutoTune.trace s
    end.
Proof. intros w s. apply estimate_loss_modes. Qed.

(** C6 fails as stated: a forward pass that raises leaves the model in
    inference mode when [estimate_loss] exits. *)
Lemma estimate_loss_not_exception_safe :
  let r := AutoTune.estimate_loss
             (at_world_oom (file_of_a 10000) (file_of_a 10000))
             AutoTune.initial in
  r.1 = Raise (ExternalError "OutOfMemoryError" "CUDA out of memory") /\
  AutoTune.training AutoTune.initial = true /\
  AutoTune.training r.2 = false.
Proof. vm_compute. auto. Qed.

(** ** Gradient clipping *)

Section ClipTraces.
Context {C : Type}.
Implicit Types t : list (event C).

Lemma clip_precedes_step_nil : clip_precedes_step (C := C) [].
Proof. intros [|? later] earlier; discriminate. Qed.

Lemma clip_precedes_step_cons (e : event C) t :
  e <> ScalerStep -> clip_precedes_step t -> clip_precedes_step (e :: t).
Proof.
  intros He Ht [|e' later] earlier Heq; simpl in Heq.
  - congruence.
  - injection Heq as _ Heq. by eapply Ht.
Qed.

Lemma clip_precedes_step_step t :
  clip_precedes_step t ->
  clip_precedes_step (ScalerStep :: ClipGradNorm 1 :: Backward :: t).
Proof.
  intros Ht [|e' later] earlier Heq; simpl in Heq.
  - injection Heq as <-. by eexists.
  - injection Heq as _ Heq.
    revert Heq. apply clip_precedes_step_cons; [done|].
    by apply clip_precedes_step_cons.
Qed.

End ClipTraces.

Section AutoTuneClip.
Import AutoTune.
Variable w : world.
Variable t0 : list (event config).

Lemma at_clip_inv_log (e : event config) (s : state) :
  e <> ScalerStep -> at_clip_inv t0 s -> at_clip_inv t0 (log e s).
Proof.
  intros He (new & Htr & Hnew). exists (e :: new). split.
  - simpl. by rewrite Htr.
  - by apply clip_precedes_step_cons.
Qed.

Ltac clip_inv :=
  preserve; try done; try (apply at_clip_inv_log; done).

Lemma get_batch_clip (sp : split) : preserves (at_clip_inv t0) (get_batch w sp).
Proof. unfold get_batch, batch_of_chunk, get_random_chunk. clip_inv. Qed.

Lemma estimate_loss_clip : preserves (at_clip_inv t0) (estimate_loss w).
Proof.
  unfold estimate_loss, estimate_split.
  pose proof get_batch_clip. clip_inv.
Qed.

Lemma evaluation_clip (c : config) (iter : Z) :
  preserves (at_clip_inv t0) (evaluation w c iter).
Proof. unfold evaluation. pose proof estimate_loss_clip. clip_inv. Qed.

(** The six calls that end an optimization step. *)
Lemma optimization_step_run (s : state) :
  optimization_step w s =
  match get_batch w train s with
  | (Ok b, s1) =>
      match call_model w b s1 with
      | (Ok _, s2) =>
          (Ok tt,
           log (SchedulerStep None)
             (log ScalerUpdate
                (log ScalerStep
                   (log (ClipGradNorm 1) (log Backward (log ZeroGrad s2))))))
      | (Raise e, s2) => (Raise e, s2)
      end
  | (Raise e, s1) => (Raise e, s1)
  end.
Proof.
  unfold optimization_step, bind at 1.
  destruct (get_batch w train s) as [[b|e] s1]; [|done].
  unfold bind at 1. by destruct (call_model w b s1) as [[l|e] s2].
Qed.

Lemma optimization_step_clip : preserves (at_clip_inv t0) (optimization_step w).
Proof.
  intros s Hs. rewrite optimization_step_run.
  pose proof (get_batch_clip train s Hs) as H1.
  destruct (get_batch w train s) as [[b|e] s1]; [|exact H1].
  unfold call_model. destruct (forward w (calls s1) b) as [l|e]; [|exact H1].
  cbn [fst snd] in *. destruct H1 as (new & Htr & Hnew).
  exists (SchedulerStep None :: ScalerUpdate :: ScalerStep
            :: ClipGradNorm 1 :: Backward :: ZeroGrad :: new).
  split; [simpl; by rewrite Htr|].
  do 2 (apply clip_precedes_step_cons; [done|]).
  apply clip_precedes_step_step. by apply clip_precedes_step_cons.
Qed.

Lemma trial_clip (c : config) : preserves (at_clip_inv t0) (trial w c).
Proof.
  unfold trial, iteration.
  pose proof evaluation_clip. pose proof optimization_step_clip. clip_inv.
Qed.

Lemma search_clip (cs : list config) : preserves (at_clip_inv t0) (search w cs).
Proof. unfold search. pose proof trial_clip. clip_inv. Qed.

End AutoTuneClip.

Lemma optimization_step_trace (w : AutoTune.world) (s : AutoTune.state) :
  exists mid,
    Forall is_seek mid /\
    AutoTune.trace (AutoTune.optimization_step w s).2 =
    match (AutoTune.optimization_step w s).1 with
    | Ok _ => SchedulerStep None :: ScalerUpdate :: ScalerStep
              :: ClipGradNorm 1 :: Backward :: ZeroGrad
              :: mid ++ AutoTune.trace s
    | Raise _ => mid ++ AutoTune.trace s
    end.
Proof.
  rewrite optimization_step_run.
  pose proof (get_batch_frame w train s s (at_frame_refl _ _)) as Hf.
  destruct (AutoTune.get_batch w train s) as [[b|e] s1];
    destruct Hf as (_ & _ & _ & _ & mid & Hmid & Htr); exists mid;
    (split; [done|]); [|done].
  unfold AutoTune.call_model.
  destruct (AutoTune.forward w (AutoTune.calls s1) b) as [l|e]; simpl in *;
    by rewrite Htr.
Qed.

Lemma sum_squares_scale (c : Q) (g : list Q) :
  (sum_squares (map (Qmult c) g) == c * c * sum_squares g)%Q.
Proof.
  induction g as [|x g IH]; simpl.
  - ring.
  - rewrite IH. ring.
Qed.

Lemma clip_coef_norm_10 (n : Q) :
  (n == 10)%Q ->
  clip_coef 1 n = (1 / (n + (1 # 1000000)))%Q /\
  (clip_coef 1 n == 1000000 # 10000001)%Q.
Proof.
  intros Hn. unfold clip_coef.
  assert (1 / (n + (1 # 1000000)) == 1000000 # 10000001)%Q as Hc
      by (rewrite Hn; reflexivity).
  destruct (Qle_bool 1 (1 / (n + (1 # 1000000)))) eqn:Hle; [|done].
  apply Qle_bool_iff in Hle. rewrite Hc in Hle. by vm_compute in Hle.
Qed.

Example clip_6_8 :
  clip_grad_norm 1 10 [6; 8]%Q
  = [(1 / (10 + (1 # 1000000))) * 6; (1 / (10 + (1 # 1000000))) * 8]%Q.
Proof. reflexivity. Qed.

(** C7, as the code has it.  In Auto_Tune.py every optimization step that
    gets its batch and its loss ends with: clear the gradients, backward
    pass, clip the gradient norm to 1.0, optimizer update through the
    scaler, scaler update, scheduler step; and in the trace of a whole
    search every optimizer update comes right after a clipping to norm 1.0.
    The clipping multiplies every gradient by one factor
    [max_norm / (total_norm + 1e-6)]: for gradients of norm 10 the factor
    is positive (the direction is kept) and the new norm is within 1e-6
    of 1.0. *)
Theorem auto_tune_clips_before_update :
  (forall (w : AutoTune.world) (s : AutoTune.state),
      exists mid,
        Forall is_seek mid /\
        AutoTune.trace (AutoTune.optimization_step w s).2 =
        match (AutoTune.optimization_step w s).1 with
        | Ok _ => SchedulerStep None :: ScalerUpdate :: ScalerStep
                  :: ClipGradNorm 1 :: Backward :: ZeroGrad
                  :: mid ++ AutoTune.trace s
        | Raise _ => mid ++ AutoTune.trace s
        end) /\
  (forall (w : AutoTune.world) (s : AutoTune.state),
      exists new,
        AutoTune.trace (AutoTune.hyperparameter_search w s).2
        = new ++ AutoTune.trace s /\
        clip_precedes_step new) /\
  (forall (g : list Q) (n : Q),
      is_norm n g -> (n == 10)%Q ->
      (0 < clip_coef 1 n)%Q /\
      clip_grad_norm 1 n g = map (Qmult (clip_coef 1 n)) g /\
      is_norm (clip_coef 1 n * n) (clip_grad_norm 1 n g) /\
      (1 - (1 # 1000000) <= clip_coef 1 n * n)%Q /\
      (clip_coef 1 n * n <= 1)%Q).
Proof.
  split; [|split].
  - apply optimization_step_trace.
  - intros w s.
    apply (search_clip w (AutoTune.trace s) AutoTune.grid s).
    exists []. split; [done|apply clip_precedes_step_nil].
  - intros g n [Hpos Hnorm] Hn.
    destruct (clip_coef_norm_10 n Hn) as [_ Hc].
    split; [by rewrite Hc|]. split; [done|]. split; [split|split].
    + rewrite Hc, Hn. by vm_compute.
    + unfold clip_grad_norm. rewrite sum_squares_scale, <- Hnorm. ring.
    + rewrite Hc, Hn. by vm_compute.
    + rewrite Hc, Hn. by vm_compute.
Qed.

Lemma auto_tune_clips_before_update_witness :
  (0 < clip_coef 1 10)%Q /\
  clip_grad_norm 1 10 [6; 8]%Q = map (Qmult (clip_coef 1 10)) [6; 8]%Q /\
  is_norm (clip_coef 1 10 * 10) (clip_grad_norm 1 10 [6; 8]%Q) /\
  (1 - (1 # 1000000) <= clip_coef 1 10 * 10)%Q /\
  (clip_coef 1 10 * 10 <= 1)%Q.
Proof.
  apply (proj2 (proj2 auto_tune_clips_before_update) [6; 8]%Q 10%Q).
  - split; [by vm_compute|reflexivity].
  - reflexivity.
Defined.

(** C7 fails as stated: the optimization step of GPT_Trainer-subword.py
    updates the parameters without clipping the gradients. *)
Lemma subword_step_updates_without_clipping :
  let r := Subword.optimization_step
             (sw_world (file_of_a 5000) [] (fun _ => Ok (Fin 1)))
             Subword.initial in
  r.1 = Ok tt /\
  Subword.trace r.2 = [ScalerUpdate; ScalerStep; Backward; Seek train 0; ZeroGrad] /\
  ~ clip_precedes_step (Subword.trace r.2).
Proof.
  assert (Subword.optimization_step
            (sw_world (file_of_a 5000) [] (fun _ => Ok (Fin 1)))
            Subword.initial
          = (Ok tt, Subword.State 33 1 true PosInf None 0 (Fin (0 + 1)) None
                      [ScalerUpdate; ScalerStep; Backward; Seek train 0; ZeroGrad]))
    as Hrun by (vm_compute; reflexivity).
  cbv zeta. rewrite Hrun. simpl. split; [done|]. split; [done|].
  intros Hclip.
  destruct (Hclip [ScalerUpdate] [Backward; Seek train 0; ZeroGrad] eq_refl)
    as [rest Hrest].
  discriminate Hrest.
Qed.

(** ** The search that records nothing *)

Section AutoTuneNoResult.
Import AutoTune.
Variable w : world.

Lemma search_run (cs : list config) (s : state) :
  search w cs s =
  match for_each cs (trial w) (enter s) with
  | (Ok _, s1) =>
      match best_hyperparams s1 with
      | None => (Raise (TypeError "'NoneType' object is not subscriptable"), s1)
      | Some c => (Ok tt, log (PrintBest c (best_val_loss s1)) s1)
      end
  | (Raise e, s1) => (Raise e, s1)
  end.
Proof.
  unfold search, bind at 1, modify at 1. unfold bind at 1.
  destruct (for_each cs (trial w) (enter s)) as [[[]|e] s1]; [|done].
  unfold bind, gets. by destruct (best_hyperparams s1).
Qed.

Lemma trial_skipped (c : config) (s : state) :
  vram_limit < memory_allocated w (queries s) ->
  trial w c s =
  (Ok Continue,
   log PrintSkipping
     (set_queries (S (queries s)) (set_batch_size (cfg_bs c) (log (PrintTrial c) s)))).
Proof.
  intros Hfull. unfold trial, bind, modify. cbv beta iota.
  change (queries (set_batch_size (cfg_bs c) (log (PrintTrial c) s)))
    with (queries s).
  by rewrite (proj2 (Z.ltb_lt _ _) Hfull).
Qed.

Lemma all_skipped (cs : list config) (s : state) :
  (forall k, vram_limit < memory_allocated w k) ->
  exists s1, for_each cs (trial w) s = (Ok tt, s1) /\
             best_hyperparams s1 = best_hyperparams s.
Proof.
  intros Hfull. revert s. induction cs as [|c cs IH]; intros s.
  - by exists s.
  - cbn [for_each]. rewrite trial_skipped by apply Hfull.
    destruct (IH (log PrintSkipping
                    (set_queries (S (queries s))
                       (set_batch_size (cfg_bs c) (log (PrintTrial c) s)))))
      as (s1 & Hrun & Hbest).
    exists s1. by split.
Qed.

End AutoTuneNoResult.

Section SubwordNoResult.
Import Subword.
Variable w : world.

Lemma train_run (cs : list config) (epochs : Z) (s : state) :
  train w cs epochs s =
  match for_each cs (trial w epochs) (enter s) with
  | (Ok _, s1) =>
      match best_config s1 with
      | None => (Raise (TypeError "'NoneType' object is not subscriptable"), s1)
      | Some c => (Ok tt, log (PrintBest c (best_val_loss s1)) s1)
      end
  | (Raise e, s1) => (Raise e, s1)
  end.
Proof.
  unfold train, bind at 1, modify at 1. unfold bind at 1.
  destruct (for_each cs (trial w epochs) (enter s)) as [[[]|e] s1]; [|done].
  unfold bind, gets. by destruct (best_config s1).
Qed.

Lemma no_epochs (cs : list config) (epochs : Z) (s : state) :
  epochs <= 0 ->
  exists s1, for_each cs (trial w epochs) s = (Ok tt, s1) /\
             best_config s1 = best_config s.
Proof.
  intros Hle. revert s. induction cs as [|c cs IH]; intros s.
  - by exists s.
  - cbn [for_each]. unfold trial at 1, bind, modify, range1.
    rewrite seqZ_nil by done. cbn [for_each]. unfold ret. cbv beta iota.
    destruct (IH (set_plateau_count 0 (log (PrintTrial c) (set_training true s))))
      as (s1 & Hrun & Hbest).
    exists s1. by split.
Qed.

End SubwordNoResult.

(** C8, as the code has it.  When the loop over the configurations ends
    and no best result was recorded, the final report subscripts [None]:
    the search fails with Python's [TypeError], in both scripts.  This is
    what happens in Auto_Tune.py when the memory guard skips every
    combination and in GPT_Trainer-subword.py when [epochs] is not
    positive. *)
Theorem no_result_subscripts_none :
  (forall (w : AutoTune.world) cs s s1,
      for_each cs (AutoTune.trial w) (AutoTune.enter s) = (Ok tt, s1) ->
      AutoTune.best_hyperparams s1 = None ->
      AutoTune.search w cs s
      = (Raise (TypeError "'NoneType' object is not subscriptable"), s1)) /\
  (forall (w : AutoTune.world) s,
      (forall k, AutoTune.vram_limit < AutoTune.memory_allocated w k) ->
      (AutoTune.hyperparameter_search w s).1
      = Raise (TypeError "'NoneType' object is not subscriptable")) /\
  (forall (w : Subword.world) cs epochs s s1,
      for_each cs (Subword.trial w epochs) (Subword.enter s) = (Ok tt, s1) ->
      Subword.best_config s1 = None ->
      Subword.train w cs epochs s
      = (Raise (TypeError "'NoneType' object is not subscriptable"), s1)) /\
  (forall (w : Subword.world) epochs s,
      epochs <= 0 ->
      (Subword.train_model w epochs s).1
      = Raise (TypeError "'NoneType' object is not subscriptable")).
Proof.
  split; [|split; [|split]].
  - intros w cs s s1 Hrun Hnone. by rewrite search_run, Hrun, Hnone.
  - intros w s Hfull. unfold AutoTune.hyperparameter_search.
    rewrite search_run.
    destruct (all_skipped w AutoTune.grid (AutoTune.enter s) Hfull)
      as (s1 & -> & Hbest).
    by rewrite Hbest.
  - intros w cs epochs s s1 Hrun Hnone. by rewrite train_run, Hrun, Hnone.
  - intros w epochs s Hle. unfold Subword.train_model. rewrite train_run.
    destruct (no_epochs w Subword.configs epochs (Subword.enter s) Hle)
      as (s1 & -> & Hbest).
    by rewrite Hbest.
Qed.

Lemma no_result_subscripts_none_witness :
  (AutoTune.hyperparameter_search at_world_full_memory AutoTune.initial).1
  = Raise (TypeError "'NoneType' object is not subscriptable") /\
  (Subword.train_model (sw_world [] [] (fun _ => Ok (Fin 1))) 0 Subword.initial).1
  = Raise (TypeError "'NoneType' object is not subscriptable").
Proof.
  split.
  - apply (proj1 (proj2 no_result_subscripts_none)).
    intros k. vm_compute. reflexivity.
  - apply (proj2 (proj2 (proj2 no_result_subscripts_none))). lia.
Defined.

(** C8 fails as stated: with every combination skipped, the search ends by
    subscripting the unset [best_hyperparams]; what it raises is the
    [TypeError] of that, and no other error. *)
Lemma search_without_result_raises_type_error :
  let r := AutoTune.hyperparameter_search at_world_full_memory AutoTune.initial in
  AutoTune.best_hyperparams r.2 = None /\
  r.1 = Raise (TypeError "'NoneType' object is not subscriptable") /\
  (forall e, r.1 = Raise e -> exn_class e <> "NoResultError"%string).
Proof.
  assert ((AutoTune.hyperparameter_search at_world_full_memory AutoTune.initial).1
          = Raise (TypeError "'NoneType' object is not subscriptable")
          /\ AutoTune.best_hyperparams
               (AutoTune.hyperparameter_search at_world_full_memory
                                               AutoTune.initial).2 = None)
    as [Hr Hb] by (vm_compute; auto).
  cbv zeta. rewrite Hr, Hb. split; [done|]. split; [done|].
  intros e [= <-]. discriminate.
Qed.

(** ** The order of floats *)

Lemma Qltb_lt (a b : Q) : Qltb a b = true <-> (a < b)%Q.
Proof.
  unfold Qltb. rewrite negb_true_iff. split.
  - intros Hle. apply Qnot_le_lt. intros H%Qle_bool_iff. congruence.
  - intros Hlt. destruct (Qle_bool b a) eqn:Hle; [|done].
    apply Qle_bool_iff in Hle. by apply Qle_not_lt in Hle.
Qed.

Lemma Qltb_ge (a b : Q) : Qltb a b = false <-> (b <= a)%Q.
Proof.
  unfold Qltb. rewrite negb_false_iff. apply Qle_bool_iff.
Qed.

Lemma flt_trans (x y z : float) :
  flt x y = true -> flt y z = true -> flt x z = true.
Proof.
  destruct x, y, z; simpl; try done.
  rewrite !Qltb_lt. intros. by eapply Qlt_trans.
Qed.

Lemma flt_irrefl (x : float) : flt x x = false.
Proof. destruct x; simpl; try done. apply Qltb_ge, Qle_refl. Qed.

(** Below [b] and not above [u]: for numbers, [v < b <= u]. *)
Lemma flt_le_trans (v b u : float) :
  flt v b = true -> flt u b = false -> u <> NaN -> flt v u = true.
Proof.
  destruct v, b, u; simpl; try done.
  rewrite !Qltb_lt, Qltb_ge. intros. by eapply Qlt_le_trans.
Qed.

Lemma flt_fle (x y : float) : flt x y = true -> fle x y = true.
Proof.
  destruct x, y; simpl; try done.
  rewrite Qltb_lt. intros H. by apply Qle_bool_iff, Qlt_le_weak.
Qed.

Lemma fle_trans (x y z : float) :
  fle x y = true -> fle y z = true -> fle x z = true.
Proof.
  destruct x, y, z; simpl; try done.
  rewrite !Qle_bool_iff. intros. by eapply Qle_trans.
Qed.

Lemma fle_refl (x : float) : x <> NaN -> fle x x = true.
Proof. destruct x; simpl; try done. intros _. apply Qle_bool_iff, Qle_refl. Qed.

Lemma flt_not_NaN (x y : float) : flt x y = true -> x <> NaN.
Proof. by destruct x. Qed.

(** ** The record in a trace *)

Section RecordFacts.
Context {C : Type}.
Implicit Types (t new mid : list (event C)) (e : event C).

Lemma running_best_not_NaN (l : list float) : running_best l <> NaN.
Proof.
  induction l as [|v l IH]; simpl; [done|].
  destruct (flt v (running_best l)) eqn:Hv; [|done]. by eapply flt_not_NaN.
Qed.

(** For numbers, "below the record" is "below every loss seen before". *)
Lemma below_running_best (l : list float) (v : float) :
  Forall (fun u => is_finite u = true) l -> is_finite v = true ->
  flt v (running_best l) = true <-> Forall (fun u => flt v u = true) l.
Proof.
  intros Hl Hv. induction Hl as [|u l Hu Hl IH]; simpl.
  - split; [done|]. intros _. by destruct v.
  - rewrite Forall_cons. destruct (flt u (running_best l)) eqn:Hul.
    + split.
      * intros Hvu. split; [done|]. apply IH. by eapply flt_trans.
      * by intros [Hvu _].
    + rewrite IH. split.
      * intros Hall. split; [|done]. apply IH in Hall.
        eapply flt_le_trans; [done|done|by destruct u].
      * by intros [_ Hall].
Qed.

(** The record never goes up. *)
Lemma running_best_cons (v : float) (l : list float) :
  fle (running_best (v :: l)) (running_best l) = true.
Proof.
  simpl. destruct (flt v (running_best l)) eqn:Hv.
  - by apply flt_fle.
  - apply fle_refl, running_best_not_NaN.
Qed.

Lemma running_best_app (l1 l2 : list float) :
  fle (running_best (l1 ++ l2)) (running_best l2) = true.
Proof.
  induction l1 as [|v l1 IH].
  - apply fle_refl, running_best_not_NaN.
  - eapply fle_trans; [apply (running_best_cons v (l1 ++ l2))|done].
Qed.

Lemma losses_benign mid t : Forall benign mid -> losses (mid ++ t) = losses t.
Proof.
  induction 1 as [|e mid [He _] _ IH]; [done|].
  simpl. unfold losses in *. simpl. rewrite IH.
  destruct e; try done. exfalso. apply He. by eexists _, _, _, _.
Qed.

Lemma not_improving_benign e t : benign e -> ~ improving (e :: t).
Proof.
  intros [He _] (ep & it & tl & v & earlier & [= -> _] & _).
  apply He. by eexists _, _, _, _.
Qed.

Lemma record_inv_nil : record_inv (C := C) [] PosInf.
Proof.
  repeat split. intros (? & ? & ? & ? & ? & ? & _). discriminate.
Qed.

Lemma record_inv_benign_cons e new best :
  benign e -> record_inv new best -> record_inv (e :: new) best.
Proof.
  intros He (Hbest & Hok & Hpend). split; [|split].
  - change (e :: new) with ([e] ++ new).
    rewrite losses_benign; [done|by constructor].
  - simpl. split; [done|]. destruct He as [_ He]. tauto.
  - by apply not_improving_benign.
Qed.

Lemma record_inv_benign mid new best :
  Forall benign mid -> record_inv new best -> record_inv (mid ++ new) best.
Proof.
  induction 1 as [|e mid He _ IH]; [done|]. intros Hinv.
  simpl. apply record_inv_benign_cons; auto.
Qed.

(** An evaluation that does not improve on the record. *)
Lemma record_inv_keep ep it tl v new best :
  flt v best = false -> record_inv new best ->
  record_inv (PrintEval ep it tl v :: new) best.
Proof.
  intros Hv (Hbest & Hok & Hpend). subst best. split; [|split].
  - simpl. by rewrite Hv.
  - simpl. split; [done|]. split; [|done].
    intros [(? & ? & ?)|(? & ? & ?)]; discriminate.
  - intros (? & ? & ? & ? & ? & [= _ _ _ <- <-] & Hlt). congruence.
Qed.

(** An evaluation that improves on it, and the overwrite that follows. *)
Lemma record_inv_improve ep it tl v e new best :
  flt v best = true -> is_overwrite e -> record_inv new best ->
  record_inv (e :: PrintEval ep it tl v :: new) v.
Proof.
  intros Hv He (Hbest & Hok & Hpend). subst best.
  assert (improving (PrintEval ep it tl v :: new)) as Himp
      by by eexists _, _, _, _, _.
  split; [|split].
  - assert (losses (e :: PrintEval ep it tl v :: new) = v :: losses new) as ->.
    { unfold losses. simpl.
      by destruct He as [(? & ? & ->)|(? & ? & ->)]. }
    simpl. by rewrite Hv.
  - simpl. repeat split; try done.
    intros [(? & ? & ?)|(? & ? & ?)]; discriminate.
  - intros (? & ? & ? & ? & ? & [= -> _] & _).
    destruct He as [(? & ? & ?)|(? & ? & ?)]; discriminate.
Qed.

Lemma record_ok_app t1 t2 : record_ok (t1 ++ t2) -> record_ok t2.
Proof. induction t1 as [|e t1 IH]; [done|]. simpl. intros [H _]. auto. Qed.

(** What [record_inv] says about a trace, in plain terms. *)
Lemma record_inv_overwrite_iff new best later ep it tl v earlier :
  record_inv new best ->
  new = later ++ PrintEval ep it tl v :: earlier ->
  (exists later' e, later = later' ++ [e] /\ is_overwrite e) <->
  flt v (running_best (losses earlier)) = true.
Proof.
  intros (_ & Hok & Hpend) ->.
  assert (improving (PrintEval ep it tl v :: earlier) <->
          flt v (running_best (losses earlier)) = true) as Himp.
  { split.
    - by intros (? & ? & ? & ? & ? & [= _ _ _ <- <-] & Hlt).
    - intros Hlt. by eexists _, _, _, _, _. }
  rewrite <- Himp.
  destruct later as [|e0 later0] using rev_ind.
  - simpl in Hpend. split; [|done].
    intros (later' & e & Heq & _). by destruct later'.
  - clear IHlater0. rewrite <- app_assoc in Hok. simpl in Hok.
    apply record_ok_app in Hok. simpl in Hok. destruct Hok as [_ Hiff].
    rewrite <- Hiff. split.
    + intros (later' & e & Heq & He). by apply app_inj_tail in Heq as [_ ->].
    + intros He. by exists later0, e0.
Qed.

Lemma record_inv_overwrite_after_eval new best later e earlier :
  record_inv new best ->
  new = later ++ e :: earlier -> is_overwrite e ->
  exists ep it tl v earlier', earlier = PrintEval ep it tl v :: earlier'.
Proof.
  intros (_ & Hok & _) -> He. apply record_ok_app in Hok. simpl in Hok.
  destruct Hok as [_ Hiff]. apply Hiff in He.
  destruct He as (ep & it & tl & v & earlier' & -> & _). by eexists _, _, _, _, _.
Qed.

Lemma losses_app t1 t2 : losses (t1 ++ t2) = losses t1 ++ losses t2.
Proof. apply omap_app. Qed.

Lemma benign_not_overwrite e : benign e -> ~ is_overwrite e.
Proof. by intros [_ ?]. Qed.

Lemma record_matches_nil : record_matches (C := C) [] PosInf None.
Proof. by split. Qed.

Lemma record_matches_cons e new best cfg :
  ~ is_overwrite e -> record_matches new best cfg ->
  record_matches (e :: new) best cfg.
Proof.
  intros He. destruct cfg as [c|]; simpl.
  - intros (later & e' & ep & it & tl & earlier & -> & Hc & Hlater).
    exists (e :: later), e', ep, it, tl, earlier.
    split; [done|]. split; [done|]. by constructor.
  - intros [-> Hnew]. split; [done|]. by constructor.
Qed.

Lemma record_matches_app mid new best cfg :
  Forall (fun e => ~ is_overwrite e) mid -> record_matches new best cfg ->
  record_matches (mid ++ new) best cfg.
Proof.
  induction 1 as [|e mid He _ IH]; [done|]. intros Hm.
  simpl. apply record_matches_cons; auto.
Qed.

Lemma record_matches_improve c e ep it tl v new :
  names_config c e ->
  record_matches (e :: PrintEval ep it tl v :: new) v (Some c).
Proof. intros Hc. by exists [], e, ep, it, tl, new. Qed.

(** For numbers, the record is below or equal to every loss seen. *)
Lemma running_best_le (l : list float) :
  Forall (fun u => is_finite u = true) l ->
  Forall (fun u => fle (running_best l) u = true) l.
Proof.
  induction 1 as [|u l Hu Hl IH]; [done|]. simpl.
  destruct (flt u (running_best l)) eqn:Hlt; constructor.
  - apply fle_refl. by destruct u.
  - eapply Forall_impl; [exact IH|]. intros x Hx. simpl in Hx.
    eapply fle_trans; [by apply flt_fle|done].
  - destruct u as [| |q|]; try done.
    pose proof (running_best_not_NaN l) as Hnan.
    destruct (running_best l) as [| |b|]; simpl in *; try done.
    apply Qle_bool_iff. by apply Qltb_ge in Hlt.
  - done.
Qed.

End RecordFacts.

(** ** Auto_Tune.py: the best-result record *)

Section AutoTuneRecord.
Import AutoTune.
Variable w : world.

Lemma evaluation_run (c : config) (iter : Z) (s : state) :
  evaluation w c iter s =
  match estimate_loss w s with
  | (Ok losses, s1) =>
      let s2 := log (PrintEval 0 iter losses.1 losses.2)
                    (set_val_loss losses.2 s1) in
      if flt losses.2 (best_val_loss s1)
      then (Ok tt, log (SaveBest c iter) (set_best losses.2 c s2))
      else (Ok tt, s2)
  | (Raise e, s1) => (Raise e, s1)
  end.
Proof.
  unfold evaluation, bind at 1.
  destruct (estimate_loss w s) as [[losses|e] s1]; [|done].
  unfold bind, modify, gets, ret. cbv beta iota zeta.
  change (best_val_loss (log _ (set_val_loss _ s1))) with (best_val_loss s1).
  by destruct (flt losses.2 (best_val_loss s1)).
Qed.

Lemma estimate_loss_frame (s0 : state) :
  preserves (at_frame is_estimator_event s0) (estimate_loss w).
Proof.
  intros s Hs. rewrite estimate_loss_run.
  set (s' := log ModelEval (set_training false s)).
  assert (at_frame is_estimator_event s0 s') as Hs'.
  { apply at_frame_log; [by right; left|done]. }
  assert (forall sp s1, at_frame is_estimator_event s0 s1 ->
            at_frame is_estimator_event s0 (estimate_split w sp s1).2) as Hsplit.
  { intros sp s1 Hs1. eapply at_frame_trans; [exact Hs1|].
    eapply at_frame_weaken; [|apply estimate_split_frame, at_frame_refl].
    intros e He. by left. }
  pose proof (Hsplit train s' Hs') as H1.
  destruct (estimate_split w train s') as [[a|e] s1]; [|done].
  pose proof (Hsplit val s1 H1) as H2.
  destruct (estimate_split w val s1) as [[b|e] s2]; [|done].
  simpl in *. apply at_frame_log; [by right; right|done].
Qed.

Lemma benign_estimator_event (e : event config) : is_estimator_event e -> benign e.
Proof.
  intros [(sp & pos & ->)|[->| ->]]; split;
    try (intros (? & ? & ? & ? & ?); discriminate);
    intros [(? & ? & ?)|(? & ? & ?)]; discriminate.
Qed.

Lemma optimization_step_frame (s0 : state) :
  preserves (at_frame is_at_step_event s0) (optimization_step w).
Proof.
  assert (forall s1, at_frame is_at_step_event s0 s1 ->
            at_frame is_at_step_event s0 (get_batch w train s1).2) as Hgb.
  { intros s1 Hs1. eapply at_frame_trans; [exact Hs1|].
    eapply at_frame_weaken; [|apply get_batch_frame, at_frame_refl].
    intros e He. by left. }
  unfold optimization_step.
  apply preserves_bind; [exact Hgb|intros b].
  apply preserves_bind; [apply call_model_frame|intros _].
  preserve; apply at_frame_log; try done; unfold is_at_step_event; tauto.
Qed.

Lemma benign_at_step_event (e : event config) : is_at_step_event e -> benign e.
Proof.
  intros He. split.
  - intros (? & ? & ? & ? & ->).
    destruct He as [(? & ? & ?)|He]; [done|]. by repeat destruct He as [He|He].
  - intros [(? & ? & ->)|(? & ? & ->)];
      (destruct He as [(? & ? & ?)|He]; [done|]); by repeat destruct He as [He|He].
Qed.

Section Invariants.
Variable t0 : list (event config).

Lemma at_record_inv_log (e : event config) (s : state) :
  benign e -> at_record_inv t0 s -> at_record_inv t0 (log e s).
Proof.
  intros He (new & Htr & Hinv & Hm). exists (e :: new). split; [|split].
  - simpl. by rewrite Htr.
  - by apply record_inv_benign_cons.
  - apply record_matches_cons; [by apply benign_not_overwrite|done].
Qed.

Lemma at_record_inv_frame (P : event config -> Prop) (s s' : state) :
  (forall e, P e -> benign e) ->
  at_frame P s s' -> at_record_inv t0 s -> at_record_inv t0 s'.
Proof.
  intros HP (_ & Hbest & Hcfg & _ & mid & Hmid & Htr) (new & Htr0 & Hinv & Hm).
  assert (Forall (benign (C := config)) mid) as Hben
      by (eapply Forall_impl; eauto).
  exists (mid ++ new). split; [|split].
  - by rewrite Htr, Htr0, app_assoc.
  - rewrite Hbest. by apply record_inv_benign.
  - rewrite Hbest, Hcfg. apply record_matches_app; [|done].
    eapply Forall_impl; [exact Hben|]. apply benign_not_overwrite.
Qed.

Lemma evaluation_record (c : config) (iter : Z) :
  preserves (at_record_inv t0) (evaluation w c iter).
Proof.
  intros s Hs. rewrite evaluation_run.
  pose proof (estimate_loss_frame s s (at_frame_refl _ _)) as Hf.
  destruct (estimate_loss w s) as [[losses|e] s1]; simpl in Hf |- *.
  2:{ eapply at_record_inv_frame; [apply benign_estimator_event|done|done]. }
  pose proof (at_record_inv_frame _ _ _ benign_estimator_event Hf Hs)
    as (new & Htr & Hinv & Hm).
  destruct (flt losses.2 (best_val_loss s1)) eqn:Hlt; simpl.
  - exists (SaveBest c iter :: PrintEval 0 iter losses.1 losses.2 :: new).
    split; [simpl; by rewrite Htr|]. split.
    + eapply record_inv_improve; [done| |done]. left. by eexists _, _.
    + apply record_matches_improve. left. by eexists.
  - exists (PrintEval 0 iter losses.1 losses.2 :: new).
    split; [simpl; by rewrite Htr|]. split.
    + by apply record_inv_keep.
    + apply record_matches_cons; [|done].
      intros [(? & ? & ?)|(? & ? & ?)]; discriminate.
Qed.

Lemma optimization_step_record :
  preserves (at_record_inv t0) (optimization_step w).
Proof.
  intros s Hs. eapply at_record_inv_frame; [apply benign_at_step_event| |done].
  apply optimization_step_frame, at_frame_refl.
Qed.

Ltac record_inv :=
  preserve; try done;
  try (apply at_record_inv_log; [|done]; split;
       [intros (? & ? & ? & ? & ?); discriminate
       |intros [(? & ? & ?)|(? & ? & ?)]; discriminate]).

Lemma trial_record (c : config) : preserves (at_record_inv t0) (trial w c).
Proof.
  unfold trial, iteration.
  pose proof evaluation_record. pose proof optimization_step_record.
  record_inv.
Qed.

Lemma trials_record (cs : list config) :
  preserves (at_record_inv t0) (for_each cs (trial w)).
Proof. apply preserves_for_each, trial_record. Qed.

End Invariants.

Lemma at_record_inv_enter (s : state) : at_record_inv (trace s) (enter s).
Proof.
  exists []. split; [done|]. split;
    [apply record_inv_nil|apply record_matches_nil].
Qed.

Lemma search_record_report (cs : list config) (s : state) :
  exists new,
    trace (search w cs s).2 = new ++ trace s /\
    record_inv new (best_val_loss (search w cs s).2) /\
    record_matches new (best_val_loss (search w cs s).2)
                   (best_hyperparams (search w cs s).2) /\
    match (search w cs s).1 with
    | Ok _ =>
        exists c rest,
          best_hyperparams (search w cs s).2 = Some c /\
          new = PrintBest c (best_val_loss (search w cs s).2) :: rest
    | Raise _ => True
    end.
Proof.
  rewrite search_run.
  pose proof (trials_record (trace s) cs (enter s) (at_record_inv_enter s)) as H.
  destruct (for_each cs (trial w) (enter s)) as [[[]|e] s1]; simpl in H.
  2:{ destruct H as (new & Htr & Hinv & Hm). by exists new. }
  destruct (best_hyperparams s1) as [c|] eqn:Hb; simpl.
  2:{ destruct H as (new & Htr & Hinv & Hm). by exists new. }
  destruct H as (new & Htr & Hinv & Hm).
  exists (PrintBest c (best_val_loss s1) :: new).
  split; [by rewrite Htr|]. split; [|split].
  - apply record_inv_benign_cons; [|done]. split.
    + intros (? & ? & ? & ? & ?); discriminate.
    + intros [(? & ? & ?)|(? & ? & ?)]; discriminate.
  - apply record_matches_cons; [|done].
    intros [(? & ? & ?)|(? & ? & ?)]; discriminate.
  - by exists c, new.
Qed.

Lemma search_record (cs : list config) (s : state) :
  at_record_inv (trace s) (search w cs s).2.
Proof.
  destruct (search_record_report cs s) as (new & Htr & Hinv & Hm & _).
  by exists new.
Qed.

(** The record never goes up and is never NaN. *)
Lemma evaluation_best_below (b : float) (c : config) (iter : Z) :
  preserves (at_best_below b) (evaluation w c iter).
Proof.
  intros s Hs. rewrite evaluation_run.
  pose proof (estimate_loss_frame s s (at_frame_refl _ _)) as Hf.
  destruct (estimate_loss w s) as [[losses|e] s1]; simpl in Hf;
    destruct Hf as (_ & Hbest & _); unfold at_best_below in *; simpl.
  2:{ by rewrite Hbest. }
  destruct (flt losses.2 (best_val_loss s1)) eqn:Hlt; simpl.
  - eapply fle_trans; [apply flt_fle, Hlt|]. by rewrite Hbest.
  - by rewrite Hbest.
Qed.

Lemma optimization_step_best_below (b : float) :
  preserves (at_best_below b) (optimization_step w).
Proof.
  intros s Hs. unfold at_best_below. rewrite optimization_step_run.
  pose proof (get_batch_frame w train s s (at_frame_refl _ _)) as Hf.
  destruct (get_batch w train s) as [[bt|e] s1]; simpl in Hf;
    destruct Hf as (_ & Hb & _); simpl; [|by rewrite Hb].
  unfold call_model. destruct (forward w (calls s1) bt); simpl; by rewrite Hb.
Qed.

Lemma trial_best_below (b : float) (c : config) :
  preserves (at_best_below b) (trial w c).
Proof.
  unfold trial, iteration.
  pose proof evaluation_best_below. pose proof optimization_step_best_below.
  preserve; done.
Qed.

End AutoTuneRecord.

(** In a run of the search of Auto_Tune.py, [best_model.pt] is saved only
    right after a validation loss is printed, and, among numbers, exactly
    when that loss is strictly below every validation loss printed before
    in the search, whatever the combination.  [new] is the part of the
    trace the search adds, newest event first. *)
Theorem at_saves_exactly_new_minima :
  forall (w : AutoTune.world) (cs : list AutoTune.config) (s : AutoTune.state),
  exists new,
    AutoTune.trace (AutoTune.search w cs s).2 = new ++ AutoTune.trace s /\
    (forall later e earlier,
        new = later ++ e :: earlier -> is_overwrite e ->
        exists ep it tl v earlier', earlier = PrintEval ep it tl v :: earlier') /\
    (forall later ep it tl v earlier,
        new = later ++ PrintEval ep it tl v :: earlier ->
        Forall (fun u => is_finite u = true) (losses earlier) ->
        is_finite v = true ->
        (exists later' e, later = later' ++ [e] /\ is_overwrite e) <->
        Forall (fun u => flt v u = true) (losses earlier)).
Proof.
  intros w cs s. destruct (search_record w cs s) as (new & Htr & Hinv & _).
  exists new. split; [done|]. split.
  - intros later e earlier Hnew He.
    by eapply record_inv_overwrite_after_eval.
  - intros later ep it tl v earlier Hnew Hfin Hv.
    rewrite (record_inv_overwrite_iff _ _ _ _ _ _ _ _ Hinv Hnew).
    by apply below_running_best.
Qed.

(** The best validation loss of Auto_Tune.py never rises and never becomes
    NaN: across one evaluation, and across any sequence of trials from any
    state. *)
Theorem at_best_val_loss_never_rises :
  (forall (w : AutoTune.world) c iter s,
      AutoTune.best_val_loss s <> NaN ->
      fle (AutoTune.best_val_loss (AutoTune.evaluation w c iter s).2)
          (AutoTune.best_val_loss s) = true) /\
  (forall (w : AutoTune.world) cs s,
      AutoTune.best_val_loss s <> NaN ->
      fle (AutoTune.best_val_loss (for_each cs (AutoTune.trial w) s).2)
          (AutoTune.best_val_loss s) = true).
Proof.
  split.
  - intros w c iter s Hs.
    apply (evaluation_best_below w (AutoTune.best_val_loss s) c iter s).
    by apply fle_refl.
  - intros w cs s Hs.
    apply (preserves_for_each (at_best_below (AutoTune.best_val_loss s)) cs
             (AutoTune.trial w) (trial_best_below w _) s).
    by apply fle_refl.
Qed.

Lemma at_best_val_loss_never_rises_witness :
  fle (AutoTune.best_val_loss
         (AutoTune.evaluation (at_world_oom (file_of_a 10000) (file_of_a 10000))
                              (AutoTune.Config (1 # 1000) 64 (1 # 10) 128 6 4) 0
                              AutoTune.initial).2)
      (AutoTune.best_val_loss AutoTune.initial) = true /\
  fle (AutoTune.best_val_loss
         (for_each AutoTune.grid (AutoTune.trial at_world_full_memory)
                   AutoTune.initial).2)
      (AutoTune.best_val_loss AutoTune.initial) = true.
Proof.
  split.
  - apply (proj1 at_best_val_loss_never_rises). discriminate.
  - apply (proj2 at_best_val_loss_never_rises). discriminate.
Defined.

(** What the search of Auto_Tune.py holds as its best result is what it
    saved last: [best_hyperparams] is unset and nothing was saved, or it
    is the combination of the latest save and [best_val_loss] is the loss
    printed right before that save.  Among numbers that loss is the
    lowest validation loss printed in the search.  A search that returns
    has just printed this combination and loss. *)
Theorem at_record_is_latest_save_and_minimum :
  forall (w : AutoTune.world) (cs : list AutoTune.config) (s : AutoTune.state),
  exists new,
    AutoTune.trace (AutoTune.search w cs s).2 = new ++ AutoTune.trace s /\
    record_matches new (AutoTune.best_val_loss (AutoTune.search w cs s).2)
                   (AutoTune.best_hyperparams (AutoTune.search w cs s).2) /\
    (Forall (fun u => is_finite u = true) (losses new) ->
     Forall (fun u => fle (AutoTune.best_val_loss (AutoTune.search w cs s).2) u
                      = true)
            (losses new)) /\
    match (AutoTune.search w cs s).1 with
    | Ok _ =>
        exists c rest,
          AutoTune.best_hyperparams (AutoTune.search w cs s).2 = Some c /\
          new = PrintBest c (AutoTune.best_val_loss (AutoTune.search w cs s).2)
                  :: rest
    | Raise _ => True
    end.
Proof.
  intros w cs s.
  destruct (search_record_report w cs s) as (new & Htr & (Hbest & Hinv) & Hm & Hp).
  exists new. split; [done|]. split; [done|]. split; [|done].
  intros Hfin. rewrite Hbest. by apply running_best_le.
Qed.

(** ** GPT_Trainer-subword.py: what each piece of the training touches *)

Section SubwordFrames.
Local Abbreviation train_split := train.
Import Subword.
Variable w : world.

Lemma sw_frame_refl P s : sw_frame P s s.
Proof. repeat split. by exists []. Qed.

Lemma sw_frame_log (P : event config -> Prop) s0 s e :
  P e -> sw_frame P s0 s -> sw_frame P s0 (log e s).
Proof.
  intros He (? & ? & ? & ? & new & Hnew & Htr). repeat split; try done.
  exists (e :: new). split; [by constructor|]. simpl. by rewrite Htr.
Qed.

Lemma sw_frame_weaken (P Q : event config -> Prop) s0 s :
  (forall e, P e -> Q e) -> sw_frame P s0 s -> sw_frame Q s0 s.
Proof.
  intros HPQ (? & ? & ? & ? & new & Hnew & Htr). repeat split; try done.
  exists new. split; [|done]. eapply Forall_impl; eauto.
Qed.

Lemma sw_frame_trans (P : event config -> Prop) s0 s1 s2 :
  sw_frame P s0 s1 -> sw_frame P s1 s2 -> sw_frame P s0 s2.
Proof.
  intros (? & ? & ? & ? & new1 & Hnew1 & Htr1) (? & ? & ? & ? & new2 & Hnew2 & Htr2).
  repeat split; try congruence.
  exists (new2 ++ new1). split; [by apply Forall_app|].
  by rewrite Htr2, Htr1, app_assoc.
Qed.

Lemma sw_get_random_chunk_rec_frame (depth : nat) (sp : split) s0 :
  preserves (sw_frame is_sw_sampler_event s0) (get_random_chunk_rec w depth sp).
Proof.
  induction depth as [|depth IH]; [apply preserves_raise|].
  cbn [get_random_chunk_rec]. preserve; try done.
  - apply sw_frame_log; [by left; eexists _, _|done].
  - apply sw_frame_log; [by right|done].
Qed.

Lemma sw_get_batch_frame (sp : split) s0 :
  preserves (sw_frame is_sw_sampler_event s0) (get_batch w sp).
Proof.
  unfold get_batch, get_random_chunk, batch_of_chunk.
  apply preserves_bind; [apply sw_get_random_chunk_rec_frame|intros data].
  preserve; done.
Qed.

Lemma sw_call_model_frame P (b : batch) s0 :
  preserves (sw_frame P s0) (call_model w b).
Proof. by intros s Hs. Qed.

Lemma sw_evaluate_model_frame s0 :
  preserves (sw_frame is_sw_estimator_event s0) (evaluate_model w).
Proof.
  assert (preserves (sw_frame is_sw_estimator_event s0) (get_batch w val)) as Hgb.
  { intros s1 Hs1. eapply sw_frame_trans; [exact Hs1|].
    eapply sw_frame_weaken; [|apply sw_get_batch_frame, sw_frame_refl].
    intros e He. by left. }
  pose proof (sw_call_model_frame is_sw_estimator_event) as Hcm.
  unfold evaluate_model. preserve; try done.
  all: apply sw_frame_log; [by right|done].
Qed.

Lemma sw_optimization_step_frame s0 :
  preserves (sw_frame is_sw_step_event s0) (optimization_step w).
Proof.
  assert (preserves (sw_frame is_sw_step_event s0) (get_batch w train_split)) as Hgb.
  { intros s1 Hs1. eapply sw_frame_trans; [exact Hs1|].
    eapply sw_frame_weaken; [|apply sw_get_batch_frame, sw_frame_refl].
    intros e He. by left. }
  pose proof (sw_call_model_frame is_sw_step_event) as Hcm.
  unfold optimization_step.
  preserve; try done; apply sw_frame_log; try done;
    unfold is_sw_step_event; tauto.
Qed.

Lemma sw_evaluation_run (c : config) (epoch it : Z) (s : state) :
  evaluation w c epoch it s =
  match evaluate_model w s with
  | (Ok v, s1) =>
      let s2 := set_total_loss (Fin 0)
                  (log (PrintEval epoch it
                          (fdiv_pos (total_loss s1) eval_interval) v)
                       (set_val_loss v s1)) in
      if flt v (best_val_loss s1)
      then (Ok Continue,
            set_plateau_count 0 (log (PrintNewBest c v) (set_best v c s2)))
      else
        let s3 := set_plateau_count (plateau_count s1 + 1) s2 in
        if patience <=? plateau_count s1 + 1
        then (Ok Break, log PrintPlateaued s3)
        else (Ok Continue, s3)
  | (Raise e, s1) => (Raise e, s1)
  end.
Proof.
  unfold evaluation, bind at 1.
  destruct (evaluate_model w s) as [[v|e] s1]; [|done].
  unfold bind, modify, gets, ret. cbv beta iota zeta.
  change (best_val_loss (set_total_loss _ (log _ (set_val_loss v s1))))
    with (best_val_loss s1).
  destruct (flt v (best_val_loss s1)); [done|].
  change (plateau_count (set_total_loss _ (log _ (set_val_loss v s1))))
    with (plateau_count s1).
  by destruct (patience <=? plateau_count s1 + 1).
Qed.

End SubwordFrames.

(** ** GPT_Trainer-subword.py: the best-result record *)

Section SubwordRecord.
Import Subword.
Variable w : world.

Lemma benign_sw_estimator_event (e : event config) :
  is_sw_estimator_event e -> benign e.
Proof.
  intros [[(sp & pos & ->)| ->]| ->]; split;
    try (intros (? & ? & ? & ? & ?); discriminate);
    intros [(? & ? & ?)|(? & ? & ?)]; discriminate.
Qed.

Lemma benign_sw_step_event (e : event config) : is_sw_step_event e -> benign e.
Proof.
  intros [[(sp & pos & ->)| ->]|[->|[->|[->| ->]]]]; split;
    try (intros (? & ? & ? & ? & ?); discriminate);
    intros [(? & ? & ?)|(? & ? & ?)]; discriminate.
Qed.

Section Invariants.
Variable t0 : list (event config).

Lemma sw_record_inv_log (e : event config) (s : state) :
  benign e -> sw_record_inv t0 s -> sw_record_inv t0 (log e s).
Proof.
  intros He (new & Htr & Hinv & Hm). exists (e :: new). split; [|split].
  - simpl. by rewrite Htr.
  - by apply record_inv_benign_cons.
  - apply record_matches_cons; [by apply benign_not_overwrite|done].
Qed.

Lemma sw_record_inv_frame (P : event config -> Prop) (s s' : state) :
  (forall e, P e -> benign e) ->
  sw_frame P s s' -> sw_record_inv t0 s -> sw_record_inv t0 s'.
Proof.
  intros HP (Hbest & Hcfg & _ & _ & mid & Hmid & Htr) (new & Htr0 & Hinv & Hm).
  assert (Forall (benign (C := config)) mid) as Hben
      by (eapply Forall_impl; eauto).
  exists (mid ++ new). split; [|split].
  - by rewrite Htr, Htr0, app_assoc.
  - rewrite Hbest. by apply record_inv_benign.
  - rewrite Hbest, Hcfg. apply record_matches_app; [|done].
    eapply Forall_impl; [exact Hben|]. apply benign_not_overwrite.
Qed.

Lemma sw_evaluation_record (c : config) (epoch it : Z) :
  preserves (sw_record_inv t0) (evaluation w c epoch it).
Proof.
  intros s Hs. rewrite sw_evaluation_run.
  pose proof (sw_evaluate_model_frame w s s (sw_frame_refl _ _)) as Hf.
  destruct (evaluate_model w s) as [[v|e] s1]; simpl in Hf |- *.
  2:{ eapply sw_record_inv_frame; [apply benign_sw_estimator_event|done|done]. }
  pose proof (sw_record_inv_frame _ _ _ benign_sw_estimator_event Hf Hs)
    as (new & Htr & Hinv & Hm).
  destruct (flt v (best_val_loss s1)) eqn:Hlt.
  - exists (PrintNewBest c v
              :: PrintEval epoch it (fdiv_pos (total_loss s1) eval_interval) v
              :: new).
    split; [simpl; by rewrite Htr|]. split.
    + eapply record_inv_improve; [done| |done]. right. by eexists _, _.
    + apply record_matches_improve. right. by eexists.
  - assert (sw_record_inv t0
              (set_plateau_count (plateau_count s1 + 1)
                 (set_total_loss (Fin 0)
                    (log (PrintEval epoch it
                            (fdiv_pos (total_loss s1) eval_interval) v)
                         (set_val_loss v s1))))) as Hkeep.
    { exists (PrintEval epoch it (fdiv_pos (total_loss s1) eval_interval) v
                :: new).
      split; [simpl; by rewrite Htr|]. split.
      - by apply record_inv_keep.
      - apply record_matches_cons; [|done].
        intros [(? & ? & ?)|(? & ? & ?)]; discriminate. }
    destruct (patience <=? plateau_count s1 + 1); simpl; [|done].
    apply sw_record_inv_log; [|done]. split.
    + intros (? & ? & ? & ? & ?); discriminate.
    + intros [(? & ? & ?)|(? & ? & ?)]; discriminate.
Qed.

Lemma sw_optimization_step_record :
  preserves (sw_record_inv t0) (optimization_step w).
Proof.
  intros s Hs. eapply sw_record_inv_frame; [apply benign_sw_step_event| |done].
  apply sw_optimization_step_frame, sw_frame_refl.
Qed.

Ltac record_inv :=
  preserve; try done;
  try (apply sw_record_inv_log; [|done]; split;
       [intros (? & ? & ? & ? & ?); discriminate
       |intros [(? & ? & ?)|(? & ? & ?)]; discriminate]).

Lemma sw_trial_record (epochs : Z) (c : config) :
  preserves (sw_record_inv t0) (trial w epochs c).
Proof.
  unfold trial, run_epoch, iteration.
  pose proof sw_evaluation_record. pose proof sw_optimization_step_record.
  record_inv.
Qed.

Lemma sw_trials_record (epochs : Z) (cs : list config) :
  preserves (sw_record_inv t0) (for_each cs (trial w epochs)).
Proof. apply preserves_for_each, sw_trial_record. Qed.

End Invariants.

Lemma sw_record_inv_enter (s : state) : sw_record_inv (trace s) (enter s).
Proof.
  exists []. split; [done|]. split;
    [apply record_inv_nil|apply record_matches_nil].
Qed.

Lemma sw_train_record_report (cs : list config) (epochs : Z) (s : state) :
  exists new,
    trace (train w cs epochs s).2 = new ++ trace s /\
    record_inv new (best_val_loss (train w cs epochs s).2) /\
    record_matches new (best_val_loss (train w cs epochs s).2)
                   (best_config (train w cs epochs s).2) /\
    match (train w cs epochs s).1 with
    | Ok _ =>
        exists c rest,
          best_config (train w cs epochs s).2 = Some c /\
          new = PrintBest c (best_val_loss (train w cs epochs s).2) :: rest
    | Raise _ => True
    end.
Proof.
  rewrite train_run.
  pose proof (sw_trials_record (trace s) epochs cs (enter s)
                (sw_record_inv_enter s)) as H.
  destruct (for_each cs (trial w epochs) (enter s)) as [[[]|e] s1]; simpl in H.
  2:{ destruct H as (new & Htr & Hinv & Hm). by exists new. }
  destruct (best_config s1) as [c|] eqn:Hb; simpl.
  2:{ destruct H as (new & Htr & Hinv & Hm). by exists new. }
  destruct H as (new & Htr & Hinv & Hm).
  exists (PrintBest c (best_val_loss s1) :: new).
  split; [by rewrite Htr|]. split; [|split].
  - apply record_inv_benign_cons; [|done]. split.
    + intros (? & ? & ? & ? & ?); discriminate.
    + intros [(? & ? & ?)|(? & ? & ?)]; discriminate.
  - apply record_matches_cons; [|done].
    intros [(? & ? & ?)|(? & ? & ?)]; discriminate.
  - by exists c, new.
Qed.

(** The record never goes up and is never NaN. *)
Lemma sw_evaluation_best_below (b : float) (c : config) (epoch it : Z) :
  preserves (sw_best_below b) (evaluation w c epoch it).
Proof.
  intros s Hs. rewrite sw_evaluation_run.
  pose proof (sw_evaluate_model_frame w s s (sw_frame_refl _ _)) as Hf.
  destruct (evaluate_model w s) as [[v|e] s1]; simpl in Hf;
    destruct Hf as (Hbest & _); unfold sw_best_below in *; simpl.
  2:{ by rewrite Hbest. }
  destruct (flt v (best_val_loss s1)) eqn:Hlt; simpl.
  - eapply fle_trans; [apply flt_fle, Hlt|]. by rewrite Hbest.
  - destruct (patience <=? plateau_count s1 + 1); simpl; by rewrite Hbest.
Qed.

Lemma sw_optimization_step_best_below (b : float) :
  preserves (sw_best_below b) (optimization_step w).
Proof.
  intros s Hs.
  destruct (sw_optimization_step_frame w s s (sw_frame_refl _ _)) as (Hb & _).
  unfold sw_best_below. by rewrite Hb.
Qed.

Lemma sw_trial_best_below (b : float) (epochs : Z) (c : config) :
  preserves (sw_best_below b) (trial w epochs c).
Proof.
  unfold trial, run_epoch, iteration.
  pose proof sw_evaluation_best_below. pose proof sw_optimization_step_best_below.
  preserve; done.
Qed.

End SubwordRecord.

(** ** GPT_Trainer-subword.py: the plateau counter *)

Section SubwordPlateau.
Import Subword.
Variable w : world.
Variable t0 : list (event config).

Lemma sw_running_frame (P : event config -> Prop) (s s' : state) :
  (forall e, P e -> e <> PrintPlateaued) ->
  sw_frame P s s' -> sw_running t0 s -> sw_running t0 s'.
Proof.
  intros HP (_ & _ & Hn & _ & mid & Hmid & Htr) (Hcount & new & Htr0 & Hnew).
  split; [by rewrite Hn|]. exists (mid ++ new). split.
  - by rewrite Htr, Htr0, app_assoc.
  - apply Forall_app. split; [|done]. eapply Forall_impl; eauto.
Qed.

Lemma sw_estimator_not_plateaued (e : event config) :
  is_sw_estimator_event e -> e <> PrintPlateaued.
Proof. intros [[(? & ? & ->)| ->]| ->]; discriminate. Qed.

Lemma sw_step_not_plateaued (e : event config) :
  is_sw_step_event e -> e <> PrintPlateaued.
Proof. intros [[(? & ? & ->)| ->]|[->|[->|[->| ->]]]]; discriminate. Qed.

Lemma sw_running_log (e : event config) (s : state) :
  e <> PrintPlateaued -> sw_running t0 s -> sw_running t0 (log e s).
Proof.
  intros He (Hcount & new & Htr & Hnew). split; [done|].
  exists (e :: new). split; [simpl; by rewrite Htr|by constructor].
Qed.

Lemma sw_exhausted_log (e : event config) (s : state) :
  is_closing_event e -> sw_exhausted t0 s -> sw_exhausted t0 (log e s).
Proof.
  intros He (Hcount & tail & new & Htr & Hnew & Htail). split; [done|].
  exists (e :: tail), new. split; [simpl; by rewrite Htr|].
  split; [done|by constructor].
Qed.

Lemma sw_optimization_step_running :
  preserves (sw_running t0) (optimization_step w).
Proof.
  intros s Hs. eapply sw_running_frame; [apply sw_step_not_plateaued| |done].
  apply sw_optimization_step_frame, sw_frame_refl.
Qed.

Lemma patience_positive : 0 < patience.
Proof. reflexivity. Qed.

Lemma sw_evaluation_plateau (c : config) (epoch it : Z) :
  hoare (sw_running t0) (evaluation w c epoch it)
        (fun r s => match r with
                    | Ok Continue => sw_running t0 s
                    | Ok Break => sw_exhausted t0 s
                    | Raise _ => sw_running t0 s
                    end).
Proof.
  intros s Hs. rewrite sw_evaluation_run.
  pose proof (sw_evaluate_model_frame w s s (sw_frame_refl _ _)) as Hf.
  destruct (evaluate_model w s) as [[v|e] s1]; simpl in Hf |- *.
  2:{ eapply sw_running_frame; [apply sw_estimator_not_plateaued|done|done]. }
  pose proof (sw_running_frame _ _ _ sw_estimator_not_plateaued Hf Hs)
    as (Hcount & new & Htr & Hnew).
  pose proof patience_positive.
  destruct (flt v (best_val_loss s1)); simpl.
  - split; [simpl; lia|].
    eexists (_ :: _ :: new). split; [simpl; by rewrite Htr|].
    by repeat constructor.
  - destruct (Z.leb_spec patience (plateau_count s1 + 1)); simpl.
    + split; [simpl; lia|].
      exists [], (PrintEval epoch it (fdiv_pos (total_loss s1) eval_interval) v
                    :: new).
      split; [simpl; by rewrite Htr|]. split; [by constructor|done].
    + split; [simpl; lia|].
      eexists (_ :: new). split; [simpl; by rewrite Htr|by constructor].
Qed.

Lemma sw_iteration_plateau (c : config) (epoch it : Z) :
  hoare (sw_running t0) (iteration w c epoch it)
        (fun r s => match r with
                    | Ok Continue => sw_running t0 s
                    | Ok Break => sw_exhausted t0 s
                    | Raise _ => sw_running t0 s
                    end).
Proof.
  unfold iteration.
  eapply hoare_bind; [apply sw_optimization_step_running| |done].
  intros []. destruct (decide (it `mod` eval_interval = 0)).
  - apply sw_evaluation_plateau.
  - by intros s Hs.
Qed.

Lemma sw_run_epoch_plateau (c : config) (epoch : Z) :
  hoare (sw_running t0) (run_epoch w c epoch)
        (fun r s => match r with
                    | Ok Continue => sw_running t0 s
                    | Ok Break => sw_exhausted t0 s
                    | Raise _ => sw_running t0 s \/ sw_exhausted t0 s
                    end).
Proof.
  unfold run_epoch.
  eapply hoare_bind;
    [apply preserves_modify; intros s Hs; exact Hs| |intros ? ? ?; by left].
  intros []. eapply hoare_bind;
    [apply preserves_modify; intros s Hs; by apply (sw_running_log ModelTrain)
    | |intros ? ? ?; by left].
  intros []. eapply hoare_bind;
    [apply preserves_modify; intros s Hs; exact Hs| |intros ? ? ?; by left].
  intros []. eapply hoare_bind.
  - apply hoare_for_each_break, sw_iteration_plateau.
  - intros [] s Hs. unfold bind, gets, modify, ret, raise.
    destruct (val_loss s) as [v|]; cbn [fst snd]. 2:{ exact Hs. }
    assert (is_closing_event (SchedulerStep (C := config) (Some v))) as H1
        by (left; by eexists).
    assert (is_closing_event (PrintLR (C := config))) as H2 by (right; by left).
    assert (is_closing_event (SaveCheckpoint (C := config) epoch v)) as H3
        by (right; right; by eexists _, _).
    change (plateau_count (log _ (log _ (log _ s)))) with (plateau_count s).
    destruct Hs as [Hrun|Hex].
    + assert ((patience <=? plateau_count s) = false) as ->.
      { destruct Hrun as (Hc & _). apply Z.leb_gt. lia. }
      cbn [fst snd]. by do 3 (apply sw_running_log; [done|]).
    + assert ((patience <=? plateau_count s) = true) as ->.
      { destruct Hex as (Hc & _). apply Z.leb_le. lia. }
      cbn [fst snd]. by do 3 (apply sw_exhausted_log; [done|]).
  - intros e s Hs. by left.
Qed.

End SubwordPlateau.

Lemma sw_trial_run (w : Subword.world) (epochs : Z) (c : Subword.config)
      (s : Subword.state) :
  Subword.trial w epochs c s =
  match for_each (range1 epochs) (Subword.run_epoch w c)
                 (Subword.set_plateau_count 0
                    (Subword.log (PrintTrial c) (Subword.set_training true s)))
  with
  | (Ok _, s2) => (Ok Continue, s2)
  | (Raise e, s2) => (Raise e, s2)
  end.
Proof.
  unfold Subword.trial, bind, modify, ret.
  by destruct (for_each _ _ _) as [[[]|e] s2].
Qed.

Lemma sw_trial_plateau (w : Subword.world) (epochs : Z) (c : Subword.config)
      (s : Subword.state) :
  let t0 := PrintTrial c :: Subword.trace s in
  sw_running t0 (Subword.trial w epochs c s).2 \/
  sw_exhausted t0 (Subword.trial w epochs c s).2.
Proof.
  intros t0. rewrite sw_trial_run.
  set (s1 := Subword.set_plateau_count 0 _).
  assert (sw_running t0 s1) as Hs1.
  { split; [cbn; pose proof patience_positive; lia|]. by exists []. }
  pose proof (hoare_for_each_break _ _ _ (range1 epochs) (Subword.run_epoch w c)
                (sw_run_epoch_plateau w t0 c) s1 Hs1) as Hloop.
  destruct (for_each (range1 epochs) (Subword.run_epoch w c) s1)
    as [[[]|e] s2]; cbn [fst snd] in *; exact Hloop.
Qed.

(** In a run of the training of GPT_Trainer-subword.py, a new best
    configuration is announced only right after a validation loss is
    printed, and, among numbers, exactly when that loss is strictly below
    every validation loss printed before in the run, whatever the optimizer
    and learning rate.  [new] is the part of the trace the run adds,
    newest event first. *)
Theorem sw_new_best_exactly_new_minima :
  forall (w : Subword.world) (cs : list Subword.config) (epochs : Z)
         (s : Subword.state),
  exists new,
    Subword.trace (Subword.train w cs epochs s).2 = new ++ Subword.trace s /\
    (forall later e earlier,
        new = later ++ e :: earlier -> is_overwrite e ->
        exists ep it tl v earlier', earlier = PrintEval ep it tl v :: earlier') /\
    (forall later ep it tl v earlier,
        new = later ++ PrintEval ep it tl v :: earlier ->
        Forall (fun u => is_finite u = true) (losses earlier) ->
        is_finite v = true ->
        (exists later' e, later = later' ++ [e] /\ is_overwrite e) <->
        Forall (fun u => flt v u = true) (losses earlier)).
Proof.
  intros w cs epochs s.
  destruct (sw_train_record_report w cs epochs s) as (new & Htr & Hinv & _).
  exists new. split; [done|]. split.
  - intros later e earlier Hnew He.
    by eapply record_inv_overwrite_after_eval.
  - intros later ep it tl v earlier Hnew Hfin Hv.
    rewrite (record_inv_overwrite_iff _ _ _ _ _ _ _ _ Hinv Hnew).
    by apply below_running_best.
Qed.

(** The best validation loss of GPT_Trainer-subword.py never rises and
    never becomes NaN: across one evaluation, and across any sequence of
    trials from any state. *)
Theorem sw_best_val_loss_never_rises :
  (forall (w : Subword.world) c epoch it s,
      Subword.best_val_loss s <> NaN ->
      fle (Subword.best_val_loss (Subword.evaluation w c epoch it s).2)
          (Subword.best_val_loss s) = true) /\
  (forall (w : Subword.world) epochs cs s,
      Subword.best_val_loss s <> NaN ->
      fle (Subword.best_val_loss (for_each cs (Subword.trial w epochs) s).2)
          (Subword.best_val_loss s) = true).
Proof.
  split.
  - intros w c epoch it s Hs.
    apply (sw_evaluation_best_below w (Subword.best_val_loss s) c epoch it s).
    by apply fle_refl.
  - intros w epochs cs s Hs.
    apply (preserves_for_each (sw_best_below (Subword.best_val_loss s)) cs
             (Subword.trial w epochs) (sw_trial_best_below w _ epochs) s).
    by apply fle_refl.
Qed.

Lemma sw_best_val_loss_never_rises_witness :
  fle (Subword.best_val_loss
         (Subword.evaluation (sw_world [] [] (fun _ => Ok (Fin 1)))
                             (Subword.AdamW, 1 # 10000)%Q 1 500
                             Subword.initial).2)
      (Subword.best_val_loss Subword.initial) = true /\
  fle (Subword.best_val_loss
         (for_each Subword.configs
                   (Subword.trial (sw_world [] [] (fun _ => Ok (Fin 1))) 10)
                   Subword.initial).2)
      (Subword.best_val_loss Subword.initial) = true.
Proof.
  split.
  - apply (proj1 sw_best_val_loss_never_rises). discriminate.
  - apply (proj2 sw_best_val_loss_never_rises). discriminate.
Defined.

(** What the training of GPT_Trainer-subword.py holds as its best result
    is what it announced last: [best_config] is unset and nothing was
    announced, or it is the configuration of the latest announcement and
    [best_val_loss] is the loss printed right before it.  Among numbers
    that loss is the lowest validation loss printed in the run.  A run
    that returns has just printed this configuration and loss. *)
Theorem sw_record_is_latest_best_and_minimum :
  forall (w : Subword.world) (cs : list Subword.config) (epochs : Z)
         (s : Subword.state),
  exists new,
    Subword.trace (Subword.train w cs epochs s).2 = new ++ Subword.trace s /\
    record_matches new (Subword.best_val_loss (Subword.train w cs epochs s).2)
                   (Subword.best_config (Subword.train w cs epochs s).2) /\
    (Forall (fun u => is_finite u = true) (losses new) ->
     Forall (fun u => fle (Subword.best_val_loss (Subword.train w cs epochs s).2)
                          u = true)
            (losses new)) /\
    match (Subword.train w cs epochs s).1 with
    | Ok _ =>
        exists c rest,
          Subword.best_config (Subword.train w cs epochs s).2 = Some c /\
          new = PrintBest c (Subword.best_val_loss (Subword.train w cs epochs s).2)
                  :: rest
    | Raise _ => True
    end.
Proof.
  intros w cs epochs s.
  destruct (sw_train_record_report w cs epochs s)
    as (new & Htr & (Hbest & Hinv) & Hm & Hp).
  exists new. split; [done|]. split; [done|]. split; [|done].
  intros Hfin. rewrite Hbest. by apply running_best_le.
Qed.

(** The plateau counter of GPT_Trainer-subword.py at one evaluation: a
    validation loss strictly below the best loss of the whole run so far
    sets the counter to 0 and becomes the record; any other loss adds 1 to
    the counter and leaves the record, and the loop over the iterations is
    left exactly when the counter has then reached the patience.  An
    evaluation that raises changes neither. *)
Theorem sw_plateau_counter_rule :
  forall (w : Subword.world) c epoch it (s : Subword.state),
    let r := Subword.evaluation w c epoch it s in
    match r.1 with
    | Ok ctl =>
        exists v,
          Subword.val_loss r.2 = Some v /\
          if flt v (Subword.best_val_loss s)
          then Subword.plateau_count r.2 = 0 /\ ctl = Continue /\
               Subword.best_val_loss r.2 = v /\
               Subword.best_config r.2 = Some c
          else Subword.plateau_count r.2 = Subword.plateau_count s + 1 /\
               Subword.best_val_loss r.2 = Subword.best_val_loss s /\
               Subword.best_config r.2 = Subword.best_config s /\
               (ctl = Break <-> Subword.patience <= Subword.plateau_count s + 1)
    | Raise _ =>
        Subword.plateau_count r.2 = Subword.plateau_count s /\
        Subword.best_val_loss r.2 = Subword.best_val_loss s /\
        Subword.best_config r.2 = Subword.best_config s
    end.
Proof.
  intros w c epoch it s. cbv zeta. rewrite sw_evaluation_run.
  pose proof (sw_evaluate_model_frame w s s (sw_frame_refl _ _)) as Hf.
  destruct (Subword.evaluate_model w s) as [[v|e] s1]; simpl in Hf;
    destruct Hf as (Hbest & Hcfg & Hn & _); [|done].
  rewrite Hbest, Hn.
  destruct (flt v (Subword.best_val_loss s)) eqn:Hlt; cbn [fst snd].
  { exists v. rewrite Hlt. simpl. by repeat split. }
  destruct (Z.leb_spec Subword.patience (Subword.plateau_count s + 1));
    cbn [fst snd]; exists v; rewrite Hlt; simpl.
  - repeat split; try done.
  - repeat split; try done; lia.
Qed.

(** In one trial of GPT_Trainer-subword.py the plateau counter stays
    between 0 and the patience; the plateau message is printed at most
    once, exactly when the counter has reached the patience, and after it
    the trial logs nothing but the scheduler step, the learning-rate
    message and the checkpoint that end the epoch: no further
    optimization step and no further evaluation. *)
Theorem sw_trial_gives_up_once :
  forall (w : Subword.world) (epochs : Z) c (s : Subword.state),
    let s' := (Subword.trial w epochs c s).2 in
    exists new,
      Subword.trace s' = new ++ PrintTrial c :: Subword.trace s /\
      0 <= Subword.plateau_count s' <= Subword.patience /\
      ((Subword.plateau_count s' < Subword.patience /\
        Forall (fun e => e <> PrintPlateaued) new) \/
       (Subword.plateau_count s' = Subword.patience /\
        exists tail earlier,
          new = tail ++ PrintPlateaued :: earlier /\
          Forall (fun e => e <> PrintPlateaued) earlier /\
          Forall is_closing_event tail)).
Proof.
  intros w epochs c s.
  destruct (sw_trial_plateau w epochs c s)
    as [(Hc & new & Htr & Hnew)|(Hc & tail & new & Htr & Hnew & Htail)].
  - exists new. split; [done|]. split; [lia|]. left. split; [lia|done].
  - exists (tail ++ PrintPlateaued :: new). cbv zeta.
    split; [by rewrite Htr, <- app_assoc|].
    pose proof patience_positive. split; [lia|]. right. split; [done|].
    by exists tail, new.
Qed.

(** ** GPT_Trainer-subword.py: a trial that is given up *)

Lemma torch_stack_same_length {A} (rows : list (list A)) (n : nat) :
  rows <> [] -> Forall (fun r => length r = n) rows ->
  torch_stack rows = Ok rows.
Proof.
  intros Hne Hlen. unfold torch_stack. destruct rows as [|r rest]; [done|].
  apply Forall_cons in Hlen as [Hr Hrest].
  assert (forallb (fun r' => Nat.eqb (length r') (length r)) rest = true) as ->;
    [|done].
  apply forallb_forall. intros r' Hr'%list_elem_of_In.
  apply Nat.eqb_eq. rewrite Hr. by eapply (proj1 (Forall_forall _ _) Hrest).
Qed.

Lemma updates_app {C} (t1 t2 : list (event C)) :
  updates (t1 ++ t2) = (updates t1 + updates t2)%nat.
Proof. unfold updates. by rewrite List.filter_app, length_app. Qed.

(** A loop ends at a break. *)
Lemma for_each_break_first {S X} (x : X) (xs : list X) (body : X -> M S ctl)
      (s s' : S) :
  body x s = (Ok Break, s') -> for_each (x :: xs) body s = (Ok tt, s').
Proof. intros Hrun. cbn [for_each]. by rewrite Hrun. Qed.

Section SubwordProgress.
Local Abbreviation train_split := train.
Import Subword.
Variable w : world.
Hypothesis Hhealthy : sw_healthy w.

Lemma sw_updates_sampler (mid : list (event config)) :
  Forall is_sw_sampler_event mid -> updates mid = 0%nat.
Proof.
  induction 1 as [|e mid He _ IH]; [done|].
  change (e :: mid) with ([e] ++ mid). rewrite updates_app, IH.
  by destruct He as [(? & ? & ->)| ->].
Qed.

Lemma sw_losses_sampler (mid : list (event config)) :
  Forall is_sw_sampler_event mid -> losses mid = [].
Proof.
  intros Hmid. rewrite <- (app_nil_r mid). apply (losses_benign mid []).
  eapply Forall_impl; [done|].
  intros e He. apply benign_sw_estimator_event. by left.
Qed.

(** The batch is there, and all that happened is sampling. *)
Lemma sw_get_batch_returns (sp : split) (s : state) :
  exists b s', get_batch w sp s = (Ok b, s') /\
               sw_frame is_sw_sampler_event s s' /\
               total_loss s' = total_loss s.
Proof.
  destruct (Hhealthy sp) as [Hsize Hlong]. cbv zeta in Hsize, Hlong.
  assert (block_size = 128) as Hbs by reflexivity.
  assert (batch_size = 32) as Hbt by reflexivity.
  assert (block_size * batch_size = 4096) as Hneed by reflexivity.
  pose proof (sw_get_batch_frame w sp s s (sw_frame_refl _ _)) as Hf.
  assert (total_loss (get_batch w sp s).2 = total_loss s) as Htl.
  { assert (preserves (fun s' => total_loss s' = total_loss s) (get_batch w sp))
      as Hp; [|by apply Hp].
    unfold get_batch, get_random_chunk, batch_of_chunk.
    apply preserves_bind.
    - generalize (S (recursion_limit w)). intros depth.
      induction depth as [|depth IH]; [apply preserves_raise|].
      cbn [get_random_chunk_rec]. preserve; done.
    - intros data. preserve; done. }
  assert (is_ok (get_batch w sp s).1 = true) as Hok.
  { unfold get_batch, get_random_chunk. cbn [get_random_chunk_rec].
    destruct (decide (file_of w sp = [])) as [Hnil|_].
    { rewrite Hnil in Hsize. cbn [length] in Hsize. lia. }
    unfold bind at 1. unfold bind at 1, next_draws. unfold bind at 1, lift at 1.
    destruct (random_randint 0 _ _) as [pos|e] eqn:Hpos.
    2:{ unfold random_randint in Hpos.
        destruct (Z.ltb_spec (Z.of_nat (length (file_of w sp))
                              - block_size * batch_size) 0); [lia|done]. }
    apply random_randint_range in Hpos.
    unfold bind at 1, modify at 1.
    destruct (Z.ltb_spec pos 0); [lia|].
    destruct (Z.ltb_spec (Z.of_nat (length (file_of w sp))) pos); [lia|].
    cbn [orb]. specialize (Hlong pos Hpos).
    destruct (Z.ltb_spec block_size
                (Z.of_nat (length (tokenize w (take 1024 (strip_cr
                   (utf8_ignore w (mm_read (file_of w sp) pos
                      (block_size * batch_size - 1))))))))) as [_|?]; [|lia].
    set (data := tokenize w _) in *. unfold ret at 1.
    unfold batch_of_chunk.
    destruct (Z.leb_spec (Z.of_nat (length data)) block_size); [lia|].
    unfold bind at 1, next_draws.
    set (rs := map (raw w) _).
    assert (length rs = Z.to_nat batch_size) as Hrs
        by (unfold rs; by rewrite length_map, length_seq).
    destruct (torch_randint 0 (Z.of_nat (length data) - block_size)
                            batch_size rs) as [ix|e] eqn:Hix.
    2:{ unfold torch_randint in Hix. simpl in Hix.
        destruct (Z.leb_spec (Z.of_nat (length data) - block_size) 0);
          [lia|done]. }
    apply torch_randint_range in Hix as (_ & _ & Hlen & Hix).
    rewrite Hrs, Nat.min_id in Hlen.
    assert (ix <> []) as Hne.
    { intros ->. by vm_compute in Hlen. }
    unfold bind at 1, lift at 1.
    rewrite (torch_stack_same_length _ (Z.to_nat block_size)); cycle 1.
    { by destruct ix. }
    { apply Forall_map, Forall_forall. intros i Hi. simpl.
      destruct (window_pair_slices data block_size i) as (? & ? & ? & ? & ? & _);
        [done| |done].
      by eapply (proj1 (Forall_forall _ _) Hix). }
    unfold bind at 1, lift at 1.
    rewrite (torch_stack_same_length _ (Z.to_nat block_size)); cycle 1.
    { by destruct ix. }
    { apply Forall_map, Forall_forall. intros i Hi. simpl.
      destruct (window_pair_slices data block_size i)
        as (? & ? & ? & ? & ? & ? & _); [done| |done].
      by eapply (proj1 (Forall_forall _ _) Hix). }
    done. }
  destruct (get_batch w sp s) as [[b|e] s']; [|done].
  by exists b, s'.
Qed.

Variable floor : Q.
Hypothesis Hlosses : sw_losses_above floor w.

Lemma sw_call_model_returns (b : batch) (s : state) :
  exists q, call_model w b s = (Ok (Fin q), set_calls (S (calls s)) s) /\
            (floor <= q)%Q.
Proof.
  destruct (Hlosses (calls s) b) as (q & Hq & Hle). exists q.
  unfold call_model. by rewrite Hq.
Qed.

Lemma sw_optimization_step_run (s : state) :
  optimization_step w s =
  match get_batch w train_split (log ZeroGrad s) with
  | (Ok b, s1) =>
      match call_model w b s1 with
      | (Ok loss, s2) =>
          (Ok tt,
           set_total_loss (fadd (total_loss s2) loss)
             (log ScalerUpdate (log ScalerStep (log Backward s2))))
      | (Raise e, s2) => (Raise e, s2)
      end
  | (Raise e, s1) => (Raise e, s1)
  end.
Proof.
  unfold optimization_step, bind at 1, modify at 1. unfold bind at 1.
  destruct (get_batch w train_split (log ZeroGrad s)) as [[b|e] s1]; [|done].
  unfold bind at 1. by destruct (call_model w b s1) as [[l|e] s2].
Qed.

(** One optimization step in a healthy world: it returns, with one
    optimizer update and no evaluation. *)
Lemma sw_optimization_step_returns (s : state) :
  exists s' mid,
    optimization_step w s = (Ok tt, s') /\
    best_val_loss s' = best_val_loss s /\ best_config s' = best_config s /\
    plateau_count s' = plateau_count s /\ val_loss s' = val_loss s /\
    trace s' = mid ++ trace s /\ updates mid = 1%nat /\ losses mid = [] /\
    Forall is_sw_step_event mid.
Proof.
  rewrite sw_optimization_step_run.
  destruct (sw_get_batch_returns train_split (log ZeroGrad s))
    as (b & s1 & -> & (Hb & Hc & Hn & Hv & mid & Hmid & Htr) & _).
  destruct (sw_call_model_returns b s1) as (q & -> & _).
  eexists _, (ScalerUpdate :: ScalerStep :: Backward :: mid ++ [ZeroGrad]).
  split; [done|]. simpl. repeat split; try done.
  - rewrite Htr. simpl. by rewrite <- app_assoc.
  - change (updates ([ScalerUpdate; ScalerStep; Backward] ++ mid ++ [ZeroGrad])
            = 1%nat).
    by rewrite !updates_app, (sw_updates_sampler mid Hmid).
  - change (losses ([ScalerUpdate; ScalerStep; Backward] ++ mid ++ [ZeroGrad])
            = []).
    by rewrite !losses_app, (sw_losses_sampler mid Hmid).
  - unfold is_sw_step_event.
    repeat (apply Forall_cons_2; [tauto|]). apply Forall_app. split.
    + eapply Forall_impl; [exact Hmid|]. intros e He. by left.
    + apply Forall_singleton. tauto.
Qed.

Lemma foldl_fadd_above (l : list float) (a : Q) :
  Forall (fun v => exists q, v = Fin q /\ (floor <= q)%Q) l ->
  exists t, foldl fadd (Fin a) l = Fin t /\
            (a + floor * inject_Z (Z.of_nat (length l)) <= t)%Q.
Proof.
  intros Hl. revert a. induction Hl as [|v l (q & -> & Hq) _ IH]; intros a.
  - exists a. split; [done|]. cbn [length].
    change (inject_Z (Z.of_nat 0)) with 0%Q. lra.
  - destruct (IH (a + q)%Q) as (t & Ht & Hle). exists t. split; [done|].
    cbn [length]. rewrite Nat2Z.inj_succ, <- Z.add_1_r, inject_Z_plus.
    change (inject_Z 1) with 1%Q. lra.
Qed.

(** The loss estimator in a healthy world: it returns a number not below
    [floor], with no optimizer update and no loss printed. *)
Lemma sw_evaluate_model_returns (s : state) :
  exists q s' mid,
    evaluate_model w s = (Ok (Fin q), s') /\ (floor <= q)%Q /\
    best_val_loss s' = best_val_loss s /\ best_config s' = best_config s /\
    plateau_count s' = plateau_count s /\ total_loss s' = total_loss s /\
    trace s' = mid ++ trace s /\ updates mid = 0%nat /\ losses mid = [] /\
    Forall is_sw_estimator_event mid.
Proof.
  unfold evaluate_model, bind at 1, modify at 1. unfold bind at 1, modify at 1.
  set (s0 := log ModelEval (set_training false s)).
  set (I := fun s1 : state =>
              best_val_loss s1 = best_val_loss s /\
              best_config s1 = best_config s /\
              plateau_count s1 = plateau_count s /\
              total_loss s1 = total_loss s /\
              exists mid, Forall is_sw_sampler_event mid /\
                          trace s1 = mid ++ trace s0).
  destruct (collect_returns I
              (fun v => exists q, v = Fin q /\ (floor <= q)%Q)
              (Z.to_nat eval_iters)
              (bind (get_batch w val) (fun b => call_model w b)) s0)
    as (l & s' & Hrun & Hl & Hlen & Hs').
  { intros s1 (Hb1 & Hc1 & Hn1 & Ht1 & mid1 & Hmid1 & Htr1).
    destruct (sw_get_batch_returns val s1)
      as (b & s2 & Hgb & (Hb & Hc & Hn & _ & mid & Hmid & Htr) & Ht).
    destruct (sw_call_model_returns b s2) as (q & Hcm & Hq).
    exists (Fin q), (set_calls (S (calls s2)) s2). unfold bind.
    rewrite Hgb, Hcm. split; [done|]. split; [by exists q|].
    unfold I. simpl. repeat split; try congruence.
    exists (mid ++ mid1). split; [by apply Forall_app|].
    by rewrite Htr, Htr1, app_assoc. }
  { unfold I. repeat split; try done. by exists []. }
  unfold bind at 1. rewrite Hrun. unfold ret.
  destruct (foldl_fadd_above l 0 Hl) as (t & -> & Ht).
  destruct Hs' as (Hb & Hc & Hn & Htl & mid & Hmid & Htr).
  exists (t / inject_Z eval_iters)%Q, s', (mid ++ [ModelEval]).
  split; [done|]. split.
  { apply Qle_shift_div_l; [done|].
    rewrite Hlen, Z2Nat.id in Ht by done. lra. }
  repeat split; try done.
  - rewrite Htr. unfold s0. simpl. by rewrite <- app_assoc.
  - by rewrite updates_app, (sw_updates_sampler mid Hmid).
  - by rewrite losses_app, (sw_losses_sampler mid Hmid).
  - apply Forall_app. split; [|apply Forall_singleton; by right].
    eapply Forall_impl; [exact Hmid|]. intros e He. by left.
Qed.

Lemma not_below_floor (b : float) (q : Q) :
  fle b (Fin floor) = true -> (floor <= q)%Q -> flt (Fin q) b = false.
Proof.
  destruct b as [| |b|]; simpl; try done.
  intros Hb%Qle_bool_iff Hq. apply Qltb_ge. by eapply Qle_trans.
Qed.

Lemma sw_step_is_iteration_event (e : event config) :
  is_sw_step_event e -> is_sw_iteration_event e.
Proof. by left. Qed.

Lemma sw_estimator_is_iteration_event (e : event config) :
  is_sw_estimator_event e -> is_sw_iteration_event e.
Proof. intros [He| ->]; [left; by left|right; by left]. Qed.

Variable s0 : state.
Hypothesis Hbest : fle (best_val_loss s0) (Fin floor) = true.

(** An iteration before the counter reaches the patience. *)
Lemma sw_iteration_stalls (c : config) (epoch x : Z) (s : state) :
  1 <= x < patience * eval_interval ->
  sw_stalling s0 x s ->
  exists s', iteration w c epoch x s = (Ok Continue, s') /\
             sw_stalling s0 (x + 1) s'.
Proof.
  intros Hx (Hb & Hc & Hn & new & Htr & Hev & Hup & Hlo).
  assert (eval_interval = 500) as Hi by reflexivity.
  assert (patience = 4) as Hp by reflexivity.
  rewrite Hi, Hp in *.
  destruct (sw_optimization_step_returns s)
    as (s1 & mid & Hrun & Hb1 & Hc1 & Hn1 & Hv1 & Htr1 & Hup1 & Hlo1 & Hev1).
  unfold iteration, bind at 1. rewrite Hrun.
  rewrite Hi. destruct (decide (x `mod` 500 = 0)) as [Hmod|Hmod].
  - rewrite sw_evaluation_run.
    destruct (sw_evaluate_model_returns s1)
      as (q & s2 & mid2 & -> & Hq & Hb2 & Hc2 & Hn2 & Ht2 & Htr2 & Hup2 & Hlo2
          & Hev2).
    cbv zeta. rewrite Hb2, Hb1, Hb, (not_below_floor _ _ Hbest Hq).
    rewrite Hn2, Hn1, Hn, Hp.
    destruct (Z.leb_spec 4 ((x - 1) `div` 500 + 1)) as [Hle|Hgt].
    { exfalso. revert Hle. Z.div_mod_to_equations. lia. }
    eexists. split; [done|]. unfold sw_stalling. rewrite Hi. simpl.
    split; [congruence|]. split; [congruence|].
    split; [Z.div_mod_to_equations; lia|].
    eexists (PrintEval _ _ _ _ :: mid2 ++ mid ++ new).
    split; [by rewrite Htr2, Htr1, Htr, <- app_comm_cons, <- !app_assoc|].
    split.
    { constructor; [right; right; by eexists _, _, _, _|].
      repeat (apply Forall_app; split); [| |done].
      - eapply Forall_impl; [exact Hev2|].
        apply sw_estimator_is_iteration_event.
      - eapply Forall_impl; [exact Hev1|]. apply sw_step_is_iteration_event. }
    change (PrintEval ?a ?b ?c ?d :: mid2 ++ mid ++ new)
      with ([PrintEval a b c d] ++ mid2 ++ mid ++ new).
    rewrite !updates_app, !losses_app, !length_app, Hup, Hup1, Hup2, Hlo,
      Hlo1, Hlo2.
    split; [simpl; lia|]. simpl. Z.div_mod_to_equations. lia.
  - unfold ret. eexists. split; [done|]. unfold sw_stalling. rewrite Hi.
    split; [congruence|]. split; [congruence|].
    split; [rewrite Hn1, Hn; Z.div_mod_to_equations; lia|].
    exists (mid ++ new). split; [by rewrite Htr1, Htr, app_assoc|].
    split.
    { apply Forall_app. split; [|done].
      eapply Forall_impl; [exact Hev1|]. apply sw_step_is_iteration_event. }
    rewrite updates_app, losses_app, length_app, Hup, Hup1, Hlo, Hlo1.
    split; [lia|]. simpl. Z.div_mod_to_equations. lia.
Qed.

(** The iteration at which the counter reaches the patience. *)
Lemma sw_iteration_gives_up (c : config) (epoch x : Z) (s : state) :
  x = patience * eval_interval ->
  sw_stalling s0 x s ->
  exists s' q new,
    iteration w c epoch x s = (Ok Break, s') /\
    best_val_loss s' = best_val_loss s0 /\ best_config s' = best_config s0 /\
    plateau_count s' = patience /\ val_loss s' = Some (Fin q) /\
    trace s' = PrintPlateaued :: new ++ trace s0 /\
    Forall is_sw_iteration_event new /\
    updates new = Z.to_nat (patience * eval_interval) /\
    length (losses new) = Z.to_nat patience.
Proof.
  intros Hx (Hb & Hc & Hn & new & Htr & Hev & Hup & Hlo).
  assert (eval_interval = 500) as Hi by reflexivity.
  assert (patience = 4) as Hp by reflexivity.
  rewrite Hi, Hp in *. subst x. change (4 * 500) with 2000 in *.
  change ((2000 - 1) `div` 500) with 3 in *.
  destruct (sw_optimization_step_returns s)
    as (s1 & mid & Hrun & Hb1 & Hc1 & Hn1 & Hv1 & Htr1 & Hup1 & Hlo1 & Hev1).
  unfold iteration, bind at 1. rewrite Hrun.
  rewrite Hi. destruct (decide (2000 `mod` 500 = 0)) as [_|Hmod]; [|done].
  rewrite sw_evaluation_run.
  destruct (sw_evaluate_model_returns s1)
    as (q & s2 & mid2 & -> & Hq & Hb2 & Hc2 & Hn2 & Ht2 & Htr2 & Hup2 & Hlo2
        & Hev2).
  cbv zeta. rewrite Hb2, Hb1, Hb, (not_below_floor _ _ Hbest Hq).
  rewrite Hn2, Hn1, Hn, Hp. change (4 <=? 3 + 1) with true. cbv iota.
  eexists _, q, (PrintEval _ _ _ _ :: mid2 ++ mid ++ new).
  split; [done|]. simpl.
  split; [congruence|]. split; [congruence|]. split; [done|].
  split; [done|].
  split; [by rewrite Htr2, Htr1, Htr, <- !app_assoc|].
  split.
  { constructor; [right; right; by eexists _, _, _, _|].
    repeat (apply Forall_app; split); [| |done].
    - eapply Forall_impl; [exact Hev2|].
      apply sw_estimator_is_iteration_event.
    - eapply Forall_impl; [exact Hev1|]. apply sw_step_is_iteration_event. }
  change (PrintEval ?a ?b ?c ?d :: mid2 ++ mid ++ new)
    with ([PrintEval a b c d] ++ mid2 ++ mid ++ new).
  rewrite !updates_app, !losses_app, !length_app, Hup, Hup1, Hup2, Hlo,
    Hlo1, Hlo2.
  split; [simpl; lia|]. simpl. lia.
Qed.

(** The loop over the iterations of an epoch that starts with the counter
    at 0: it breaks at iteration [patience * eval_interval]. *)
Lemma sw_iterations_give_up (c : config) (epoch : Z) :
  plateau_count s0 = 0 ->
  exists s' q new,
    for_each (range1 max_iters) (iteration w c epoch) s0 = (Ok tt, s') /\
    best_val_loss s' = best_val_loss s0 /\ best_config s' = best_config s0 /\
    plateau_count s' = patience /\ val_loss s' = Some (Fin q) /\
    trace s' = PrintPlateaued :: new ++ trace s0 /\
    Forall is_sw_iteration_event new /\
    updates new = Z.to_nat (patience * eval_interval) /\
    length (losses new) = Z.to_nat patience.
Proof.
  intros Hn0.
  assert (sw_stalling s0 1 s0) as Hstart.
  { split; [done|]. split; [done|]. split; [done|]. by exists []. }
  destruct (for_each_seqZ_continue (sw_stalling s0) 1999 1
              (seqZ 2000 18101) (iteration w c epoch) s0 Hstart)
    as (s1 & Hs1 & Heq).
  { intros x s Hx. apply sw_iteration_stalls.
    assert (eval_interval = 500) as -> by reflexivity.
    assert (patience = 4) as -> by reflexivity. lia. }
  assert (range1 max_iters = seqZ 1 (Z.of_nat 1999) ++ seqZ 2000 18101) as ->.
  { unfold range1. change max_iters with (Z.of_nat 1999 + 18101).
    by rewrite seqZ_app by lia. }
  rewrite Heq, (seqZ_cons 2000) by lia. clear Heq.
  destruct (sw_iteration_gives_up c epoch 2000 s1 eq_refl Hs1)
    as (s' & q & new & Hrun & Hpost).
  exists s', q, new. split; [|exact Hpost].
  by apply for_each_break_first.
Qed.

End SubwordProgress.

(** An epoch that starts with the counter at 0 in a healthy world whose
    losses cannot beat the record: it breaks out of both loops. *)
Lemma sw_run_epoch_gives_up (w : Subword.world) (floor : Q)
      (c : Subword.config) (epoch : Z) (s : Subword.state) :
  sw_healthy w -> sw_losses_above floor w ->
  fle (Subword.best_val_loss s) (Fin floor) = true ->
  Subword.plateau_count s = 0 ->
  exists s' v new,
    Subword.run_epoch w c epoch s = (Ok Break, s') /\
    Subword.best_val_loss s' = Subword.best_val_loss s /\
    Subword.best_config s' = Subword.best_config s /\
    Subword.trace s' =
      SaveCheckpoint epoch v :: PrintLR :: SchedulerStep (Some v)
        :: PrintPlateaued :: new ++ ModelTrain :: Subword.trace s /\
    Forall is_sw_iteration_event new /\
    updates new = Z.to_nat (Subword.patience * Subword.eval_interval) /\
    length (losses new) = Z.to_nat Subword.patience.
Proof.
  intros Hhealthy Hlosses Hbest Hn.
  destruct (sw_iterations_give_up w Hhealthy floor Hlosses
              (Subword.set_total_loss (Fin 0)
                 (Subword.log ModelTrain (Subword.set_training true s)))
              Hbest c epoch Hn)
    as (s' & q & new & Hrun & Hb & Hc & Hn' & Hv & Htr & Hev & Hup & Hlo).
  unfold Subword.run_epoch.
  unfold bind at 1, modify at 1. unfold bind at 1, modify at 1.
  unfold bind at 1, modify at 1. unfold bind at 1. rewrite Hrun.
  unfold bind at 1, gets at 1. rewrite Hv.
  unfold bind, modify, gets, ret. cbn [Subword.plateau_count Subword.log].
  rewrite Hn', Z.leb_refl.
  eexists _, (Fin q), new. split; [done|]. cbn. rewrite Htr.
  by rewrite Hb, Hc.
Qed.


(** In a world where the sampler of GPT_Trainer-subword.py always finds a
    chunk and every loss of the model is a number not below [floor], a
    trial entered with a best validation loss of at most [floor] cannot
    improve on it.  Whatever the number of epochs asked for (at least
    one), the trial returns without an exception after one epoch cut
    short: [patience * eval_interval] optimization steps and [patience]
    evaluations, then the plateau message, the scheduler step, the
    learning-rate message and a single checkpoint, for epoch 1; the best
    loss and configuration are as before.  [new] is what the iterations
    logged, newest event first. *)
Theorem sw_stalled_trial_is_abandoned :
  forall (w : Subword.world) (floor : Q) (epochs : Z) (c : Subword.config)
         (s : Subword.state),
  sw_healthy w -> sw_losses_above floor w ->
  fle (Subword.best_val_loss s) (Fin floor) = true ->
  1 <= epochs ->
  exists s' v new,
    Subword.trial w epochs c s = (Ok Continue, s') /\
    Subword.best_val_loss s' = Subword.best_val_loss s /\
    Subword.best_config s' = Subword.best_config s /\
    Subword.trace s' =
      SaveCheckpoint 1 v :: PrintLR :: SchedulerStep (Some v)
        :: PrintPlateaued :: new
        ++ ModelTrain :: PrintTrial c :: Subword.trace s /\
    Forall is_sw_iteration_event new /\
    updates new = Z.to_nat (Subword.patience * Subword.eval_interval) /\
    length (losses new) = Z.to_nat Subword.patience.
Proof.
  intros w floor epochs c s Hhealthy Hlosses Hbest Hepochs.
  destruct (sw_run_epoch_gives_up w floor c 1
              (Subword.set_plateau_count 0
                 (Subword.log (PrintTrial c) (Subword.set_training true s)))
              Hhealthy Hlosses Hbest eq_refl)
    as (s' & v & new & Hrun & Hb & Hc & Htr & Hev & Hup & Hlo).
  exists s', v, new. rewrite sw_trial_run.
  unfold range1. rewrite seqZ_cons by lia.
  rewrite (for_each_break_first _ _ _ _ _ Hrun).
  by repeat split.
Qed.

Lemma sw_stalled_trial_is_abandoned_witness :
  sw_healthy sw_world_steady /\ sw_losses_above 2 sw_world_steady /\
  fle (Subword.best_val_loss
         (Subword.set_best (Fin 1) (Subword.AdamW, 1 # 10000)%Q
                           Subword.initial)) (Fin 2) = true /\
  1 <= 10 /\
  exists s' v new,
    Subword.trial sw_world_steady 10 (Subword.LAMB, 1 # 10000)%Q
      (Subword.set_best (Fin 1) (Subword.AdamW, 1 # 10000)%Q Subword.initial)
    = (Ok Continue, s') /\
    Subword.best_val_loss s' = Fin 1 /\
    Subword.best_config s' = Some (Subword.AdamW, 1 # 10000)%Q /\
    Subword.trace s' =
      SaveCheckpoint 1 v :: PrintLR :: SchedulerStep (Some v)
        :: PrintPlateaued :: new
        ++ [ModelTrain; PrintTrial (Subword.LAMB, 1 # 10000)%Q] /\
    Forall is_sw_iteration_event new /\
    updates new = 2000%nat /\
    length (losses new) = 4%nat.
Proof.
  assert (sw_healthy sw_world_steady) as Hhealthy.
  { intros sp. cbv zeta.
    assert (Subword.file_of sw_world_steady sp = file_of_a 4096) as ->
        by (by destruct sp).
    assert (Z.of_nat (length (file_of_a 4096)) = 4096) as ->
        by (by vm_compute).
    change (Subword.block_size * Subword.batch_size) with 4096.
    split; [lia|]. intros pos Hpos. assert (pos = 0) as -> by lia.
    by vm_compute. }
  assert (sw_losses_above 2 sw_world_steady) as Hlosses.
  { intros k b. exists 2%Q. split; [reflexivity|]. apply Qle_refl. }
  split; [exact Hhealthy|]. split; [exact Hlosses|].
  split; [reflexivity|]. split; [lia|].
  exact (sw_stalled_trial_is_abandoned sw_world_steady 2 10
           (Subword.LAMB, 1 # 10000)%Q
           (Subword.set_best (Fin 1) (Subword.AdamW, 1 # 10000)%Q
                             Subword.initial)
           Hhealthy Hlosses eq_refl ltac:(lia)).
Defined.

(** ** The vocabulary: errors, ranges and order *)

Section VocabularyMore.
Import AutoTune.

Lemma rmap_cons_Ok {A B} (f : A -> result B) (x : A) (l : list A)
      (y : B) (ys : list B) :
  f x = Ok y -> rmap f l = Ok ys -> rmap f (x :: l) = Ok (y :: ys).
Proof. intros Hx Hl. cbn [rmap]. by rewrite Hx, Hl. Qed.

Lemma rmap_cons_inv {A B} (f : A -> result B) (x : A) (l : list A)
      (r : list B) :
  rmap f (x :: l) = Ok r ->
  exists y ys, r = y :: ys /\ f x = Ok y /\ rmap f l = Ok ys.
Proof.
  cbn [rmap]. destruct (f x) as [y|e]; cbn [rbind]; [|done].
  destruct (rmap f l) as [ys|e]; cbn [rbind]; [|done].
  intros [= <-]. by exists y, ys.
Qed.

Lemma rmap_cons_Raise {A B} (f : A -> result B) (x : A) (l : list A)
      (e : exn) :
  rmap f (x :: l) = Raise e ->
  f x = Raise e \/ (exists y, f x = Ok y) /\ rmap f l = Raise e.
Proof.
  cbn [rmap]. destruct (f x) as [y|e']; cbn [rbind]; [|intros [= ->]; by left].
  destruct (rmap f l) as [ys|e']; cbn [rbind]; [done|]. intros [= <-].
  right. split; [by exists y|done].
Qed.

Lemma getitem_string_to_int_Ok (text : pystr) (c : char) (i : nat) :
  getitem (string_to_int text) c = Ok i <-> chars text !! i = Some c.
Proof.
  unfold getitem, string_to_int.
  rewrite <- (string_to_int_of_lookup _ c i (NoDup_chars text)).
  destruct (string_to_int_of (chars text) !! c); split; congruence.
Qed.

Lemma getitem_string_to_int_Raise (text : pystr) (c : char) (e : exn) :
  getitem (string_to_int text) c = Raise e ->
  e = KeyError "key not in dict" /\ c ∉ text.
Proof.
  unfold getitem, string_to_int.
  destruct (string_to_int_of (chars text) !! c) as [i|] eqn:Hc; [done|].
  intros [= <-]. split; [done|]. intros [i Hi]%elem_of_chars%list_elem_of_lookup.
  apply (string_to_int_of_lookup _ c i (NoDup_chars text)) in Hi. congruence.
Qed.

Lemma getitem_int_to_string_Ok (text : pystr) (c : char) (i : nat) :
  getitem (int_to_string text) i = Ok c <-> chars text !! i = Some c.
Proof.
  unfold getitem, int_to_string. rewrite int_to_string_of_lookup.
  destruct (chars text !! i); split; congruence.
Qed.

Lemma getitem_int_to_string_Raise (text : pystr) (i : nat) (e : exn) :
  getitem (int_to_string text) i = Raise e ->
  e = KeyError "key not in dict" /\ (vocab_size text <= i)%nat.
Proof.
  unfold getitem, int_to_string. rewrite int_to_string_of_lookup.
  destruct (chars text !! i) as [c|] eqn:Hi; [done|].
  intros [= <-]. split; [done|]. by apply lookup_ge_None.
Qed.

Lemma encode_Ok (text s : pystr) (l : list nat) :
  encode text s = Ok l ->
  Forall2 (fun c i => chars text !! i = Some c) s l.
Proof.
  unfold encode. revert l. induction s as [|c s IH]; intros l.
  - intros [= <-]. constructor.
  - intros (i & l' & -> & Hi & Hl)%rmap_cons_inv.
    constructor; [by apply getitem_string_to_int_Ok|by apply IH].
Qed.

Lemma decode_Ok (text : pystr) (l : list nat) (s : pystr) :
  decode text l = Ok s ->
  Forall2 (fun c i => chars text !! i = Some c) s l.
Proof.
  unfold decode. revert s. induction l as [|i l IH]; intros s.
  - intros [= <-]. constructor.
  - intros (c & s' & -> & Hi & Hl)%rmap_cons_inv.
    constructor; [by apply getitem_int_to_string_Ok|by apply IH].
Qed.

Lemma encode_of_lookups (text s : pystr) (l : list nat) :
  Forall2 (fun c i => chars text !! i = Some c) s l -> encode text s = Ok l.
Proof.
  unfold encode. induction 1 as [|c i s l Hi _ IH]; [done|].
  apply rmap_cons_Ok; [by apply getitem_string_to_int_Ok|done].
Qed.

Lemma decode_of_lookups (text s : pystr) (l : list nat) :
  Forall2 (fun c i => chars text !! i = Some c) s l -> decode text l = Ok s.
Proof.
  unfold decode. induction 1 as [|c i s l Hi _ IH]; [done|].
  apply rmap_cons_Ok; [by apply getitem_int_to_string_Ok|done].
Qed.

Lemma encode_Raise (text s : pystr) (e : exn) :
  encode text s = Raise e ->
  e = KeyError "key not in dict" /\ exists c, c ∈ s /\ c ∉ text.
Proof.
  unfold encode. induction s as [|c s IH]; [done|].
  intros [Hc|[_ Hs]]%rmap_cons_Raise.
  - apply getitem_string_to_int_Raise in Hc as [-> Hc].
    split; [done|]. exists c. split; [by left|done].
  - destruct (IH Hs) as (-> & c' & Hc' & Hnot). split; [done|].
    exists c'. split; [by right|done].
Qed.

Lemma decode_Raise (text : pystr) (l : list nat) (e : exn) :
  decode text l = Raise e ->
  e = KeyError "key not in dict" /\
  exists i, i ∈ l /\ (vocab_size text <= i)%nat.
Proof.
  unfold decode. induction l as [|i l IH]; [done|].
  intros [Hi|[_ Hl]]%rmap_cons_Raise.
  - apply getitem_int_to_string_Raise in Hi as [-> Hi].
    split; [done|]. exists i. split; [by left|done].
  - destruct (IH Hl) as (-> & i' & Hi' & Hge). split; [done|].
    exists i'. split; [by right|done].
Qed.

(** [chars] is strictly increasing. *)
Lemma chars_increasing (text : pystr) (i j : nat) (c d : char) :
  chars text !! i = Some c -> chars text !! j = Some d ->
  (i < j)%nat -> (c < d)%N.
Proof.
  intros Hi Hj Hlt.
  assert (StronglySorted N.le (chars text)) as Hsorted.
  { apply Sorted_StronglySorted; [intros x y z; apply N.le_trans|].
    apply Sorted_merge_sort, _. }
  pose proof (NoDup_chars text) as Hnd.
  revert Hsorted Hnd i j Hi Hj Hlt. generalize (chars text). intros l.
  induction 1 as [|x l Hl IH Hx]; intros Hnd i j Hi Hj Hlt; [done|].
  apply NoDup_cons in Hnd as [Hnotin Hnd].
  destruct j as [|j]; [lia|]. cbn in Hj. destruct i as [|i].
  - injection Hi as ->.
    assert (d ∈ l) as Hd by (by eapply list_elem_of_lookup_2).
    pose proof (proj1 (Forall_forall _ _) Hx d Hd) as Hle.
    assert (c <> d) by (by intros ->). lia.
  - cbn in Hi. eapply (IH Hnd i j); [done|done|lia].
Qed.

End VocabularyMore.

(** [encode] returns exactly on the strings made of symbols of the
    vocabulary file: it then gives one id below [vocab_size] for each
    symbol; in every other case it raises a [KeyError] and the string has
    a symbol that the file lacks. *)
Theorem encode_returns_iff_known :
  forall text s : pystr,
    match AutoTune.encode text s with
    | Ok l =>
        (forall c, c ∈ s -> c ∈ text) /\ length l = length s /\
        Forall (fun i => (i < AutoTune.vocab_size text)%nat) l
    | Raise e =>
        e = KeyError "key not in dict" /\ exists c, c ∈ s /\ c ∉ text
    end.
Proof.
  intros text s. destruct (AutoTune.encode text s) as [l|e] eqn:He.
  - apply encode_Ok in He. split; [|split].
    + intros c [i Hi]%list_elem_of_lookup.
      destruct (Forall2_lookup_l _ _ _ _ _ He Hi) as (j & _ & Hj).
      apply elem_of_chars. by eapply list_elem_of_lookup_2.
    + symmetry. by eapply Forall2_length.
    + apply Forall_forall. intros j [k Hk]%list_elem_of_lookup.
      destruct (Forall2_lookup_r _ _ _ _ _ He Hk) as (c & _ & Hc).
      by eapply lookup_lt_Some.
  - by apply encode_Raise.
Qed.

(** [decode] returns exactly on the lists of ids below [vocab_size], and
    [encode] maps the string it returns back to the list; in every other
    case it raises a [KeyError] and some id is [vocab_size] or more. *)
Theorem decode_encode_round_trip :
  forall (text : pystr) (l : list nat),
    match AutoTune.decode text l with
    | Ok s =>
        Forall (fun i => (i < AutoTune.vocab_size text)%nat) l /\
        AutoTune.encode text s = Ok l
    | Raise e =>
        e = KeyError "key not in dict" /\
        exists i, i ∈ l /\ (AutoTune.vocab_size text <= i)%nat
    end.
Proof.
  intros text l. destruct (AutoTune.decode text l) as [s|e] eqn:Hd.
  - apply decode_Ok in Hd. split; [|by apply encode_of_lookups].
    apply Forall_forall. intros j [k Hk]%list_elem_of_lookup.
    destruct (Forall2_lookup_r _ _ _ _ _ Hd Hk) as (c & _ & Hc).
    by eapply lookup_lt_Some.
  - by apply decode_Raise.
Qed.

(** The ids follow the order of the symbols: of two symbols of the
    vocabulary, the one with the smaller code point has the smaller id
    (so different symbols have different ids). *)
Theorem encode_preserves_order :
  forall (text : pystr) (c d : char) (i j : nat),
    AutoTune.encode text [c] = Ok [i] ->
    AutoTune.encode text [d] = Ok [j] ->
    ((c < d)%N <-> (i < j)%nat).
Proof.
  intros text c d i j Hc%encode_Ok Hd%encode_Ok.
  apply Forall2_cons_1 in Hc as [Hc _]. apply Forall2_cons_1 in Hd as [Hd _].
  split.
  - intros Hlt. destruct (decide (i < j)%nat) as [|Hge]; [done|].
    destruct (decide (i = j)) as [->|Hne].
    + rewrite Hc in Hd. injection Hd as ->. lia.
    + pose proof (chars_increasing text j i d c Hd Hc ltac:(lia)). lia.
  - by apply (chars_increasing text i j c d).
Qed.

Lemma encode_preserves_order_witness :
  AutoTune.encode (str "hello") [101%N] = Ok [0%nat] /\
  AutoTune.encode (str "hello") [104%N] = Ok [1%nat] /\
  ((101 < 104)%N <-> (0 < 1)%nat).
Proof.
  assert (AutoTune.encode (str "hello") [101%N] = Ok [0%nat]) as Hc
      by (vm_compute; reflexivity).
  assert (AutoTune.encode (str "hello") [104%N] = Ok [1%nat]) as Hd
      by (vm_compute; reflexivity).
  split; [exact Hc|]. split; [exact Hd|].
  exact (encode_preserves_order (str "hello") 101%N 104%N 0%nat 1%nat Hc Hd).
Defined.

(** ** GPT_Trainer-subword.py: what the sampler can raise *)

Section SubwordSamplerErrors.
Import Subword.
Variable w : world.




End SubwordSamplerErrors.




(** ** GPT_Trainer-subword.py: the mode of the model *)

Section SubwordMode.
Local Abbreviation train_split := train.
Import Subword.
Variable w : world.
Variable t0 : list (event config).

Lemma sw_mode_inv_same (s s' : state) :
  training s' = training s -> trace s' = trace s ->
  sw_mode_inv t0 s -> sw_mode_inv t0 s'.
Proof. intros Hm Ht (rest & Htr & Hrest & Hev). exists rest. by rewrite Hm, Ht. Qed.

Lemma sw_mode_inv_log (e : event config) (s : state) :
  e <> ModelTrain -> e <> ModelEval ->
  sw_mode_inv t0 s -> sw_mode_inv t0 (log e s).
Proof.
  intros Ht He (rest & Htr & Hrest & Hev). exists (e :: rest).
  split; [simpl; by rewrite Htr|]. split; [by constructor|].
  intros [?|?]%elem_of_cons; [done|by apply Hev].
Qed.

Lemma sw_inference_inv_same (s s' : state) :
  training s' = training s -> trace s' = trace s ->
  sw_inference_inv t0 s -> sw_inference_inv t0 s'.
Proof. intros Hm Ht (Hs & rest & Htr & Hrest). split; [congruence|]. exists rest. by rewrite Ht. Qed.

Lemma sw_inference_inv_log (e : event config) (s : state) :
  e <> ModelTrain -> sw_inference_inv t0 s -> sw_inference_inv t0 (log e s).
Proof.
  intros Ht (Hs & rest & Htr & Hrest). split; [done|]. exists (e :: rest).
  split; [simpl; by rewrite Htr|by constructor].
Qed.

Lemma sw_inference_mode_inv (s : state) :
  sw_inference_inv t0 s -> sw_mode_inv t0 s.
Proof. intros (Hs & rest & Htr & Hrest). by exists rest. Qed.

Ltac mode_step :=
  lazymatch goal with
  | H : sw_mode_inv t0 ?s |- sw_mode_inv t0 (log _ ?s) =>
      apply sw_mode_inv_log; [discriminate|discriminate|exact H]
  | H : sw_mode_inv t0 ?s |- sw_mode_inv t0 _ =>
      apply (sw_mode_inv_same s); [reflexivity|reflexivity|exact H]
  | H : sw_inference_inv t0 ?s |- sw_inference_inv t0 (log _ ?s) =>
      apply sw_inference_inv_log; [discriminate|exact H]
  | H : sw_inference_inv t0 ?s |- sw_inference_inv t0 _ =>
      apply (sw_inference_inv_same s); [reflexivity|reflexivity|exact H]
  end.

Lemma sw_get_batch_mode (sp : split) :
  preserves (sw_mode_inv t0) (get_batch w sp).
Proof.
  unfold get_batch, get_random_chunk, batch_of_chunk.
  apply preserves_bind.
  - generalize (S (recursion_limit w)). intros depth.
    induction depth as [|depth IH]; [apply preserves_raise|].
    cbn [get_random_chunk_rec]. preserve; mode_step.
  - intros data. preserve; mode_step.
Qed.

Lemma sw_get_batch_inference (sp : split) :
  preserves (sw_inference_inv t0) (get_batch w sp).
Proof.
  unfold get_batch, get_random_chunk, batch_of_chunk.
  apply preserves_bind.
  - generalize (S (recursion_limit w)). intros depth.
    induction depth as [|depth IH]; [apply preserves_raise|].
    cbn [get_random_chunk_rec]. preserve; mode_step.
  - intros data. preserve; mode_step.
Qed.

Lemma sw_evaluate_model_inference (s : state) :
  sw_mode_inv t0 s -> sw_inference_inv t0 (evaluate_model w s).2.
Proof.
  intros (rest & Htr & Hrest & _).
  unfold evaluate_model, bind at 1, modify at 1. unfold bind at 1, modify at 1.
  pose proof (sw_get_batch_inference val) as Hgb.
  assert (preserves (sw_inference_inv t0)
            (bind (collect (Z.to_nat eval_iters)
                     (bind (get_batch w val) (fun b => call_model w b)))
                  (fun losses =>
                     ret (fdiv_pos (foldl fadd (Fin 0) losses) eval_iters))))
    as Hrest'.
  { preserve; mode_step. }
  apply Hrest'. split; [done|]. exists (ModelEval :: rest).
  split; [simpl; by rewrite Htr|by constructor].
Qed.

Lemma sw_evaluate_model_mode :
  preserves (sw_mode_inv t0) (evaluate_model w).
Proof. intros s Hs. by apply sw_inference_mode_inv, sw_evaluate_model_inference. Qed.

Lemma sw_iteration_mode (c : config) (epoch it : Z) :
  preserves (sw_mode_inv t0) (iteration w c epoch it).
Proof.
  pose proof sw_evaluate_model_mode as Hev.
  pose proof (sw_get_batch_mode train_split) as Hgb.
  unfold iteration, optimization_step, evaluation. preserve; mode_step.
Qed.

End SubwordMode.

(** In GPT_Trainer-subword.py, [evaluate_model] switches the model to
    inference mode and never back, whether it returns or raises.  An
    epoch calls [model.train()] once, at its start, and not again: from
    its first evaluation on, the rest of the epoch, with the optimization
    steps that follow, runs with the model in inference mode, and the
    epoch ends in that mode.  [rest] is what the epoch logs after
    [model.train()], newest event first. *)
Theorem sw_epoch_stays_in_inference_mode :
  (forall (w : Subword.world) (s : Subword.state),
      Subword.training (Subword.evaluate_model w s).2 = false) /\
  (forall (w : Subword.world) (c : Subword.config) (epoch : Z)
          (s : Subword.state),
      exists rest,
        Subword.trace (Subword.run_epoch w c epoch s).2
        = rest ++ ModelTrain :: Subword.trace s /\
        Forall (fun e => e <> ModelTrain) rest /\
        (ModelEval ∈ rest ->
         Subword.training (Subword.run_epoch w c epoch s).2 = false)).
Proof.
  split.
  - intros w s.
    apply (sw_evaluate_model_inference w (Subword.trace s) s).
    exists []. split; [done|]. split; [done|]. by intros ?%elem_of_nil.
  - intros w c epoch s.
    set (t0 := ModelTrain :: Subword.trace s).
    pose proof (sw_iteration_mode w t0 c epoch) as Hit.
    assert (preserves (sw_mode_inv t0)
              (bind (for_each (range1 Subword.max_iters)
                              (Subword.iteration w c epoch))
                    (fun _ =>
                       bind (gets Subword.val_loss)
                            (fun v =>
                               match v with
                               | None => raise (UnboundLocalError "val_loss")
                               | Some v =>
                                   bind (modify (Subword.log (SchedulerStep (Some v))))
                                     (fun _ =>
                                   bind (modify (Subword.log PrintLR))
                                     (fun _ =>
                                   bind (modify (Subword.log (SaveCheckpoint epoch v)))
                                     (fun _ =>
                                   bind (gets Subword.plateau_count)
                                     (fun n =>
                                        if Subword.patience <=? n
                                        then ret Break else ret Continue))))
                               end)))) as Hrest.
    { apply preserves_bind; [apply preserves_for_each; intros x; apply Hit|].
      intros _. clear Hit. preserve.
      all: lazymatch goal with
           | H : sw_mode_inv ?t ?s |- sw_mode_inv ?t (Subword.log _ ?s) =>
               apply sw_mode_inv_log; [discriminate|discriminate|exact H]
           end. }
    unfold Subword.run_epoch.
    unfold bind at 1, modify at 1. unfold bind at 1, modify at 1.
    unfold bind at 1, modify at 1.
    apply Hrest. exists []. split; [done|]. split; [done|].
    by intros ?%elem_of_nil.
Qed.

(** ** GPT_Trainer-subword.py: the loss a checkpoint records *)

Section IndexedLoops.
Context {S : Type}.

(** A loop over a range whose body takes [I x] to [I (x + 1)] when it
    continues, to [J] when it breaks and to [R] when it raises. *)
Lemma hoare_for_each_seqZ (I : Z -> S -> Prop) (J R : S -> Prop)
      (body : Z -> M S ctl) (n : nat) (m : Z) :
  (forall x, m <= x < m + Z.of_nat n ->
             hoare (I x) (body x)
                   (fun r s => match r with
                               | Ok Continue => I (x + 1) s
                               | Ok Break => J s
                               | Raise _ => R s
                               end)) ->
  hoare (I m) (for_each (seqZ m (Z.of_nat n)) body)
        (fun r s => match r with
                    | Ok _ => I (m + Z.of_nat n) s \/ J s
                    | Raise _ => R s
                    end).
Proof.
  revert m. induction n as [|n IH]; intros m Hbody s Hs.
  - left. by rewrite Z.add_0_r.
  - rewrite seqZ_cons by lia. cbn [for_each].
    pose proof (Hbody m ltac:(lia) s Hs) as Hm.
    destruct (body m s) as [[[]|e] s1]; cbn [fst snd] in *; [|by right|done].
    replace (Z.pred (Z.of_nat (Datatypes.S n))) with (Z.of_nat n) by lia.
    replace (Z.succ m) with (m + 1) by lia.
    replace (m + Z.of_nat (Datatypes.S n)) with (m + 1 + Z.of_nat n) by lia.
    apply (IH (m + 1)); [|done]. intros x Hx. apply Hbody. lia.
Qed.

End IndexedLoops.

Section SubwordCheckpoint.
Import Subword.
Variable w : world.
Variable t0 : list (event config).

Lemma sw_optimization_step_evaluated (x : Z) :
  preserves (sw_evaluated t0 x) (optimization_step w).
Proof.
  intros s (rest & Htr & Hlink & Hne).
  destruct (sw_optimization_step_frame w s s (sw_frame_refl _ _))
    as (_ & _ & _ & Hv & mid & Hmid & Htr').
  assert (losses (mid ++ rest) = losses rest) as Hlo.
  { apply losses_benign. eapply Forall_impl; [exact Hmid|].
    apply benign_sw_step_event. }
  exists (mid ++ rest). rewrite Hlo, Hv.
  split; [by rewrite Htr', Htr, app_assoc|done].
Qed.

Lemma sw_evaluation_evaluated (x : Z) (c : config) (epoch it : Z) :
  hoare (sw_evaluated t0 x) (evaluation w c epoch it)
        (fun r s => match r with
                    | Ok _ => sw_evaluated t0 (eval_interval + 1) s
                    | Raise _ => True
                    end).
Proof.
  intros s (rest & Htr & _ & _). rewrite sw_evaluation_run.
  pose proof (sw_evaluate_model_frame w s s (sw_frame_refl _ _)) as Hf.
  destruct (evaluate_model w s) as [[v|e] s1]; [|done].
  cbn [fst snd] in Hf. destruct Hf as (_ & _ & _ & _ & mid & Hmid & Htr').
  assert (losses (mid ++ rest) = losses rest) as Hlo.
  { apply losses_benign. eapply Forall_impl; [exact Hmid|].
    apply benign_sw_estimator_event. }
  cbv zeta.
  destruct (flt v (best_val_loss s1));
    [|destruct (patience <=? plateau_count s1 + 1)]; cbn [fst snd].
  - exists (PrintNewBest c v
              :: PrintEval epoch it (fdiv_pos (total_loss s1) eval_interval) v
              :: mid ++ rest).
    split; [cbn; by rewrite Htr', Htr, app_assoc|]. by split.
  - exists (PrintPlateaued
              :: PrintEval epoch it (fdiv_pos (total_loss s1) eval_interval) v
              :: mid ++ rest).
    split; [cbn; by rewrite Htr', Htr, app_assoc|]. by split.
  - exists (PrintEval epoch it (fdiv_pos (total_loss s1) eval_interval) v
              :: mid ++ rest).
    split; [cbn; by rewrite Htr', Htr, app_assoc|]. by split.
Qed.

Lemma sw_iteration_evaluated (c : config) (epoch x : Z) :
  hoare (sw_evaluated t0 x) (iteration w c epoch x)
        (fun r s => match r with
                    | Ok Continue => sw_evaluated t0 (x + 1) s
                    | Ok Break => sw_evaluated t0 (eval_interval + 1) s
                    | Raise _ => True
                    end).
Proof.
  unfold iteration.
  eapply hoare_bind; [apply sw_optimization_step_evaluated| |done].
  intros []. destruct (decide (x `mod` eval_interval = 0)) as [Hmod|Hmod].
  - eapply hoare_weaken; [apply sw_evaluation_evaluated|done|].
    intros [[]|e] s; try done.
    intros (rest & Htr & Hlink & Hne). exists rest.
    split; [done|]. split; [done|]. intros _. apply Hne. lia.
  - intros s (rest & Htr & Hlink & Hne). exists rest.
    split; [done|]. split; [done|]. intros Hx. apply Hne.
    assert (eval_interval = 500) as Hi by reflexivity. rewrite Hi in *.
    destruct (decide (x = 500)) as [->|]; [done|lia].
Qed.

Lemma sw_iterations_evaluated (c : config) (epoch : Z) :
  hoare (sw_evaluated t0 1) (for_each (range1 max_iters) (iteration w c epoch))
        (fun r s => match r with
                    | Ok _ => sw_evaluated t0 (eval_interval + 1) s
                    | Raise _ => True
                    end).
Proof.
  unfold range1. change max_iters with (Z.of_nat (Z.to_nat max_iters)).
  eapply hoare_weaken;
    [apply (hoare_for_each_seqZ (sw_evaluated t0)
              (sw_evaluated t0 (eval_interval + 1)) (fun _ => True))
    |done|].
  - intros x _. apply sw_iteration_evaluated.
  - intros [[]|e] s; [|done]. intros [(rest & Htr & Hlink & Hne)|Hs]; [|done].
    exists rest. split; [done|]. split; [done|]. intros _. apply Hne.
    by vm_compute.
Qed.

End SubwordCheckpoint.

(** An epoch of GPT_Trainer-subword.py fails only where one of its
    iterations fails: [val_loss] is always bound when the loop over the
    iterations is left, because the loop cannot end before an evaluation.
    An epoch that returns has stepped the scheduler with, and saved in
    its checkpoint, the validation loss printed last in this same epoch,
    and it ends the trial exactly when the counter has reached the
    patience.  [rest] is what the iterations logged, newest event
    first. *)
Theorem sw_checkpoint_records_latest_loss :
  forall (w : Subword.world) (c : Subword.config) (epoch : Z)
         (s : Subword.state),
    match Subword.run_epoch w c epoch s with
    | (Ok r, s') =>
        exists v rest,
          Subword.trace s' =
            SaveCheckpoint epoch v :: PrintLR :: SchedulerStep (Some v)
              :: rest ++ ModelTrain :: Subword.trace s /\
          head (losses rest) = Some v /\
          (r = Break <-> Subword.patience <= Subword.plateau_count s')
    | (Raise e, s') =>
        for_each (range1 Subword.max_iters) (Subword.iteration w c epoch)
                 (Subword.set_total_loss (Fin 0)
                    (Subword.log ModelTrain (Subword.set_training true s)))
        = (Raise e, s')
    end.
Proof.
  intros w c epoch s.
  unfold Subword.run_epoch.
  unfold bind at 1, modify at 1. unfold bind at 1, modify at 1.
  unfold bind at 1, modify at 1. unfold bind at 1.
  assert (sw_evaluated (ModelTrain :: Subword.trace s) 1
            (Subword.set_total_loss (Fin 0)
               (Subword.log ModelTrain (Subword.set_training true s))))
    as Hstart.
  { exists []. split; [done|]. split; [done|]. by vm_compute. }
  pose proof (sw_iterations_evaluated w (ModelTrain :: Subword.trace s) c epoch
                _ Hstart) as Hloop.
  destruct (for_each _ _ _) as [[[]|e] s1]; [|done].
  cbn [fst snd] in Hloop. destruct Hloop as (rest & Htr & Hlink & Hne).
  specialize (Hne ltac:(lia)).
  destruct (losses rest) as [|v lo] eqn:Hlo; [done|].
  specialize (Hlink v eq_refl).
  unfold bind at 1, gets at 1. rewrite Hlink.
  unfold bind, modify, gets, ret. cbn [Subword.plateau_count Subword.log].
  destruct (Z.leb_spec Subword.patience (Subword.plateau_count s1)).
  - exists v, rest. cbn. rewrite Htr, Hlo. by repeat split.
  - exists v, rest. cbn. rewrite Htr, Hlo. repeat split; [done|lia].
Qed.

(** ** Auto_Tune.py: the schedule of a trial *)

Lemma updates_since_eval_app {C} (a t : list (event C)) :
  losses a = [] ->
  updates_since_eval (a ++ t) = (updates a + updates_since_eval t)%nat.
Proof.
  induction a as [|e a IH]; [done|]. intros Hlo.
  destruct e; try discriminate Hlo; cbn [app updates_since_eval];
    change (updates (?e :: a)) with (updates ([e] ++ a));
    rewrite ?updates_app; cbn; rewrite (IH Hlo); done.
Qed.

Lemma updates_seeks {C} (mid : list (event C)) :
  Forall is_seek mid -> updates mid = 0%nat /\ losses mid = [].
Proof.
  induction 1 as [|e mid (sp & pos & ->) _ [IHu IHl]]; [done|].
  split; [exact IHu|exact IHl].
Qed.

Lemma updates_none {C} (mid : list (event C)) :
  Forall (fun e => e <> ScalerStep) mid -> updates mid = 0%nat.
Proof.
  induction 1 as [|e mid He _ IH]; [done|].
  change (e :: mid) with ([e] ++ mid). rewrite updates_app, IH.
  by destruct e.
Qed.

Section CountedLoops.
Context {S : Type}.

(** A loop that fills a list, when every round returns and adds one to
    the counter [f]. *)
Lemma collect_returns_counting {A} (I : S -> Prop) (f : S -> nat) (n : nat)
      (m : M S A) (s : S) :
  (forall s, I s -> exists a s', m s = (Ok a, s') /\ I s' /\
                                 f s' = Datatypes.S (f s)) ->
  I s ->
  exists l s', collect n m s = (Ok l, s') /\ length l = n /\ I s' /\
               f s' = (f s + n)%nat.
Proof.
  intros Hm. revert s. induction n as [|n IH]; intros s Hs.
  - exists [], s. by rewrite Nat.add_0_r.
  - destruct (Hm s Hs) as (a & s1 & Ha & Hs1 & Hf1).
    destruct (IH s1 Hs1) as (l & s2 & Hl & Hlen & Hs2 & Hf2).
    exists (a :: l), s2. rewrite collect_S. unfold bind, ret. rewrite Ha, Hl.
    repeat split; [by rewrite <- Hlen|done|lia].
Qed.

End CountedLoops.

Section AutoTuneProgress.
Import AutoTune.
Variable w : world.
Variable bs : Z.
Hypothesis Hhealthy : at_healthy w bs.
Hypothesis Hmodel : at_model_returns w.

Lemma get_batch_calls (sp : split) (k : nat) :
  preserves (fun s => calls s = k) (get_batch w sp).
Proof.
  unfold get_batch, batch_of_chunk, get_random_chunk.
  repeat preserve_step; done.
Qed.

Lemma at_get_batch_returns (sp : split) (s : state) :
  batch_size s = bs ->
  exists b s', get_batch w sp s = (Ok b, s') /\
               at_frame is_seek s s' /\ calls s' = calls s.
Proof.
  intros Hbs. destruct Hhealthy as [Hpos Hfiles].
  destruct (Hfiles sp) as [Hsize Hlong]. cbv zeta in Hsize, Hlong.
  assert (block_size = 128) as Hblock by reflexivity.
  pose proof (get_batch_frame w sp s s (at_frame_refl _ _)) as Hf.
  pose proof (get_batch_calls sp (calls s) s eq_refl) as Hcalls.
  assert (is_ok (get_batch w sp s).1 = true) as Hok.
  { unfold get_batch, get_random_chunk.
    destruct (decide (file_of w sp = [])) as [Hnil|_].
    { rewrite Hnil in Hsize. cbn [length] in Hsize. nia. }
    unfold bind at 1. unfold bind at 1, gets at 1. rewrite Hbs.
    unfold bind at 1, next_draws. unfold bind at 1, lift at 1.
    destruct (random_randint 0 _ _) as [pos|e] eqn:Hrand.
    2:{ unfold random_randint in Hrand.
        destruct (Z.ltb_spec (Z.of_nat (length (file_of w sp))
                              - block_size * bs) 0); [lia|done]. }
    apply random_randint_range in Hrand.
    unfold bind at 1, modify at 1.
    destruct (Z.ltb_spec pos 0); [lia|].
    destruct (Z.ltb_spec (Z.of_nat (length (file_of w sp))) pos); [nia|].
    cbn [orb]. destruct (Hlong pos Hrand) as (data & -> & Hdata).
    unfold lift at 1. unfold batch_of_chunk.
    unfold bind at 1, gets at 1. cbn [batch_size log set_draws].
    rewrite Hbs. unfold bind at 1, next_draws.
    set (rs := map (raw w) _).
    assert (length rs = Z.to_nat bs) as Hrs
        by (unfold rs; by rewrite length_map, length_seq).
    destruct (torch_randint 0 (Z.of_nat (length data) - block_size) bs rs)
      as [ix|e] eqn:Hix.
    2:{ unfold torch_randint in Hix.
        destruct (Z.ltb_spec bs 0); [lia|].
        destruct (Z.leb_spec (Z.of_nat (length data) - block_size) 0);
          [lia|done]. }
    apply torch_randint_range in Hix as (_ & _ & Hlen & Hix).
    rewrite Hrs, Nat.min_id in Hlen.
    assert (ix <> []) as Hne.
    { intros ->. cbn [length] in Hlen. lia. }
    unfold bind at 1, lift at 1.
    rewrite (torch_stack_same_length _ (Z.to_nat block_size)); cycle 1.
    { by destruct ix. }
    { apply Forall_map, Forall_forall. intros i Hi. simpl.
      destruct (window_pair_slices data block_size i) as (? & ? & ? & ? & ? & _);
        [done| |done].
      by eapply (proj1 (Forall_forall _ _) Hix). }
    unfold bind at 1, lift at 1.
    rewrite (torch_stack_same_length _ (Z.to_nat block_size)); cycle 1.
    { by destruct ix. }
    { apply Forall_map, Forall_forall. intros i Hi. simpl.
      destruct (window_pair_slices data block_size i)
        as (? & ? & ? & ? & ? & ? & _); [done| |done].
      by eapply (proj1 (Forall_forall _ _) Hix). }
    done. }
  destruct (get_batch w sp s) as [[b|e] s']; [|done].
  by exists b, s'.
Qed.

Lemma at_estimate_split_returns (sp : split) (s : state) :
  batch_size s = bs ->
  exists v s', estimate_split w sp s = (Ok v, s') /\
               at_frame is_seek s s' /\
               calls s' = (calls s + Z.to_nat eval_iters)%nat.
Proof.
  intros Hbs. unfold estimate_split.
  destruct (collect_returns_counting (at_frame is_seek s) calls
              (Z.to_nat eval_iters)
              (bind (get_batch w sp) (fun b => call_model w b)) s)
    as (l & s' & Hrun & _ & Hs' & Hcalls).
  { intros s1 Hs1.
    destruct (at_get_batch_returns sp s1) as (b & s2 & Hgb & Hf & Hc).
    { destruct Hs1 as (Hb & _). congruence. }
    pose proof (Hmodel (calls s2) b) as Hfw.
    destruct (forward w (calls s2) b) as [v|e] eqn:Hv; [|done].
    exists v, (set_calls (Datatypes.S (calls s2)) s2).
    unfold bind. rewrite Hgb. unfold call_model. rewrite Hv.
    split; [done|]. split; [|cbn; by rewrite Hc].
    eapply at_frame_trans; [exact Hs1|].
    destruct Hf as (? & ? & ? & ? & Hnew). by repeat split. }
  { apply at_frame_refl. }
  unfold bind at 1. rewrite Hrun. unfold ret. by eexists _, s'.
Qed.

Lemma at_estimate_loss_returns (s : state) :
  batch_size s = bs ->
  exists out s' mid,
    estimate_loss w s = (Ok out, s') /\
    batch_size s' = bs /\ best_val_loss s' = best_val_loss s /\
    trace s' = mid ++ trace s /\ updates mid = 0%nat /\ losses mid = [] /\
    calls s' = (calls s + 2 * Z.to_nat eval_iters)%nat.
Proof.
  intros Hbs. rewrite estimate_loss_run.
  destruct (at_estimate_split_returns train (log ModelEval (set_training false s)))
    as (a & s1 & -> & Hf1 & Hc1); [done|].
  destruct (at_estimate_split_returns val s1) as (b & s2 & -> & Hf2 & Hc2).
  { destruct Hf1 as (Hb & _). by rewrite Hb. }
  destruct Hf1 as (Hb1 & Hv1 & _ & _ & mid1 & Hmid1 & Htr1).
  destruct Hf2 as (Hb2 & Hv2 & _ & _ & mid2 & Hmid2 & Htr2).
  cbn [batch_size best_val_loss trace calls log set_training]
    in Hb1, Hv1, Htr1, Hc1.
  destruct (updates_seeks mid1 Hmid1) as [Hu1 Hl1].
  destruct (updates_seeks mid2 Hmid2) as [Hu2 Hl2].
  exists (a, b), (log ModelTrain (set_training true s2)),
    ([ModelTrain] ++ mid2 ++ mid1 ++ [ModelEval]).
  split; [done|]. cbn [batch_size best_val_loss trace calls log set_training].
  split; [congruence|]. split; [by rewrite Hv2, Hv1|].
  split; [rewrite Htr2, Htr1; cbn; by rewrite <- !app_assoc|].
  split; [by rewrite !updates_app, Hu1, Hu2|].
  split; [by rewrite !losses_app, Hl1, Hl2|].
  rewrite Hc2, Hc1. cbn. lia.
Qed.

Lemma at_evaluation_returns (c : config) (it : Z) (s : state) :
  batch_size s = bs ->
  exists v s' mid,
    evaluation w c it s = (Ok tt, s') /\
    batch_size s' = bs /\ val_loss s' = Some v /\
    trace s' = mid ++ trace s /\ updates mid = 0%nat /\ losses mid = [v] /\
    (forall t, updates_since_eval (mid ++ t) = 0%nat) /\
    calls s' = (calls s + 2 * Z.to_nat eval_iters)%nat.
Proof.
  intros Hbs. rewrite evaluation_run.
  destruct (at_estimate_loss_returns s Hbs)
    as (out & s1 & mid & -> & Hb & _ & Htr & Hup & Hlo & Hcalls).
  cbv zeta. destruct (flt out.2 (best_val_loss s1)).
  - exists out.2, (log (SaveBest c it)
                     (set_best out.2 c
                        (log (PrintEval 0 it out.1 out.2)
                             (set_val_loss out.2 s1)))),
      ([SaveBest c it; PrintEval 0 it out.1 out.2] ++ mid).
    split; [done|]. cbn [batch_size val_loss trace calls log set_best set_val_loss].
    split; [done|]. split; [done|]. split; [by rewrite Htr|].
    split; [by rewrite updates_app, Hup|].
    split; [by rewrite losses_app, Hlo|]. by split.
  - exists out.2, (log (PrintEval 0 it out.1 out.2) (set_val_loss out.2 s1)),
      ([PrintEval 0 it out.1 out.2] ++ mid).
    split; [done|]. cbn [batch_size val_loss trace calls log set_val_loss].
    split; [done|]. split; [done|]. split; [by rewrite Htr|].
    split; [by rewrite updates_app, Hup|].
    split; [by rewrite losses_app, Hlo|]. by split.
Qed.

Lemma at_optimization_step_returns (s : state) :
  batch_size s = bs ->
  exists s' mid,
    optimization_step w s = (Ok tt, s') /\
    batch_size s' = bs /\ val_loss s' = val_loss s /\
    trace s' = mid ++ trace s /\ updates mid = 1%nat /\ losses mid = [] /\
    calls s' = Datatypes.S (calls s).
Proof.
  intros Hbs. rewrite optimization_step_run.
  destruct (at_get_batch_returns train s Hbs)
    as (b & s1 & -> & (Hb & _ & _ & Hv & mid & Hmid & Htr) & Hc).
  pose proof (Hmodel (calls s1) b) as Hfw. unfold call_model.
  destruct (forward w (calls s1) b) as [v|e]; [|done].
  destruct (updates_seeks mid Hmid) as [Hu Hl].
  eexists _, ([SchedulerStep None; ScalerUpdate; ScalerStep; ClipGradNorm 1;
               Backward; ZeroGrad] ++ mid).
  split; [done|]. cbn [batch_size val_loss trace calls log set_calls].
  split; [congruence|]. split; [done|]. split; [by rewrite Htr|].
  split; [by rewrite updates_app, Hu|].
  split; [by rewrite losses_app, Hl|]. by rewrite Hc.
Qed.

Variable t0 : list (event config).
Variable k0 : nat.

Lemma at_iteration_on_schedule (c : config) (x : Z) (s : state) :
  0 <= x ->
  at_on_schedule t0 k0 bs x s ->
  exists s', iteration w c x s = (Ok Continue, s') /\
             at_on_schedule t0 k0 bs (x + 1) s'.
Proof.
  intros Hx (Hbs & Hcalls & rest & Htr & Hup & Hlo & Hlink & Hsince).
  assert (eval_interval = 500) as Hi by reflexivity.
  assert (eval_iters = 250) as He by reflexivity.
  rewrite Hi, He in *. unfold iteration. rewrite Hi.
  destruct (decide (x `mod` 500 = 0)) as [Hmod|Hmod].
  - destruct (at_evaluation_returns c x s Hbs)
      as (v & s1 & mid1 & Hrun1 & Hb1 & Hv1 & Htr1 & Hup1 & Hlo1 & Hsince1
          & Hc1).
    destruct (at_optimization_step_returns s1 Hb1)
      as (s2 & mid2 & Hrun2 & Hb2 & Hv2 & Htr2 & Hup2 & Hlo2 & Hc2).
    exists s2. unfold bind at 1. rewrite Hrun1. unfold bind at 1.
    rewrite Hrun2. unfold ret. split; [done|].
    split; [done|]. rewrite Hi, He.
    split.
    { rewrite Hc2, Hc1. change (2 * Z.to_nat 250)%nat with 500%nat.
      revert Hcalls. Z.div_mod_to_equations. lia. }
    exists (mid2 ++ mid1 ++ rest).
    split; [by rewrite Htr2, Htr1, Htr, <- !app_assoc|].
    rewrite !updates_app, !losses_app, !length_app, Hup, Hup1, Hup2, Hlo,
      Hlo1, Hlo2.
    split; [lia|]. split; [cbn; Z.div_mod_to_equations; lia|].
    split; [intros v' [= <-]; congruence|]. intros _.
    rewrite updates_since_eval_app by done. rewrite Hup2, Hsince1.
    Z.div_mod_to_equations. lia.
  - destruct (at_optimization_step_returns s Hbs)
      as (s2 & mid2 & Hrun2 & Hb2 & Hv2 & Htr2 & Hup2 & Hlo2 & Hc2).
    exists s2. unfold bind at 1, ret at 1. unfold bind at 1.
    rewrite Hrun2. unfold ret. split; [done|].
    split; [done|]. rewrite Hi, He.
    split.
    { rewrite Hc2. revert Hcalls. Z.div_mod_to_equations. lia. }
    exists (mid2 ++ rest). split; [by rewrite Htr2, Htr, app_assoc|].
    rewrite updates_app, losses_app, length_app, Hup, Hup2, Hlo, Hlo2.
    split; [lia|]. split; [cbn; Z.div_mod_to_equations; lia|].
    split; [cbn; intros v' Hv'; rewrite Hv2; by apply Hlink|]. intros _.
    rewrite updates_since_eval_app by done. rewrite Hup2, Hsince.
    + Z.div_mod_to_equations. lia.
    + destruct (decide (x = 0)) as [->|]; [done|lia].
Qed.

(** The loop over the iterations of a trial: all of them return. *)
Lemma at_iterations_on_schedule (c : config) (s : state) :
  at_on_schedule t0 k0 bs 0 s ->
  exists s', for_each (range max_iters) (iteration w c) s = (Ok tt, s') /\
             at_on_schedule t0 k0 bs max_iters s'.
Proof.
  intros Hs.
  destruct (for_each_seqZ_continue (at_on_schedule t0 k0 bs)
              (Z.to_nat max_iters) 0 [] (iteration w c) s Hs)
    as (s' & Hs' & Heq).
  { intros x s1 Hx. apply at_iteration_on_schedule. lia. }
  exists s'. split; [|exact Hs'].
  unfold range. rewrite app_nil_r in Heq. exact Heq.
Qed.

End AutoTuneProgress.


(** A combination that the memory guard lets through, in a world where
    the sampler of Auto_Tune.py finds a chunk for its batch size and the
    model returns a loss at every call: the trial returns, after
    [max_iters] optimization steps and one evaluation for every
    [eval_interval] of them, the first one before any step; with the two
    splits of every evaluation the model is called 6000 times.  The loss
    in the closing message is the one printed last, and [eval_interval]
    optimization steps were made since it was measured: the weights the
    trial ends with are never evaluated.  [rest] is what the iterations
    logged, newest event first. *)
Theorem at_trial_runs_on_schedule :
  forall (w : AutoTune.world) (c : AutoTune.config) (s : AutoTune.state),
    at_healthy w (AutoTune.cfg_bs c) -> at_model_returns w ->
    AutoTune.memory_allocated w (AutoTune.queries s) <= AutoTune.vram_limit ->
    exists s' v rest,
      AutoTune.trial w c s = (Ok Continue, s') /\
      AutoTune.trace s' =
        PrintFinished c v :: rest ++ PrintTrial c :: AutoTune.trace s /\
      updates rest = 3000%nat /\
      length (losses rest) = 6%nat /\
      head (losses rest) = Some v /\
      updates_since_eval rest = 500%nat /\
      Z.of_nat (AutoTune.calls s') = Z.of_nat (AutoTune.calls s) + 6000.
Proof.
  intros w c s Hhealthy Hmodel Hmem.
  destruct (at_iterations_on_schedule w (AutoTune.cfg_bs c) Hhealthy Hmodel
              (PrintTrial c :: AutoTune.trace s) (AutoTune.calls s) c
              (AutoTune.set_training true
                 (AutoTune.set_queries (S (AutoTune.queries s))
                    (AutoTune.set_batch_size (AutoTune.cfg_bs c)
                       (AutoTune.log (PrintTrial c) s)))))
    as (s1 & Hrun & Hb & Hcalls & rest & Htr & Hup & Hlo & Hlink & Hsince).
  { split; [done|]. split.
    { cbn [AutoTune.calls AutoTune.set_training AutoTune.set_queries
           AutoTune.set_batch_size AutoTune.log].
      change ((0 + AutoTune.eval_interval - 1) `div` AutoTune.eval_interval)
        with 0. lia. }
    exists []. by repeat split. }
  specialize (Hsince ltac:(done)).
  change (Z.to_nat AutoTune.max_iters) with 3000%nat in Hup.
  change (Z.to_nat _) with 6%nat in Hlo.
  change (Z.to_nat _) with 500%nat in Hsince.
  destruct (losses rest) as [|v lo] eqn:Hlosses; [done|].
  specialize (Hlink v eq_refl).
  exists (AutoTune.log (PrintFinished c v) s1), v, rest.
  split.
  { unfold AutoTune.trial.
    unfold bind at 1, modify at 1. unfold bind at 1, modify at 1.
    unfold bind at 1. cbn [AutoTune.queries AutoTune.set_batch_size AutoTune.log].
    destruct (Z.ltb_spec AutoTune.vram_limit
                (AutoTune.memory_allocated w (AutoTune.queries s))); [lia|].
    unfold bind at 1, modify at 1. unfold bind at 1. rewrite Hrun.
    unfold bind at 1, gets at 1. rewrite Hlink.
    unfold bind, modify, ret. done. }
  cbn [AutoTune.trace AutoTune.calls AutoTune.log]. rewrite Htr, Hlosses.
  split; [done|]. split; [done|]. split; [done|]. split; [done|].
  split; [done|].
  revert Hcalls. change AutoTune.max_iters with 3000.
  change AutoTune.eval_iters with 250. change AutoTune.eval_interval with 500.
  change ((3000 + 500 - 1) `div` 500) with 6. lia.
Qed.

Lemma at_trial_runs_on_schedule_witness :
  at_healthy (at_world (file_of_a 2048) (file_of_a 2048)) 16 /\
  at_model_returns (at_world (file_of_a 2048) (file_of_a 2048)) /\
  AutoTune.memory_allocated (at_world (file_of_a 2048) (file_of_a 2048)) 0
  <= AutoTune.vram_limit /\
  exists s' v rest,
    AutoTune.trial (at_world (file_of_a 2048) (file_of_a 2048))
      (AutoTune.Config (1 # 1000) 16 (1 # 10) 128 6 4) AutoTune.initial
    = (Ok Continue, s') /\
    AutoTune.trace s' =
      PrintFinished (AutoTune.Config (1 # 1000) 16 (1 # 10) 128 6 4) v
        :: rest ++ [PrintTrial (AutoTune.Config (1 # 1000) 16 (1 # 10) 128 6 4)] /\
    updates rest = 3000%nat /\
    length (losses rest) = 6%nat /\
    head (losses rest) = Some v /\
    updates_since_eval rest = 500%nat /\
    Z.of_nat (AutoTune.calls s') = 6000.
Proof.
  assert (at_healthy (at_world (file_of_a 2048) (file_of_a 2048)) 16)
    as Hhealthy.
  { split; [lia|]. intros sp. cbv zeta.
    assert (AutoTune.file_of (at_world (file_of_a 2048) (file_of_a 2048)) sp
            = file_of_a 2048) as -> by (by destruct sp).
    assert (Z.of_nat (length (file_of_a 2048)) = 2048) as ->
        by (by vm_compute).
    change (AutoTune.block_size * 16) with 2048.
    split; [lia|]. intros pos Hpos. assert (pos = 0) as -> by lia.
    eexists. split; [vm_compute; reflexivity|]. by vm_compute. }
  assert (at_model_returns (at_world (file_of_a 2048) (file_of_a 2048)))
    as Hmodel by (by intros k b).
  assert (AutoTune.memory_allocated
            (at_world (file_of_a 2048) (file_of_a 2048)) 0
          <= AutoTune.vram_limit) as Hmem by (by vm_compute).
  split; [exact Hhealthy|]. split; [exact Hmodel|]. split; [exact Hmem|].
  exact (at_trial_runs_on_schedule
           (at_world (file_of_a 2048) (file_of_a 2048))
           (AutoTune.Config (1 # 1000) 16 (1 # 10) 128 6 4) AutoTune.initial
           Hhealthy Hmodel Hmem).
Defined.

(** ** Exceptions leave the search *)

Section Results.
Context {S : Type}.

Lemma bind_result_cases {A B} (P : result B -> Prop) (m : M S A)
      (k : A -> M S B) (s : S) :
  (forall e, P (Raise e)) -> (forall a s1, P (k a s1).1) -> P (bind m k s).1.
Proof.
  intros He Hk. unfold bind. destruct (m s) as [[a|e] s1]; [apply Hk|apply He].
Qed.

(** A loop whose body never breaks goes on to the next element. *)
Lemma for_each_snoc_raise {X} (xs ys : list X) (x : X) (body : X -> M S ctl)
      (s s1 s2 : S) (e : exn) :
  (forall y s, (body y s).1 <> Ok Break) ->
  for_each xs body s = (Ok tt, s1) ->
  body x s1 = (Raise e, s2) ->
  for_each (xs ++ x :: ys) body s = (Raise e, s2).
Proof.
  intros Hnb Hxs Hx.
  rewrite (for_each_app xs (x :: ys) body s s1 Hxs); [|intros; apply Hnb].
  cbn [for_each]. by rewrite Hx.
Qed.

End Results.

Lemma at_trial_never_breaks (w : AutoTune.world) (c : AutoTune.config)
      (s : AutoTune.state) :
  (AutoTune.trial w c s).1 <> Ok Break.
Proof.
  unfold AutoTune.trial.
  repeat (apply bind_result_cases; [done|intros ? ?]).
  destruct (_ <? _).
  - repeat (apply bind_result_cases; [done|intros ? ?]). done.
  - repeat (apply bind_result_cases; [done|intros ? ?]).
    match goal with |- context [match ?v with _ => _ end] => destruct v end;
      [|done].
    repeat (apply bind_result_cases; [done|intros ? ?]). done.
Qed.

Lemma sw_trial_never_breaks (w : Subword.world) (epochs : Z)
      (c : Subword.config) (s : Subword.state) :
  (Subword.trial w epochs c s).1 <> Ok Break.
Proof.
  rewrite sw_trial_run. by destruct (for_each _ _ _) as [[[]|e] s2].
Qed.

(** The first optimization step of a trial raises. *)
Lemma sw_trial_first_step_raises (w : Subword.world) (epochs : Z)
      (c : Subword.config) (s s1 : Subword.state) (e : exn) :
  1 <= epochs ->
  Subword.optimization_step w
    (Subword.set_total_loss (Fin 0)
       (Subword.log ModelTrain
          (Subword.set_training true
             (Subword.set_plateau_count 0
                (Subword.log (PrintTrial c) (Subword.set_training true s))))))
  = (Raise e, s1) ->
  Subword.trial w epochs c s = (Raise e, s1).
Proof.
  intros Hepochs Hstep. rewrite sw_trial_run.
  unfold range1. rewrite seqZ_cons by lia. cbn [for_each].
  unfold Subword.run_epoch.
  unfold bind at 1, modify at 1. unfold bind at 1, modify at 1.
  unfold bind at 1, modify at 1. unfold bind at 1.
  unfold range1. rewrite (seqZ_cons 1 Subword.max_iters) by done.
  cbn [for_each]. unfold Subword.iteration at 1. unfold bind at 1.
  by rewrite Hstep.
Qed.

(** Neither script handles an exception: when the trial of one
    combination raises, the whole search ends with that exception, in the
    state the trial had reached.  The combinations that come after it are
    never tried and the final report is not printed. *)
Theorem search_stops_at_first_failure :
  (forall (w : AutoTune.world) (cs1 cs2 : list AutoTune.config)
          (c : AutoTune.config) (s s1 s2 : AutoTune.state) (e : exn),
      for_each cs1 (AutoTune.trial w) (AutoTune.enter s) = (Ok tt, s1) ->
      AutoTune.trial w c s1 = (Raise e, s2) ->
      AutoTune.search w (cs1 ++ c :: cs2) s = (Raise e, s2)) /\
  (forall (w : Subword.world) (epochs : Z) (cs1 cs2 : list Subword.config)
          (c : Subword.config) (s s1 s2 : Subword.state) (e : exn),
      for_each cs1 (Subword.trial w epochs) (Subword.enter s) = (Ok tt, s1) ->
      Subword.trial w epochs c s1 = (Raise e, s2) ->
      Subword.train w (cs1 ++ c :: cs2) epochs s = (Raise e, s2)).
Proof.
  split.
  - intros w cs1 cs2 c s s1 s2 e Hcs1 Hc. rewrite search_run.
    by rewrite (for_each_snoc_raise cs1 cs2 c _ _ s1 s2 e
                  (at_trial_never_breaks w) Hcs1 Hc).
  - intros w epochs cs1 cs2 c s s1 s2 e Hcs1 Hc. rewrite train_run.
    by rewrite (for_each_snoc_raise cs1 cs2 c _ _ s1 s2 e
                  (sw_trial_never_breaks w epochs) Hcs1 Hc).
Qed.

Lemma search_stops_at_first_failure_witness :
  (exists s1 s2,
      for_each [AutoTune.Config (1 # 1000) 16 (1 # 10) 128 6 4]
               (AutoTune.trial at_world_failing)
               (AutoTune.enter AutoTune.initial) = (Ok tt, s1) /\
      AutoTune.trial at_world_failing
        (AutoTune.Config (1 # 1000) 16 (1 # 10) 128 6 8) s1
      = (Raise (ExternalError "OutOfMemoryError" "CUDA out of memory"), s2) /\
      AutoTune.search at_world_failing
        ([AutoTune.Config (1 # 1000) 16 (1 # 10) 128 6 4]
           ++ AutoTune.Config (1 # 1000) 16 (1 # 10) 128 6 8
           :: [AutoTune.Config (1 # 1000) 16 (1 # 10) 128 6 12])
        AutoTune.initial
      = (Raise (ExternalError "OutOfMemoryError" "CUDA out of memory"), s2)) /\
  (exists s2,
      for_each [] (Subword.trial (sw_world [] [] (fun _ => Ok (Fin 1))) 10)
               (Subword.enter Subword.initial)
      = (Ok tt, Subword.enter Subword.initial) /\
      Subword.trial (sw_world [] [] (fun _ => Ok (Fin 1))) 10
                    (Subword.AdamW, 35 # 100000)%Q
                    (Subword.enter Subword.initial)
      = (Raise (ValueError "cannot mmap an empty file"), s2) /\
      Subword.train (sw_world [] [] (fun _ => Ok (Fin 1)))
                    ([] ++ (Subword.AdamW, 35 # 100000)%Q
                        :: [(Subword.LAMB, 35 # 100000)%Q])
                    10 Subword.initial
      = (Raise (ValueError "cannot mmap an empty file"), s2)).
Proof.
  split.
  - assert (for_each [AutoTune.Config (1 # 1000) 16 (1 # 10) 128 6 4]
              (AutoTune.trial at_world_failing)
              (AutoTune.enter AutoTune.initial)
            = (Ok tt,
               (for_each [AutoTune.Config (1 # 1000) 16 (1 # 10) 128 6 4]
                  (AutoTune.trial at_world_failing)
                  (AutoTune.enter AutoTune.initial)).2)) as H1
        by (vm_compute; reflexivity).
    set (s1 := (for_each _ _ _).2) in H1.
    assert (AutoTune.trial at_world_failing
              (AutoTune.Config (1 # 1000) 16 (1 # 10) 128 6 8) s1
            = (Raise (ExternalError "OutOfMemoryError" "CUDA out of memory"),
               (AutoTune.trial at_world_failing
                  (AutoTune.Config (1 # 1000) 16 (1 # 10) 128 6 8) s1).2))
      as H2 by (vm_compute; reflexivity).
    set (s2 := (AutoTune.trial _ _ _).2) in H2.
    exists s1, s2. split; [exact H1|]. split; [exact H2|].
    exact (proj1 search_stops_at_first_failure at_world_failing _ _ _
             AutoTune.initial s1 s2 _ H1 H2).
  - assert (Subword.trial (sw_world [] [] (fun _ => Ok (Fin 1))) 10
              (Subword.AdamW, 35 # 100000)%Q (Subword.enter Subword.initial)
            = (Raise (ValueError "cannot mmap an empty file"),
               Subword.log ZeroGrad
                 (Subword.set_total_loss (Fin 0)
                    (Subword.log ModelTrain
                       (Subword.set_training true
                          (Subword.set_plateau_count 0
                             (Subword.log
                                (PrintTrial (Subword.AdamW, 35 # 100000)%Q)
                                (Subword.set_training true
                                   (Subword.enter Subword.initial))))))))) as H2.
    { apply sw_trial_first_step_raises; [lia|]. vm_compute. reflexivity. }
    eexists. split; [reflexivity|]. split; [exact H2|].
    exact (proj2 search_stops_at_first_failure
             (sw_world [] [] (fun _ => Ok (Fin 1))) 10 [] _ _
             Subword.initial _ _ _ eq_refl H2).
Defined.



